(** * mood-service: the sentiment HTTP handlers of [index.ts]

    A shallow embedding of the three route handlers of the service
    ([GET /sentiment], [POST /sentiment], [GET /last-known-tweet]) and of
    the parts of the platform they rely on, followed by the properties of
    the handlers.

    Conventions of the embedding.
    - A JavaScript value is a [value]; a number is an IEEE-754 binary64
      ([spec_float] of the standard library, precision 53, emax 1024).
    - A JavaScript string is a Rocq [string] holding its UTF-8 bytes;
      [utf16_length] recovers the number of UTF-16 code units that
      [.length] reports.  A surrogate code unit that is not half of a pair
      is held in the three-byte form of its number, as [JSON.parse] of a
      backslash-u escape produces it.
    - An expression that can throw is an [outcome]; an [async] handler is a
      function on the [world]: the contents of the cache, the documents of
      the store, the log of the calls made to the two collaborators, and
      the schedule that says which calls they reject.  The handlers have
      no [try]/[catch]: a rejected call or a thrown error ends the request.
    - The reply of a handler is what it passes to [reply.status(..).send];
      the framework's validation of the request and its serialization of
      the reply lie outside the handlers.
    - Redis and Cosmos DB are collaborators of the service, not part of
      it: [client_get]/[client_set] and [run_query]/[upsert] give their
      behaviour on the calls the handlers make (get and set-with-expiry by
      key; the two SQL texts; create-or-replace by [id]).  Expiry is kept
      as data of a cache entry; the passing of time is not modelled.
    - [console.*] calls and the per-request timer labels have no effect on
      the cache, the store or the reply, and are left out. *)

From Stdlib Require Import ZArith String Ascii List Bool Lia DecimalString.
From Stdlib Require Import Floats.SpecFloat.
From stdpp Require Import base option list strings gmap.

Open Scope string_scope.
Set Warnings "-register-all".

(** ** Exceptions *)

Inductive exn :=
| SyntaxError   (* JSON.parse on text that is not JSON *)
| TypeError     (* property read on undefined/null, call of a non-function *)
| RedisError    (* a rejected cache command *)
| CosmosError.  (* a rejected store request *)

Inductive outcome (A : Type) :=
| Ok (a : A)
| Throw (e : exn).
Arguments Ok {A} a.
Arguments Throw {A} e.

Definition outcome_bind {A B} (m : outcome A) (k : A -> outcome B) : outcome B :=
  match m with
  | Ok a => k a
  | Throw e => Throw e
  end.

Fixpoint outcome_map {A B} (f : A -> outcome B) (xs : list A) : outcome (list B) :=
  match xs with
  | [] => Ok []
  | x :: xs' =>
      outcome_bind (f x) (fun y =>
      outcome_bind (outcome_map f xs') (fun ys => Ok (y :: ys)))
  end.

(** ** JavaScript values *)

Module JS.

Definition number := spec_float.
Definition prec : Z := 53.
Definition emax : Z := 1024.

Definition number_of_Z (z : Z) : number := binary_normalize prec emax z 0 false.
Definition number_of_nat (n : nat) : number := number_of_Z (Z.of_nat n).

Inductive value :=
| VUndefined
| VNull
| VBool (b : bool)
| VNum (n : number)
| VStr (s : string)
| VArr (items : list value)
| VObj (fields : list (string * value)).

(** An object is its own properties in enumeration order. *)
Definition obj := list (string * value).

Fixpoint obj_lookup (k : string) (o : obj) : option value :=
  match o with
  | [] => None
  | (k', v) :: o' => if String.eqb k k' then Some v else obj_lookup k o'
  end.

Definition obj_has (k : string) (o : obj) : bool :=
  match obj_lookup k o with Some _ => true | None => false end.

Fixpoint obj_replace (k : string) (v : value) (o : obj) : obj :=
  match o with
  | [] => []
  | (k', v') :: o' =>
      if String.eqb k k' then (k', v) :: o' else (k', v') :: obj_replace k v o'
  end.

Definition is_digit (c : ascii) : bool :=
  let n := nat_of_ascii c in (48 <=? n)%nat && (n <=? 57)%nat.

Definition digit_val (c : ascii) : Z := Z.of_nat (nat_of_ascii c) - 48.

Fixpoint digits_val (acc : Z) (s : string) : Z :=
  match s with
  | EmptyString => acc
  | String c s' => digits_val (10 * acc + digit_val c) s'
  end.

Fixpoint all_digits (s : string) : bool :=
  match s with
  | EmptyString => true
  | String c s' => is_digit c && all_digits s'
  end.

(** Array-index property names ("0", "1", ..., "4294967294") enumerate
    before the other names, in ascending order. *)
Definition array_index (k : string) : option Z :=
  match k with
  | EmptyString => None
  | String c rest =>
      if all_digits k
         && (negb (Ascii.eqb c "0") || String.eqb rest "")
         && (String.length k <=? 10)%nat
         && (digits_val 0 k <=? 4294967294)%Z
      then Some (digits_val 0 k) else None
  end.

Fixpoint obj_insert_index (i : Z) (k : string) (v : value) (o : obj) : obj :=
  match o with
  | [] => [(k, v)]
  | (k', v') :: o' =>
      match array_index k' with
      | Some j => if (j <? i)%Z then (k', v') :: obj_insert_index i k v o'
                  else (k, v) :: o
      | None => (k, v) :: o
      end
  end.

(** [o[k] = v]: an existing property keeps its place, a new one is added
    in enumeration order. *)
Definition obj_set (k : string) (v : value) (o : obj) : obj :=
  if obj_has k o then obj_replace k v o
  else match array_index k with
       | Some i => obj_insert_index i k v o
       | None => (o ++ [(k, v)])%list
       end.

(** Number of UTF-16 code units of a string given by its UTF-8 bytes. *)
Definition utf16_units (c : ascii) : nat :=
  let n := nat_of_ascii c in
  if (n <? 128)%nat then 1%nat
  else if (n <? 192)%nat then 0%nat
  else if (n <? 240)%nat then 1%nat
  else 2%nat.

Fixpoint utf16_length (s : string) : nat :=
  match s with
  | EmptyString => 0%nat
  | String c s' => (utf16_units c + utf16_length s')%nat
  end.

(** The property names the handlers read.  None of them is an array index
    or a property inherited from a prototype, so a read is decided by the
    own properties of the value. *)
Inductive prop :=
| p_length | p_id | p_text | p_sentiment | p_confidenceScores
| p_positive | p_neutral | p_negative | p_sentences | p_offset.

Definition prop_name (p : prop) : string :=
  match p with
  | p_length => "length"
  | p_id => "id"
  | p_text => "text"
  | p_sentiment => "sentiment"
  | p_confidenceScores => "confidenceScores"
  | p_positive => "positive"
  | p_neutral => "neutral"
  | p_negative => "negative"
  | p_sentences => "sentences"
  | p_offset => "offset"
  end.

(** [v.p] *)
Definition js_get (v : value) (p : prop) : outcome value :=
  match v with
  | VUndefined | VNull => Throw TypeError
  | VBool _ | VNum _ => Ok VUndefined
  | VStr s =>
      match p with
      | p_length => Ok (VNum (number_of_nat (utf16_length s)))
      | _ => Ok VUndefined
      end
  | VArr xs =>
      match p with
      | p_length => Ok (VNum (number_of_nat (length xs)))
      | _ => Ok VUndefined
      end
  | VObj o => Ok (default VUndefined (obj_lookup (prop_name p) o))
  end.

(** [v.p1.p2...] *)
Fixpoint js_path (v : value) (ps : list prop) : outcome value :=
  match ps with
  | [] => Ok v
  | p :: ps' => outcome_bind (js_get v p) (fun v' => js_path v' ps')
  end.

(** [v.map(f)]: only an array has a callable [map]. *)
Definition js_map (v : value) (f : value -> outcome value) : outcome value :=
  match v with
  | VArr xs => outcome_bind (outcome_map f xs) (fun ys => Ok (VArr ys))
  | _ => Throw TypeError
  end.

(** [v === n] for a number [n]: no coercion, IEEE equality on numbers. *)
Definition strict_equals_number (v : value) (n : number) : bool :=
  match v with
  | VNum m => SFeqb m n
  | _ => false
  end.

(** Truthiness of the result of [client.get]: [null] and [""] are falsy. *)
Definition truthy (r : option string) : bool :=
  match r with
  | Some s => negb (String.eqb s "")
  | None => false
  end.

End JS.
Export JS.

(** ** JSON text: [JSON.parse] and [JSON.stringify] *)

Module JSON.

(** *** Numbers *)

(** The binary64 nearest to [m * 10^e10] (ties to even), for [m > 0].
    Magnitudes beyond the range of binary64 are cut off before the powers
    of ten are computed. *)
Definition decimal_to_double (neg : bool) (m e10 : Z) : number :=
  if (m <=? 0)%Z then S754_zero neg
  else
    let mag := ((Z.log2 m * 30103) / 100000 + e10)%Z in
    if (310 <? mag)%Z then S754_infinity neg
    else if (mag <? -330)%Z then S754_zero neg
    else if (0 <=? e10)%Z then
      binary_normalize prec emax (if neg then - (m * 10 ^ e10) else m * 10 ^ e10) 0 neg
    else
      let '(q, e', l) := SFdiv_core_binary prec emax m 0 (10 ^ (- e10)) 0 in
      binary_round_aux prec emax neg q e' l.

(** The exact value of a finite binary64 as a fraction. *)
Definition fraction_of (m : positive) (e : Z) : Z * Z :=
  if (0 <=? e)%Z then (Zpos m * 2 ^ e, 1)%Z else (Zpos m, 2 ^ (- e))%Z.

(** [x * 10^p] as a fraction. *)
Definition scale10 (x : Z * Z) (p : Z) : Z * Z :=
  let (num, den) := x in
  if (0 <=? p)%Z then (num * 10 ^ p, den)%Z else (num, den * 10 ^ (- p))%Z.

Definition lt_pow10 (x : Z * Z) (n : Z) : bool :=
  let (a, b) := scale10 x (- n) in (a <? b)%Z.

(** The least [n] with [x < 10^n]. *)
Definition decimal_exponent (m : positive) (e : Z) : Z :=
  let x := fraction_of m e in
  let est := (((Z.log2 (Zpos m) + e) * 30103) / 100000)%Z in
  default (est + 3)%Z
    (List.find (lt_pow10 x) [est - 1; est; est + 1; est + 2]%Z).

(** The [k]-digit decimals next to [x * 10^(k-n)] that read back as [x];
    the nearer one first, the even one on a tie. *)
Definition digits_at (x : Z * Z) (this : number) (n k : Z) : option Z :=
  let (a, b) := scale10 x (k - n) in
  let lo := (a / b)%Z in
  let r := (a mod b)%Z in
  let ok s := SFeqb (decimal_to_double false s (n - k)) this in
  if (r =? 0)%Z then (if ok lo then Some lo else None)
  else
    let hi := (lo + 1)%Z in
    let lo_first :=
      match (2 * r ?= b)%Z with
      | Lt => true
      | Gt => false
      | Eq => Z.even lo
      end in
    let (c1, c2) := if lo_first then (lo, hi) else (hi, lo) in
    if ok c1 then Some c1 else if ok c2 then Some c2 else None.

Fixpoint shortest_digits (fuel : nat) (x : Z * Z) (this : number) (n k : Z) : Z * Z :=
  match fuel with
  | O => (fst (scale10 x (k - n)) / snd (scale10 x (k - n)), k)%Z
  | S fuel' =>
      match digits_at x this n k with
      | Some s => (s, k)
      | None => shortest_digits fuel' x this n (k + 1)
      end
  end.

Definition Z_to_string (z : Z) : string :=
  NilZero.string_of_uint (N.to_uint (Z.to_N z)).

Fixpoint zeros (n : nat) : string :=
  match n with O => "" | S n' => String "0" (zeros n') end.

Definition take_string (n : nat) (s : string) : string := String.substring 0 n s.
Definition drop_string (n : nat) (s : string) : string :=
  String.substring n (String.length s - n) s.

(** Number::toString of a positive finite number with decimal digits [ds]
    ([k] of them) and exponent [n]: the value is [0.ds * 10^n]. *)
Definition format_decimal (ds : string) (n : Z) : string :=
  let k := Z.of_nat (String.length ds) in
  if ((k <=? n) && (n <=? 21))%Z then ds ++ zeros (Z.to_nat (n - k))
  else if ((0 <? n) && (n <=? 21))%Z then
    take_string (Z.to_nat n) ds ++ "." ++ drop_string (Z.to_nat n) ds
  else if ((-6 <? n) && (n <=? 0))%Z then
    "0." ++ zeros (Z.to_nat (- n)) ++ ds
  else
    let e := (n - 1)%Z in
    let es := (if (e <? 0)%Z then "-" else "+") ++ Z_to_string (Z.abs e) in
    if (k =? 1)%Z then ds ++ "e" ++ es
    else take_string 1 ds ++ "." ++ drop_string 1 ds ++ "e" ++ es.

Definition positive_to_string (m : positive) (e : Z) : string :=
  let x := fraction_of m e in
  let n := decimal_exponent m e in
  let '(s, k) := shortest_digits 17 x (S754_finite false m e) n 1 in
  if (s =? 10 ^ k)%Z then format_decimal "1" (n + 1)
  else format_decimal (Z_to_string s) n.

(** [String(x)] *)
Definition number_to_string (x : number) : string :=
  match x with
  | S754_zero _ => "0"
  | S754_nan => "NaN"
  | S754_infinity s => if s then "-Infinity" else "Infinity"
  | S754_finite s m e =>
      (if s then "-" else "") ++ positive_to_string m e
  end.

(** *** Strings *)

Definition dquote : ascii := "034"%char.
Definition byte (z : Z) : ascii := ascii_of_nat (Z.to_nat z).

Definition is_ws (c : ascii) : bool :=
  let n := nat_of_ascii c in
  (n =? 32)%nat || (n =? 9)%nat || (n =? 10)%nat || (n =? 13)%nat.

Fixpoint skip_ws (s : string) : string :=
  match s with
  | String c rest => if is_ws c then skip_ws rest else s
  | EmptyString => s
  end.

Definition hex_val (c : ascii) : option Z :=
  let n := Z.of_nat (nat_of_ascii c) in
  if ((48 <=? n) && (n <=? 57))%Z then Some (n - 48)%Z
  else if ((65 <=? n) && (n <=? 70))%Z then Some (n - 55)%Z
  else if ((97 <=? n) && (n <=? 102))%Z then Some (n - 87)%Z
  else None.

Definition hex4 (s : string) : option (Z * string) :=
  match s with
  | String a (String b (String c (String d rest))) =>
      match hex_val a, hex_val b, hex_val c, hex_val d with
      | Some x, Some y, Some z, Some w =>
          Some ((((x * 16 + y) * 16 + z) * 16 + w)%Z, rest)
      | _, _, _, _ => None
      end
  | _ => None
  end.

Definition utf8_encode (cp : Z) : string :=
  if (cp <? 128)%Z then String (byte cp) ""
  else if (cp <? 2048)%Z then
    String (byte (192 + cp / 64)) (String (byte (128 + cp mod 64)) "")
  else if (cp <? 65536)%Z then
    String (byte (224 + cp / 4096))
      (String (byte (128 + (cp / 64) mod 64)) (String (byte (128 + cp mod 64)) ""))
  else
    String (byte (240 + cp / 262144))
      (String (byte (128 + (cp / 4096) mod 64))
         (String (byte (128 + (cp / 64) mod 64)) (String (byte (128 + cp mod 64)) ""))).

(** The text after a backslash-u: one code unit, or a surrogate pair. *)
Definition unicode_escape (s : string) : option (string * string) :=
  match hex4 s with
  | Some (hi, rest) =>
      if ((55296 <=? hi) && (hi <=? 56319))%Z then
        match rest with
        | String "\" (String "u" rest') =>
            match hex4 rest' with
            | Some (lo, rest'') =>
                if ((56320 <=? lo) && (lo <=? 57343))%Z
                then Some (utf8_encode (65536 + (hi - 55296) * 1024 + (lo - 56320)), rest'')
                else Some (utf8_encode hi, rest)
            | None => Some (utf8_encode hi, rest)
            end
        | _ => Some (utf8_encode hi, rest)
        end
      else Some (utf8_encode hi, rest)
  | None => None
  end.

Definition simple_escape (e : ascii) : option ascii :=
  if Ascii.eqb e dquote then Some dquote
  else if Ascii.eqb e "\" then Some "\"%char
  else if Ascii.eqb e "/" then Some "/"%char
  else if Ascii.eqb e "b" then Some "008"%char
  else if Ascii.eqb e "f" then Some "012"%char
  else if Ascii.eqb e "n" then Some "010"%char
  else if Ascii.eqb e "r" then Some "013"%char
  else if Ascii.eqb e "t" then Some "009"%char
  else None.

(** The characters of a string literal, after its opening quote. *)
Fixpoint parse_chars (fuel : nat) (s : string) (acc : string) : option (string * string) :=
  match fuel with
  | O => None
  | S fuel' =>
      match s with
      | EmptyString => None
      | String c rest =>
          if Ascii.eqb c dquote then Some (acc, rest)
          else if Ascii.eqb c "\" then
            match rest with
            | String e rest' =>
                if Ascii.eqb e "u" then
                  match unicode_escape rest' with
                  | Some (bytes, rest'') => parse_chars fuel' rest'' (acc ++ bytes)
                  | None => None
                  end
                else
                  match simple_escape e with
                  | Some c' => parse_chars fuel' rest' (acc ++ String c' "")
                  | None => None
                  end
            | EmptyString => None
            end
          else if (nat_of_ascii c <? 32)%nat then None
          else parse_chars fuel' rest (acc ++ String c "")
      end
  end.

Definition parse_string (s : string) : option (string * string) :=
  parse_chars (String.length s) s "".

Fixpoint take_digits (s : string) : string * string :=
  match s with
  | String c rest =>
      if is_digit c then let (d, r) := take_digits rest in (String c d, r)
      else ("", s)
  | EmptyString => ("", "")
  end.

(** An optional fraction: a point and at least one digit. *)
Definition parse_fraction (s : string) : option (string * string) :=
  match s with
  | String "." r =>
      let (fp, s3) := take_digits r in
      if String.eqb fp "" then None else Some (fp, s3)
  | _ => Some ("", s)
  end.

(** An optional exponent: [e] or [E], an optional sign, at least one
    digit. *)
Definition parse_exponent (s : string) : option (Z * string) :=
  match s with
  | String c r =>
      if Ascii.eqb c "e" || Ascii.eqb c "E" then
        let (eneg, r') :=
          match r with
          | String "-" r1 => (true, r1)
          | String "+" r1 => (false, r1)
          | _ => (false, r)
          end in
        let (ep, s4) := take_digits r' in
        if String.eqb ep "" then None
        else Some ((if eneg then - digits_val 0 ep else digits_val 0 ep)%Z, s4)
      else Some (0%Z, s)
  | EmptyString => Some (0%Z, s)
  end.

(** After the sign: an integer part without leading zero, an optional
    fraction, an optional exponent. *)
Definition parse_unsigned (neg : bool) (s1 : string) : option (number * string) :=
  let (ip, s2) := take_digits s1 in
  match ip with
  | EmptyString => None
  | String c0 more =>
      if Ascii.eqb c0 "0" && negb (String.eqb more "") then None
      else
        match parse_fraction s2 with
        | None => None
        | Some (fp, s3) =>
            match parse_exponent s3 with
            | None => None
            | Some (e, s4) =>
                Some (decimal_to_double neg (digits_val 0 (ip ++ fp))
                        (e - Z.of_nat (String.length fp)), s4)
            end
        end
  end.

Definition minus_sign (s : string) : bool * string :=
  match s with
  | String "-" r => (true, r)
  | _ => (false, s)
  end.

(** A number literal: an optional minus sign, then the unsigned literal. *)
Definition parse_number (s : string) : option (number * string) :=
  let (neg, s1) := minus_sign s in parse_unsigned neg s1.

Definition expect (lit : string) (v : value) (s : string) : option (value * string) :=
  if String.prefix lit s
  then Some (v, String.substring (String.length lit) (String.length s - String.length lit) s)
  else None.

(** *** Values *)

Fixpoint parse_value (fuel : nat) (s : string) {struct fuel} : option (value * string) :=
  match fuel with
  | O => None
  | S fuel' =>
      match skip_ws s with
      | EmptyString => None
      | String c rest =>
          if Ascii.eqb c "{" then
            match skip_ws rest with
            | String "}" r => Some (VObj [], r)
            | _ => parse_members fuel' rest []
            end
          else if Ascii.eqb c "[" then
            match skip_ws rest with
            | String "]" r => Some (VArr [], r)
            | _ => parse_elements fuel' rest []
            end
          else if Ascii.eqb c dquote then
            match parse_string rest with
            | Some (str, r) => Some (VStr str, r)
            | None => None
            end
          else if Ascii.eqb c "t" then expect "true" (VBool true) (String c rest)
          else if Ascii.eqb c "f" then expect "false" (VBool false) (String c rest)
          else if Ascii.eqb c "n" then expect "null" VNull (String c rest)
          else
            match parse_number (String c rest) with
            | Some (n, r) => Some (VNum n, r)
            | None => None
            end
      end
  end
with parse_elements (fuel : nat) (s : string) (acc : list value) {struct fuel}
  : option (value * string) :=
  match fuel with
  | O => None
  | S fuel' =>
      match parse_value fuel' s with
      | Some (v, rest) =>
          match skip_ws rest with
          | String "," r => parse_elements fuel' r (acc ++ [v])%list
          | String "]" r => Some (VArr (acc ++ [v])%list, r)
          | _ => None
          end
      | None => None
      end
  end
with parse_members (fuel : nat) (s : string) (acc : obj) {struct fuel}
  : option (value * string) :=
  match fuel with
  | O => None
  | S fuel' =>
      match skip_ws s with
      | String c r =>
          if Ascii.eqb c dquote then
            match parse_string r with
            | Some (k, r1) =>
                match skip_ws r1 with
                | String ":" r2 =>
                    match parse_value fuel' r2 with
                    | Some (v, r3) =>
                        match skip_ws r3 with
                        | String "," r4 => parse_members fuel' r4 (obj_set k v acc)
                        | String "}" r4 => Some (VObj (obj_set k v acc), r4)
                        | _ => None
                        end
                    | None => None
                    end
                | _ => None
                end
            | None => None
            end
          else None
      | EmptyString => None
      end
  end.

(** [JSON.parse(text)]: the whole text is one value, or a SyntaxError.
    Two steps of the descent consume at least one character, so the fuel
    is never what makes a text fail. *)
Definition parse (text : string) : outcome value :=
  match parse_value (2 * String.length text + 2) text with
  | Some (v, rest) =>
      match skip_ws rest with
      | EmptyString => Ok v
      | _ => Throw SyntaxError
      end
  | None => Throw SyntaxError
  end.

Definition hex_digit (n : Z) : ascii :=
  if (n <? 10)%Z then byte (48 + n) else byte (87 + n).

Definition quote_char (c : ascii) : string :=
  let n := Z.of_nat (nat_of_ascii c) in
  if Ascii.eqb c dquote then String "\" (String dquote "")
  else if Ascii.eqb c "\" then "\\"
  else if (n =? 8)%Z then "\b"
  else if (n =? 12)%Z then "\f"
  else if (n =? 10)%Z then "\n"
  else if (n =? 13)%Z then "\r"
  else if (n =? 9)%Z then "\t"
  else if (n <? 32)%Z then
    "\u00" ++ String (hex_digit (n / 16)) (String (hex_digit (n mod 16)) "")
  else String c "".

(** A code unit from D800 to DFFF held in three bytes: 237, then 160 to
    191, then 128 to 191. *)
Definition surrogate_unit (c1 c2 c3 : ascii) : option Z :=
  let n1 := Z.of_nat (nat_of_ascii c1) in
  let n2 := Z.of_nat (nat_of_ascii c2) in
  let n3 := Z.of_nat (nat_of_ascii c3) in
  if ((n1 =? 237) && (160 <=? n2) && (n2 <=? 191) && (128 <=? n3) && (n3 <=? 191))%Z
  then Some (53248 + (n2 - 128) * 64 + (n3 - 128))%Z
  else None.

Definition is_high (u : Z) : bool := ((55296 <=? u) && (u <=? 56319))%Z.
Definition is_low (u : Z) : bool := ((56320 <=? u) && (u <=? 57343))%Z.

(** Backslash-u and the four lower-case hex digits of a code unit. *)
Definition escape_unit (u : Z) : string :=
  "\u" ++ String (hex_digit (u / 4096))
            (String (hex_digit ((u / 256) mod 16))
               (String (hex_digit ((u / 16) mod 16))
                  (String (hex_digit (u mod 16)) ""))).

(** QuoteJSONString: a surrogate code unit is copied when it forms a pair
    with its neighbour and escaped when it stands alone; every other
    character goes through [quote_char]. *)
Fixpoint quote_chars (s : string) : string :=
  match s with
  | EmptyString => ""
  | String c1 rest1 =>
      match rest1 with
      | String c2 (String c3 rest3) =>
          match surrogate_unit c1 c2 c3 with
          | Some u =>
              match rest3 with
              | String c4 (String c5 (String c6 rest6)) =>
                  match surrogate_unit c4 c5 c6 with
                  | Some u' =>
                      if is_high u && is_low u' then
                        String c1 (String c2 (String c3
                          (String c4 (String c5 (String c6 (quote_chars rest6))))))
                      else escape_unit u ++ quote_chars rest3
                  | None => escape_unit u ++ quote_chars rest3
                  end
              | _ => escape_unit u ++ quote_chars rest3
              end
          | None => quote_char c1 ++ quote_chars rest1
          end
      | _ => quote_char c1 ++ quote_chars rest1
      end
  end.

Definition quote (s : string) : string :=
  String dquote (quote_chars s ++ String dquote "").

Fixpoint join_comma (parts : list string) : string :=
  match parts with
  | [] => ""
  | [p] => p
  | p :: rest => p ++ "," ++ join_comma rest
  end.

(** [JSON.stringify(v)] for a value in element position: [undefined] and
    the non-finite numbers print as [null], a property whose value is
    [undefined] is left out.  (At top level [JSON.stringify(undefined)] is
    [undefined], not text; the service only serialises arrays.) *)
Fixpoint stringify (v : value) : string :=
  match v with
  | VUndefined | VNull => "null"
  | VBool b => if b then "true" else "false"
  | VNum n =>
      match n with
      | S754_zero _ | S754_finite _ _ _ => number_to_string n
      | _ => "null"
      end
  | VStr s => quote s
  | VArr xs => "[" ++ join_comma (List.map stringify xs) ++ "]"
  | VObj fs =>
      "{" ++ join_comma
               ((fix members (fs : list (string * value)) : list string :=
                   match fs with
                   | [] => []
                   | (k, v') :: fs' =>
                       match v' with
                       | VUndefined => members fs'
                       | _ => (quote k ++ ":" ++ stringify v') :: members fs'
                       end
                   end) fs) ++ "}"
  end.

End JSON.

(** ** The record model (the TypeBox declarations of [index.ts])

    [Type.Number()] and [Type.Integer()] are both numbers at run time. *)

Record ConfidenceScores := {
  cs_positive : number;
  cs_neutral : number;
  cs_negative : number;
}.

Record Sentence := {
  sn_sentiment : string;
  sn_confidenceScores : ConfidenceScores;
  sn_offset : number;
  sn_length : number;
  sn_text : string;
}.

Record Sentiment := {
  st_sentiment : string;
  st_confidenceScores : ConfidenceScores;
  st_sentences : list Sentence;
}.

Record TweetWithSentiment := {
  tw_id : string;
  tw_text : string;
  tw_sentiment : Sentiment;
}.

(** The JavaScript object of a record, properties in declaration order. *)
Definition scores_value (c : ConfidenceScores) : value :=
  VObj [("positive", VNum (cs_positive c));
        ("neutral", VNum (cs_neutral c));
        ("negative", VNum (cs_negative c))].

Definition sentence_value (s : Sentence) : value :=
  VObj [("sentiment", VStr (sn_sentiment s));
        ("confidenceScores", scores_value (sn_confidenceScores s));
        ("offset", VNum (sn_offset s));
        ("length", VNum (sn_length s));
        ("text", VStr (sn_text s))].

Definition sentiment_value (s : Sentiment) : value :=
  VObj [("sentiment", VStr (st_sentiment s));
        ("confidenceScores", scores_value (st_confidenceScores s));
        ("sentences", VArr (List.map sentence_value (st_sentences s)))].

Definition tweet_fields (t : TweetWithSentiment) : obj :=
  [("id", VStr (tw_id t));
   ("text", VStr (tw_text t));
   ("sentiment", sentiment_value (tw_sentiment t))].

Definition tweet_value (t : TweetWithSentiment) : value := VObj (tweet_fields t).

(** Reading a value against the schema: the declared properties must be
    present with the declared types; other properties are ignored. *)
Definition as_string (v : option value) : option string :=
  match v with Some (VStr s) => Some s | _ => None end.
Definition as_number (v : option value) : option number :=
  match v with Some (VNum n) => Some n | _ => None end.
Definition as_object (v : option value) : option obj :=
  match v with Some (VObj o) => Some o | _ => None end.
Definition as_array (v : option value) : option (list value) :=
  match v with Some (VArr xs) => Some xs | _ => None end.

Definition decode_scores (o : obj) : option ConfidenceScores :=
  p ← as_number (obj_lookup "positive" o);
  n ← as_number (obj_lookup "neutral" o);
  g ← as_number (obj_lookup "negative" o);
  Some {| cs_positive := p; cs_neutral := n; cs_negative := g |}.

Definition decode_sentence (v : value) : option Sentence :=
  o ← as_object (Some v);
  s ← as_string (obj_lookup "sentiment" o);
  c ← as_object (obj_lookup "confidenceScores" o) ≫= decode_scores;
  off ← as_number (obj_lookup "offset" o);
  len ← as_number (obj_lookup "length" o);
  txt ← as_string (obj_lookup "text" o);
  Some {| sn_sentiment := s; sn_confidenceScores := c;
          sn_offset := off; sn_length := len; sn_text := txt |}.

Definition decode_sentiment (o : obj) : option Sentiment :=
  s ← as_string (obj_lookup "sentiment" o);
  c ← as_object (obj_lookup "confidenceScores" o) ≫= decode_scores;
  xs ← as_array (obj_lookup "sentences" o);
  ss ← mapM decode_sentence xs;
  Some {| st_sentiment := s; st_confidenceScores := c; st_sentences := ss |}.

Definition decode_tweet (v : value) : option TweetWithSentiment :=
  o ← as_object (Some v);
  i ← as_string (obj_lookup "id" o);
  txt ← as_string (obj_lookup "text" o);
  s ← as_object (obj_lookup "sentiment" o) ≫= decode_sentiment;
  Some {| tw_id := i; tw_text := txt; tw_sentiment := s |}.

(** ** The collaborators: the Redis cache and the Cosmos container *)

Record cache_entry := CacheEntry {
  ce_value : string;
  ce_expiry : option N;   (* seconds, [EX] *)
}.

(** The two SQL texts of the service, by their clauses:
    [SELECT <projection> FROM tweets t WHERE t.type = <parameter>
     (ORDER BY t.id DESC)? (OFFSET <o> LIMIT <l>)?]. *)
Inductive projection :=
| SelectAll   (* SELECT * *)
| SelectId.   (* SELECT t.id *)

Record sql := {
  sql_select : projection;
  sql_where_type : string;
  sql_order_by_id_desc : bool;
  sql_offset_limit : option (nat * nat);
}.

Record querySpec := {
  query : sql;
  parameters : list (string * value);
}.

(** Equality of the query language on scalars; [undefined] equals nothing. *)
Definition sql_equal (a b : value) : bool :=
  match a, b with
  | VStr x, VStr y => String.eqb x y
  | VNum x, VNum y => SFeqb x y
  | VBool x, VBool y => Bool.eqb x y
  | VNull, VNull => true
  | _, _ => false
  end.

(** The [id] of a stored document is a string. *)
Definition id_key (d : obj) : string :=
  match obj_lookup "id" d with
  | Some (VStr s) => s
  | _ => ""
  end.

Definition matches_type (param : value) (d : obj) : bool :=
  sql_equal (default VUndefined (obj_lookup "type" d)) param.

Fixpoint insert_desc (d : obj) (sorted : list obj) : list obj :=
  match sorted with
  | [] => [d]
  | x :: rest =>
      if String.leb (id_key x) (id_key d) then d :: sorted
      else x :: insert_desc d rest
  end.

Definition order_by_id_desc (docs : list obj) : list obj :=
  fold_right insert_desc [] docs.

Definition project (p : projection) (d : obj) : value :=
  match p with
  | SelectAll => VObj d
  | SelectId =>
      match obj_lookup "id" d with
      | Some v => VObj [("id", v)]
      | None => VObj []
      end
  end.

(** [items.query(q).fetchAll()] on the documents of the container: the
    [resources] of the response. *)
Definition run_query (q : querySpec) (docs : list obj) : list value :=
  let param := default VUndefined (obj_lookup (sql_where_type (query q)) (parameters q)) in
  let matching := List.filter (matches_type param) docs in
  let ordered :=
    if sql_order_by_id_desc (query q) then order_by_id_desc matching else matching in
  let page :=
    match sql_offset_limit (query q) with
    | Some (o, l) => take l (drop o ordered)
    | None => ordered
    end in
  List.map (project (sql_select (query q))) page.

(** [items.upsert(doc)]: create, or replace the document of the same id. *)
Fixpoint upsert (doc : obj) (docs : list obj) : list obj :=
  match docs with
  | [] => [doc]
  | d :: rest =>
      if String.eqb (id_key d) (id_key doc) then doc :: rest
      else d :: upsert doc rest
  end.

(** ** Requests as computations on the world *)

Inductive io_call :=
| CacheGet (key : string)
| CacheSet (key text : string) (ex : N)
| ItemsQuery (q : querySpec)
| ItemsUpsert (doc : obj).

(** [w_fails w n]: the [n]-th call recorded in the log is rejected by the
    collaborator it goes to. *)
Record world := World {
  w_cache : gmap string cache_entry;
  w_store : list obj;
  w_log : list io_call;
  w_fails : nat -> bool;
}.

Definition M (A : Type) : Type := world -> outcome A * world.

#[global] Instance outcome_ret : MRet outcome := fun A a => Ok a.
#[global] Instance outcome_mbind : MBind outcome := fun A B k m => outcome_bind m k.

#[global] Instance M_ret : MRet M := fun A a w => (Ok a, w).
#[global] Instance M_bind : MBind M := fun A B k m w =>
  match m w with
  | (Ok a, w') => k a w'
  | (Throw e, w') => (Throw e, w')
  end.

Definition lift {A} (r : outcome A) : M A := fun w => (r, w).

Definition record_call (c : io_call) (w : world) : world :=
  {| w_cache := w_cache w; w_store := w_store w;
     w_log := (w_log w ++ [c])%list; w_fails := w_fails w |}.

Definition set_cache (c : gmap string cache_entry) (w : world) : world :=
  {| w_cache := c; w_store := w_store w; w_log := w_log w; w_fails := w_fails w |}.

Definition set_store (s : list obj) (w : world) : world :=
  {| w_cache := w_cache w; w_store := s; w_log := w_log w; w_fails := w_fails w |}.

Definition rejected (w : world) : bool := w_fails w (List.length (w_log w)).

(** [await client.get(key)] *)
Definition client_get (key : string) : M (option string) := fun w =>
  let w' := record_call (CacheGet key) w in
  if rejected w then (Throw RedisError, w')
  else (Ok (ce_value <$> w_cache w !! key), w').

(** [await client.set(key, text, { EX: ex })] *)
Definition client_set (key text : string) (ex : N) : M unit := fun w =>
  let w' := record_call (CacheSet key text ex) w in
  if rejected w then (Throw RedisError, w')
  else (Ok tt, set_cache (<[key := CacheEntry text (Some ex)]> (w_cache w)) w').

(** [await container.items.query(q).fetchAll()], the [resources] *)
Definition items_query (q : querySpec) : M (list value) := fun w =>
  let w' := record_call (ItemsQuery q) w in
  if rejected w then (Throw CosmosError, w')
  else (Ok (run_query q (w_store w)), w').

(** [await container.items.upsert(doc)] *)
Definition items_upsert (doc : obj) : M unit := fun w =>
  let w' := record_call (ItemsUpsert doc) w in
  if rejected w then (Throw CosmosError, w')
  else (Ok tt, set_store (upsert doc (w_store w)) w').

Fixpoint for_each {A} (xs : list A) (body : A -> M unit) : M unit :=
  match xs with
  | [] => mret tt
  | x :: rest => _ ← body x; for_each rest body
  end.

(** [reply.status(code).send(body)] *)
Record reply := Reply {
  status : nat;
  body : value;
}.

Definition send (code : nat) (b : value) : M reply := mret (Reply code b).

(** ** The handlers *)

(** The callback of the inner [sentences.map] of [GET /sentiment]. *)
Definition normalize_sentence (s : value) : outcome value :=
  sentiment ← js_get s p_sentiment;
  positive ← js_path s [p_confidenceScores; p_positive];
  neutral ← js_path s [p_confidenceScores; p_neutral];
  negative ← js_path s [p_confidenceScores; p_negative];
  offset ← js_get s p_offset;
  length ← js_get s p_length;
  text ← js_get s p_text;
  Ok (VObj [("sentiment", sentiment);
            ("confidenceScores",
              VObj [("positive", positive); ("neutral", neutral); ("negative", negative)]);
            ("offset", offset);
            ("length", length);
            ("text", text)]).

(** The callback of [response.resources.map] of [GET /sentiment]. *)
Definition normalize (tweetWithSentiment : value) : outcome value :=
  id ← js_get tweetWithSentiment p_id;
  text ← js_get tweetWithSentiment p_text;
  sentiment ← js_path tweetWithSentiment [p_sentiment; p_sentiment];
  positive ← js_path tweetWithSentiment [p_sentiment; p_confidenceScores; p_positive];
  neutral ← js_path tweetWithSentiment [p_sentiment; p_confidenceScores; p_neutral];
  negative ← js_path tweetWithSentiment [p_sentiment; p_confidenceScores; p_negative];
  sentences ← js_path tweetWithSentiment [p_sentiment; p_sentences];
  mapped ← js_map sentences normalize_sentence;
  Ok (VObj [("id", id);
            ("text", text);
            ("sentiment",
              VObj [("sentiment", sentiment);
                    ("confidenceScores",
                      VObj [("positive", positive); ("neutral", neutral);
                            ("negative", negative)]);
                    ("sentences", mapped)])]).

Definition tweet_type : value := VStr "tweet".

(** [SELECT * FROM tweets t WHERE t.type = @type] *)
Definition sentiment_query : querySpec :=
  {| query := {| sql_select := SelectAll; sql_where_type := "@type";
                 sql_order_by_id_desc := false; sql_offset_limit := None |};
     parameters := [("@type", tweet_type)] |}.

(** [SELECT t.id FROM tweets t WHERE t.type = @type
     ORDER BY t.id DESC OFFSET 0 LIMIT 1] *)
Definition last_known_query : querySpec :=
  {| query := {| sql_select := SelectId; sql_where_type := "@type";
                 sql_order_by_id_desc := true; sql_offset_limit := Some (0, 1)%nat |};
     parameters := [("@type", tweet_type)] |}.

(** [GET /sentiment] *)
Definition get_sentiment : M reply :=
  tweetsFromCache ← client_get "tweets";
  tweets ← match tweetsFromCache with
           | Some text =>
               if truthy tweetsFromCache then lift (JSON.parse text)
               else mret (VArr [])
           | None => mret (VArr [])
           end;
  len ← lift (js_get tweets p_length);
  tweets ←
    (if strict_equals_number len (number_of_Z 0) then
       resources ← items_query sentiment_query;
       if (0 <? List.length resources)%nat then
         mapped ← lift (outcome_map normalize resources);
         _ ← client_set "tweets" (JSON.stringify (VArr mapped)) (60 * 60 * 24)%N;
         mret (VArr mapped)
       else mret tweets
     else mret tweets);
  send 200 (VObj [("data", tweets)]).

(** [POST /sentiment]; [data] is [request.body.data], an array of objects
    by the body schema of the route. *)
Definition post_sentiment (data : list obj) : M reply :=
  _ ← (if (0 <? List.length data)%nat then
         for_each data (fun tweet => items_upsert (obj_set "type" tweet_type tweet))
       else mret tt);
  send 200 (VObj [("status", VStr "ok")]).

(** [GET /last-known-tweet] *)
Definition get_last_known_tweet : M reply :=
  resources ← items_query last_known_query;
  match resources with
  | first :: _ =>
      id ← lift (js_get first p_id);
      send 200 (VObj [("data", VObj [("id", id)])])
  | [] => send 404 (VObj [("data", VObj [("id", VStr "")])])
  end.

(** ** Vocabulary of the properties *)

(** The text the cache holds under the key of the tweet list. *)
Definition cached_text (w : world) : option string :=
  ce_value <$> w_cache w !! "tweets".

(** No usable cache entry: the key is absent, holds the empty text, or
    holds the text of an empty list. *)
Definition cache_miss (w : world) : bool :=
  match cached_text w with
  | None => true
  | Some text =>
      if String.eqb text "" then true
      else match JSON.parse text with
           | Ok (VArr []) => true
           | _ => false
           end
  end.

(** The next [n] calls to the collaborators are served. *)
Definition calls_succeed (w : world) (n : nat) : bool :=
  forallb (fun i => negb (w_fails w (List.length (w_log w) + i))) (seq 0 n).

Definition is_cache_call (c : io_call) : bool :=
  match c with
  | CacheGet _ | CacheSet _ _ _ => true
  | _ => false
  end.

Definition is_store_call (c : io_call) : bool :=
  match c with
  | ItemsQuery _ | ItemsUpsert _ => true
  | _ => false
  end.

(** The store documents with discriminator ["tweet"]. *)
Definition tweet_docs (docs : list obj) : list obj :=
  List.filter (matches_type tweet_type) docs.

(** The document [POST /sentiment] writes for a tweet of the request. *)
Definition tagged (tweet : obj) : obj := obj_set "type" tweet_type tweet.

(** The store after the documents [docs] were upserted one by one. *)
Definition upsert_all (docs : list obj) (store : list obj) : list obj :=
  fold_left (fun s d => upsert d s) docs store.

Definition is_zero (x : number) : bool :=
  match x with S754_zero _ => true | _ => false end.

(** ** Sample data *)

(** A schedule on which every call is served. *)
Definition calm : nat -> bool := fun _ => false.

Definition sample_scores : ConfidenceScores :=
  {| cs_positive := JSON.decimal_to_double false 98 (-2);
     cs_neutral := JSON.decimal_to_double false 1 (-2);
     cs_negative := JSON.decimal_to_double false 1 (-2) |}.

Definition sample_tweet : TweetWithSentiment :=
  {| tw_id := "100";
     tw_text := "good day";
     tw_sentiment :=
       {| st_sentiment := "positive";
          st_confidenceScores := sample_scores;
          st_sentences :=
            [{| sn_sentiment := "positive";
                sn_confidenceScores := sample_scores;
                sn_offset := number_of_Z 0;
                sn_length := number_of_Z 8;
                sn_text := "good day" |}] |} |}.

Definition older_tweet : TweetWithSentiment :=
  {| tw_id := "099";
     tw_text := "bad";
     tw_sentiment :=
       {| st_sentiment := "negative";
          st_confidenceScores := sample_scores;
          st_sentences := [] |} |}.

Definition sample_batch : list obj := [tweet_fields sample_tweet; tweet_fields older_tweet].

Definition sample_text : string := JSON.stringify (VArr [tweet_value sample_tweet]).

Definition world_with (cache : gmap string cache_entry) (docs : list obj)
    (fails : nat -> bool) : world :=
  {| w_cache := cache; w_store := docs; w_log := []; w_fails := fails |}.

Definition cached (text : string) : gmap string cache_entry :=
  {["tweets" := CacheEntry text (Some 86400%N)]}.

Definition empty_world : world := world_with ∅ [] calm.
Definition stored_world : world := world_with ∅ (List.map tagged sample_batch) calm.
Definition cached_world : world :=
  world_with (cached sample_text) (List.map tagged sample_batch) calm.
Definition malformed_world : world :=
  world_with (cached "{oops") (List.map tagged sample_batch) calm.
Definition number_world : world :=
  world_with (cached "7") (List.map tagged sample_batch) calm.
Definition null_world : world :=
  world_with (cached "null") (List.map tagged sample_batch) calm.

(** The third call of the request (the cache write of [GET /sentiment] on
    a miss) is rejected. *)
Definition write_back_fails : nat -> bool := fun n => Nat.eqb n 2.
Definition write_back_world : world :=
  world_with ∅ (List.map tagged sample_batch) write_back_fails.

(** The second upsert of a batch is rejected. *)
Definition second_upsert_fails : nat -> bool := fun n => Nat.eqb n 1.

(** ** Vocabulary of the further properties *)

(** [undefined] and [null]: the values a property read throws on. *)
Definition nullish (v : value) : bool :=
  match v with VUndefined | VNull => true | _ => false end.

(** [v.p] for a value that is neither [undefined] nor [null]. *)
Definition field (v : value) (p : prop) : value :=
  match js_get v p with Ok x => x | Throw _ => VUndefined end.

(** The reads of the two [map] callbacks of [GET /sentiment] that can
    throw: an element of [sentences] and its [confidenceScores]; the
    record, its [sentiment], the [confidenceScores] of that, and
    [sentences], which must have a callable [map]. *)
Definition normalizable_sentence (s : value) : bool :=
  negb (nullish s) && negb (nullish (field s p_confidenceScores)).

Definition sentences_readable (v : value) : bool :=
  match field (field v p_sentiment) p_sentences with
  | VArr xs => forallb normalizable_sentence xs
  | _ => false
  end.

Definition normalizable (v : value) : bool :=
  negb (nullish v)
  && negb (nullish (field v p_sentiment))
  && negb (nullish (field (field v p_sentiment) p_confidenceScores))
  && sentences_readable v.

(** The object literals the two callbacks build, from the reads of a
    value. *)
Definition picked_scores (c : value) : value :=
  VObj [("positive", field c p_positive);
        ("neutral", field c p_neutral);
        ("negative", field c p_negative)].

Definition picked_sentence (s : value) : value :=
  VObj [("sentiment", field s p_sentiment);
        ("confidenceScores", picked_scores (field s p_confidenceScores));
        ("offset", field s p_offset);
        ("length", field s p_length);
        ("text", field s p_text)].

Definition picked_tweet (v : value) : value :=
  VObj [("id", field v p_id);
        ("text", field v p_text);
        ("sentiment",
          VObj [("sentiment", field (field v p_sentiment) p_sentiment);
                ("confidenceScores",
                  picked_scores (field (field v p_sentiment) p_confidenceScores));
                ("sentences",
                  match field (field v p_sentiment) p_sentences with
                  | VArr xs => VArr (List.map picked_sentence xs)
                  | _ => VUndefined
                  end)])].

(** The rest of [GET /sentiment] once [tweets] holds the cached value or
    the initial empty array. *)
Definition after_cache (tweets : value) : M reply :=
  len ← lift (js_get tweets p_length);
  tweets ←
    (if strict_equals_number len (number_of_Z 0) then
       resources ← items_query sentiment_query;
       if (0 <? List.length resources)%nat then
         mapped ← lift (outcome_map normalize resources);
         _ ← client_set "tweets" (JSON.stringify (VArr mapped)) (60 * 60 * 24)%N;
         mret (VArr mapped)
       else mret tweets
     else mret tweets);
  send 200 (VObj [("data", tweets)]).

(** What can make [GET /sentiment] end in the error [e]: a rejected cache
    read or cache write; a cached text that is not JSON; a cached [null]
    or a tweet document that does not normalize; a rejected store query. *)
Definition failure_cause (w : world) (e : exn) : Prop :=
  match e with
  | RedisError =>
      rejected w = true \/ w_fails w (List.length (w_log w) + 2) = true
  | SyntaxError =>
      exists text, cached_text w = Some text /\ JSON.parse text = Throw SyntaxError
  | TypeError =>
      (exists text v,
         cached_text w = Some text /\ JSON.parse text = Ok v /\ nullish v = true) \/
      (exists d, In d (tweet_docs (w_store w)) /\ normalizable (VObj d) = false)
  | CosmosError => w_fails w (List.length (w_log w) + 1) = true
  end.

(** Two worlds that differ at most in the store documents whose
    discriminator is not ["tweet"]. *)
Definition same_tweets (w1 w2 : world) : Prop :=
  w_cache w1 = w_cache w2 /\
  w_log w1 = w_log w2 /\
  w_fails w1 = w_fails w2 /\
  tweet_docs (w_store w1) = tweet_docs (w_store w2).

(** A computation that cannot tell such worlds apart. *)
Definition respects_tweets {A} (m : M A) : Prop :=
  forall w1 w2, same_tweets w1 w2 ->
    fst (m w1) = fst (m w2) /\ same_tweets (snd (m w1)) (snd (m w2)).

(** ** The body schema of [POST /sentiment] ([postSentimentOpts])

    The schema object of the route, by the keywords it uses: [type],
    [required], [properties], [items].  [validate] is their meaning in
    JSON Schema: a required property is one that is present, a declared
    property is checked when present, undeclared properties are allowed,
    a number is a finite number.  A body that validates reaches the
    handler as it is. *)
Inductive schema :=
| SchString
| SchNumber
| SchObject (required : list string) (properties : list (string * schema))
| SchArray (items : schema).

Definition finite (n : number) : bool :=
  match n with
  | S754_zero _ | S754_finite _ _ _ => true
  | _ => false
  end.

Definition present (k : string) (o : obj) : bool :=
  match obj_lookup k o with
  | None | Some VUndefined => false
  | Some _ => true
  end.

Fixpoint validate (s : schema) (v : value) {struct s} : bool :=
  match s with
  | SchString => match v with VStr _ => true | _ => false end
  | SchNumber => match v with VNum n => finite n | _ => false end
  | SchObject required properties =>
      match v with
      | VObj o =>
          forallb (fun k => present k o) required
          && (fix each (ps : list (string * schema)) : bool :=
                match ps with
                | [] => true
                | (k, s') :: rest =>
                    (if present k o
                     then validate s' (default VUndefined (obj_lookup k o))
                     else true)
                    && each rest
                end) properties
      | _ => false
      end
  | SchArray items =>
      match v with
      | VArr xs => forallb (validate items) xs
      | _ => false
      end
  end.

Definition scores_schema : schema :=
  SchObject ["positive"; "neutral"; "negative"]
    [("positive", SchNumber); ("neutral", SchNumber); ("negative", SchNumber)].

Definition sentiment_schema : schema :=
  SchObject ["sentiment"; "confidenceScores"]
    [("sentiment", SchString); ("confidenceScores", scores_schema)].

Definition tweet_schema : schema :=
  SchObject ["id"; "text"; "sentiment"]
    [("id", SchString); ("text", SchString); ("sentiment", sentiment_schema)].

Definition body_schema : schema :=
  SchObject ["data"] [("data", SchArray tweet_schema)].

(** The request body [{ data: [...] }]. *)
Definition request_body (data : list value) : value := VObj [("data", VArr data)].

Definition finite_scores (c : ConfidenceScores) : bool :=
  finite (cs_positive c) && finite (cs_neutral c) && finite (cs_negative c).

(** ** More sample data *)

(** A tweet the body schema accepts, without [sentences]. *)
Definition bare_tweet : obj :=
  [("id", VStr "101");
   ("text", VStr "plain");
   ("sentiment",
     VObj [("sentiment", VStr "neutral");
           ("confidenceScores", scores_value sample_scores)])].

Definition bare_world : world := world_with ∅ [tagged bare_tweet] calm.

(** A document of another kind in the same container. *)
Definition other_document : obj := [("id", VStr "settings"); ("type", VStr "config")].

(** The JSON text of the empty string: two quote characters. *)
Definition quoted_empty : string := String JSON.dquote (String JSON.dquote EmptyString).
Definition quoted_empty_world : world := world_with (cached quoted_empty) [] calm.

(** The second call of a request (the store query of a read on a miss) is
    rejected. *)
Definition store_down_world : world :=
  world_with ∅ (List.map tagged sample_batch) second_upsert_fails.

(** ** Vocabulary of the JSON round trip *)

(** Structural equality of numbers. *)
Definition number_same (a b : number) : bool :=
  match a, b with
  | S754_zero s, S754_zero s' => Bool.eqb s s'
  | S754_infinity s, S754_infinity s' => Bool.eqb s s'
  | S754_nan, S754_nan => true
  | S754_finite s m e, S754_finite s' m' e' =>
      Bool.eqb s s' && Pos.eqb m m' && Z.eqb e e'
  | _, _ => false
  end.

(** A number whose decimal text reads back as the number itself. *)
Definition reads_back (n : number) : bool :=
  match JSON.parse_number (JSON.number_to_string n) with
  | Some (m, EmptyString) => number_same m n
  | _ => false
  end.

(** Property names that [JSON.parse] appends where they stand: none is an
    array index, none is repeated. *)
Fixpoint plain_keys (ks : list string) : bool :=
  match ks with
  | [] => true
  | k :: ks' =>
      match array_index k with
      | None => negb (existsb (String.eqb k) ks') && plain_keys ks'
      | Some _ => false
      end
  end.

(** The values that JSON text holds exactly: no [undefined], numbers that
    read back, objects with plain keys. *)
Fixpoint json_exact (v : value) : bool :=
  match v with
  | VUndefined => false
  | VNull | VBool _ | VStr _ => true
  | VNum n => reads_back n
  | VArr xs => forallb json_exact xs
  | VObj fs =>
      plain_keys (List.map fst fs) && forallb (fun kv => json_exact (snd kv)) fs
  end.

(** The number of values in a value, one more for each element and
    member. *)
Fixpoint value_size (v : value) : nat :=
  match v with
  | VArr xs => S (list_sum (List.map (fun x => S (value_size x)) xs))
  | VObj fs => S (list_sum (List.map (fun kv => S (value_size (snd kv))) fs))
  | _ => 1
  end.

(** The text of the members of an object none of which is [undefined]. *)
Definition member_texts (fs : list (string * value)) : list string :=
  List.map (fun kv => JSON.quote (fst kv) ++ ":" ++ JSON.stringify (snd kv)) fs.

(** The text starts with the escape of a low surrogate. *)
Definition low_escape_ahead (text : string) : bool :=
  match text with
  | String "\" (String "u" r) =>
      match JSON.hex4 r with
      | Some (lo, _) => JSON.is_low lo
      | None => false
      end
  | _ => false
  end.

(** The string starts with a low surrogate in three bytes. *)
Definition next_low (s : string) : bool :=
  match s with
  | String c4 (String c5 (String c6 _)) =>
      match JSON.surrogate_unit c4 c5 c6 with
      | Some u => JSON.is_low u
      | None => false
      end
  | _ => false
  end.

(** What can follow a value in JSON text written by [JSON.stringify]: the
    end, a comma or a closing bracket. *)
Definition delimiter (rest : string) : bool :=
  match rest with
  | EmptyString => true
  | String c _ => Ascii.eqb c "," || Ascii.eqb c "]" || Ascii.eqb c "}"
  end.

(** The round trip of a value, given as much fuel as it has values, for
    every amount of fuel below a bound. *)
Definition round_trip_below (bound : nat) : Prop :=
  forall g v rest,
    (g < bound)%nat -> (value_size v <= g)%nat ->
    json_exact v = true -> delimiter rest = true ->
    JSON.parse_value g (JSON.stringify v ++ rest) = Some (v, rest).

(** ** Vocabulary of the read on a miss *)

(** Every document is one the [map] callback returns on. *)
Definition readable_docs (docs : list obj) : bool :=
  forallb (fun d => normalizable (VObj d)) docs.

(** What the [map] callback returns for each document, in order. *)
Definition normalized_docs (docs : list obj) : list value :=
  List.map (fun d => picked_tweet (VObj d)) docs.

(** ** Sample data with characters that JSON text escapes *)

(** A text with a quote, a backslash, a line feed, a two-byte character
    and a high surrogate that stands alone. *)
Definition quoting_text : string :=
  "a" ++ String JSON.dquote
           ("b\c" ++ String "010"%char (JSON.utf8_encode 233 ++ JSON.utf8_encode 55357)).

Definition quoting_tweet : TweetWithSentiment :=
  {| tw_id := "102";
     tw_text := quoting_text;
     tw_sentiment :=
       {| st_sentiment := "neutral";
          st_confidenceScores := sample_scores;
          st_sentences :=
            [{| sn_sentiment := "neutral";
                sn_confidenceScores := sample_scores;
                sn_offset := number_of_Z 0;
                sn_length := number_of_Z 8;
                sn_text := quoting_text |}] |} |}.

Definition quoting_world : world :=
  world_with ∅ [tagged (tweet_fields quoting_tweet); tagged (tweet_fields older_tweet)] calm.

(** ** Sample batches *)

(** A second tweet with the id of [sample_tweet]. *)
Definition rewritten_tweet : TweetWithSentiment :=
  {| tw_id := "100";
     tw_text := "good day, edited";
     tw_sentiment :=
       {| st_sentiment := "neutral";
          st_confidenceScores := sample_scores;
          st_sentences := [] |} |}.

Definition mixed_batch : list obj := [tweet_fields sample_tweet; bare_tweet].

Definition duplicate_batch : list obj :=
  [tweet_fields sample_tweet; tweet_fields rewritten_tweet].

(** * Lemmas *)

(** ** Numbers: a positive integer does not round to zero *)

Lemma digits2_pos_size p : digits2_pos p = Pos.size p.
Proof. induction p; simpl; congruence. Qed.

Lemma digits2_bounds p : (2 ^ (Zpos (digits2_pos p) - 1) <= Zpos p)%Z.
Proof.
  rewrite digits2_pos_size.
  pose proof (Pos.size_le p) as H.
  assert (Hp : (Zpos (2 ^ Pos.size p) <= Zpos p~0)%Z) by (apply Pos2Z.pos_le_pos; exact H).
  rewrite Pos2Z.inj_pow in Hp.
  replace (Zpos (Pos.size p)) with (Z.succ (Zpos (Pos.size p) - 1))%Z in Hp by lia.
  rewrite Z.pow_succ_r in Hp by lia. lia.
Qed.

Lemma shr_1_m mrs : (0 <= shr_m mrs)%Z -> shr_m (shr_1 mrs) = (shr_m mrs / 2)%Z.
Proof.
  destruct mrs as [m r s]. simpl. intros Hm.
  destruct m as [|[p|p|]|p]; simpl; try lia; try reflexivity.
  - apply Z.div_unique with 1%Z; lia.
  - apply Z.div_unique with 0%Z; lia.
Qed.

Lemma iter_pos_nat {A} (f : A -> A) p x :
  SpecFloat.iter_pos f p x = Nat.iter (Pos.to_nat p) f x.
Proof.
  revert x. induction p; intros x.
  - change (SpecFloat.iter_pos f p~1 x)
      with (SpecFloat.iter_pos f p (SpecFloat.iter_pos f p (f x))).
    rewrite !IHp, Pos2Nat.inj_xI, Nat.iter_succ_r.
    replace (2 * Pos.to_nat p)%nat with (Pos.to_nat p + Pos.to_nat p)%nat by lia.
    apply eq_sym, Nat.iter_add.
  - change (SpecFloat.iter_pos f p~0 x)
      with (SpecFloat.iter_pos f p (SpecFloat.iter_pos f p x)).
    rewrite !IHp, Pos2Nat.inj_xO.
    replace (2 * Pos.to_nat p)%nat with (Pos.to_nat p + Pos.to_nat p)%nat by lia.
    apply eq_sym, Nat.iter_add.
  - reflexivity.
Qed.

Lemma shr_iter_m n mrs :
  (0 <= shr_m mrs)%Z -> shr_m (Nat.iter n shr_1 mrs) = (shr_m mrs / 2 ^ Z.of_nat n)%Z.
Proof.
  intros Hm. induction n.
  - simpl. rewrite Z.div_1_r. reflexivity.
  - rewrite Nat2Z.inj_succ, Z.pow_succ_r by lia. simpl.
    rewrite shr_1_m.
    + rewrite IHn. rewrite Z.div_div by lia. f_equal. lia.
    + rewrite IHn. apply Z.div_pos; lia.
Qed.

Lemma shr_m_nonneg mrs e n :
  (0 <= shr_m mrs)%Z ->
  shr_m (fst (shr mrs e n)) = (shr_m mrs / 2 ^ Z.max 0 n)%Z.
Proof.
  intros Hm. destruct n as [|p|p]; simpl.
  - rewrite Z.div_1_r. reflexivity.
  - rewrite iter_pos_nat, shr_iter_m by assumption.
    rewrite positive_nat_Z. reflexivity.
  - rewrite Z.div_1_r. reflexivity.
Qed.

Lemma shr_e_lower mrs e n : (e <= snd (shr mrs e n))%Z.
Proof. destruct n; simpl; lia. Qed.

Lemma shr_record_of_loc_m m l : shr_m (shr_record_of_loc m l) = m.
Proof. destruct l as [|[]]; reflexivity. Qed.

(** Rounding a positive mantissa at an exponent not below [emin] keeps it
    positive. *)
Lemma shr_fexp_positive m e l :
  (0 < m)%Z -> (-1074 <= e)%Z ->
  (0 < shr_m (fst (shr_fexp prec emax m e l)))%Z /\
  (-1074 <= snd (shr_fexp prec emax m e l))%Z.
Proof.
  intros Hm He. unfold shr_fexp. split.
  - rewrite shr_m_nonneg by (rewrite shr_record_of_loc_m; lia).
    rewrite shr_record_of_loc_m.
    destruct m as [|p|p]; try lia. simpl Zdigits2.
    pose proof (digits2_bounds p) as Hd.
    set (d := Zpos (digits2_pos p)) in *.
    assert (Hd1 : (1 <= d)%Z) by (unfold d; lia).
    unfold fexp, emin, prec, emax.
    apply Z.div_str_pos. split; [apply Z.pow_pos_nonneg; lia|].
    etransitivity; [|exact Hd].
    apply Z.pow_le_mono_r; lia.
  - pose proof (shr_e_lower (shr_record_of_loc m l) e
                  (fexp prec emax (Zdigits2 m + e) - e)). lia.
Qed.

Lemma round_nearest_even_positive m l : (0 < m)%Z -> (0 < round_nearest_even m l)%Z.
Proof. intros Hm. destruct l as [|[]]; simpl; try lia. destruct (Z.even m); lia. Qed.


Lemma binary_round_aux_nonzero s m e l :
  (0 < m)%Z -> (-1074 <= e)%Z -> is_zero (binary_round_aux prec emax s m e l) = false.
Proof.
  intros Hm He. unfold binary_round_aux.
  destruct (shr_fexp_positive m e l Hm He) as [H1 H2].
  destruct (shr_fexp prec emax m e l) as [mrs' e'] eqn:E1. simpl in H1, H2.
  pose proof (round_nearest_even_positive (shr_m mrs') (loc_of_shr_record mrs') H1) as Hr.
  destruct (shr_fexp_positive _ e' loc_Exact Hr H2) as [H3 _].
  destruct (shr_fexp prec emax _ e' loc_Exact) as [mrs'' e''] eqn:E2. simpl in H3.
  destruct (shr_m mrs'') as [|q|q]; try lia.
  destruct (e'' <=? emax - prec)%Z; reflexivity.
Qed.

Lemma shl_align_exponent m e e' : (snd (shl_align m e e') = Z.min e e')%Z.
Proof. unfold shl_align. destruct (e' - e)%Z eqn:E; simpl; lia. Qed.

Lemma number_of_Z_nonzero z : (0 < z)%Z -> is_zero (number_of_Z z) = false.
Proof.
  intros Hz. destruct z as [|p|p]; try lia.
  unfold number_of_Z, binary_normalize, binary_round.
  pose proof (shl_align_exponent p 0 (fexp prec emax (Zpos (digits2_pos p) + 0))) as Ha.
  destruct (shl_align p 0 _) as [mz ez]. simpl in Ha.
  apply binary_round_aux_nonzero; [lia|].
  subst ez. unfold fexp, emin, prec, emax. lia.
Qed.

Lemma strict_equals_zero_false x :
  is_zero x = false -> strict_equals_number (VNum x) (number_of_Z 0) = false.
Proof. destruct x as [| | |s m e]; simpl; try discriminate; try reflexivity; destruct s; reflexivity. Qed.

(** ** Stepping through a request *)

Lemma bind_ok {A B} (m : M A) (k : A -> M B) w a w' :
  m w = (Ok a, w') -> (m ≫= k) w = k a w'.
Proof. intros H. unfold mbind, M_bind. rewrite H. reflexivity. Qed.

Lemma bind_throw {A B} (m : M A) (k : A -> M B) w e w' :
  m w = (Throw e, w') -> (m ≫= k) w = (Throw e, w').
Proof. intros H. unfold mbind, M_bind. rewrite H. reflexivity. Qed.

Lemma calls_succeed_at w n i :
  calls_succeed w n = true -> i < n ->
  w_fails w (List.length (w_log w) + i) = false.
Proof.
  unfold calls_succeed. rewrite forallb_forall. intros H Hi.
  apply negb_true_iff, H, in_seq. lia.
Qed.

Lemma rejected_first w n : calls_succeed w (S n) = true -> rejected w = false.
Proof.
  intros H. unfold rejected.
  rewrite <- (Nat.add_0_r (List.length (w_log w))).
  apply (calls_succeed_at w (S n)); [exact H | lia].
Qed.

Lemma calls_succeed_next w c n :
  calls_succeed w (S n) = true -> calls_succeed (record_call c w) n = true.
Proof.
  intros H. unfold calls_succeed. apply forallb_forall. intros i Hi.
  apply in_seq in Hi. apply negb_true_iff. simpl.
  rewrite length_app. simpl.
  replace (List.length (w_log w) + 1 + i) with (List.length (w_log w) + S i) by lia.
  apply (calls_succeed_at w (S n)); [exact H | lia].
Qed.

Lemma cached_text_nonempty w text v :
  cached_text w = Some text -> JSON.parse text = Ok v -> truthy (Some text) = true.
Proof.
  intros _ Hp. unfold truthy. destruct (String.eqb_spec text ""); [|reflexivity].
  subst text. vm_compute in Hp. discriminate.
Qed.

(** The request up to the test [tweets.length === 0], when the cached text
    parses. *)
Lemma get_sentiment_hit w text v len :
  cached_text w = Some text ->
  JSON.parse text = Ok v ->
  js_get v p_length = Ok len ->
  strict_equals_number len (number_of_Z 0) = false ->
  rejected w = false ->
  get_sentiment w =
    (Ok (Reply 200 (VObj [("data", v)])), record_call (CacheGet "tweets") w).
Proof.
  intros Hc Hp Hl Hz Hr.
  pose proof (cached_text_nonempty w text v Hc Hp) as Ht.
  unfold get_sentiment, mbind, M_bind, client_get.
  unfold cached_text in Hc. rewrite Hr, Hc. cbv beta iota zeta.
  rewrite Ht. unfold lift. rewrite Hp. cbv beta iota zeta.
  rewrite Hl. cbv beta iota zeta. rewrite Hz. reflexivity.
Qed.

(** On a miss the request continues with the store, [tweets] still being
    the empty array. *)
Lemma get_sentiment_miss w :
  cache_miss w = true ->
  rejected w = false ->
  get_sentiment w =
    (tweets ←
       (resources ← items_query sentiment_query;
        if (0 <? List.length resources)%nat then
          mapped ← lift (outcome_map normalize resources);
          _ ← client_set "tweets" (JSON.stringify (VArr mapped)) (60 * 60 * 24)%N;
          mret (VArr mapped)
        else mret (VArr []));
     send 200 (VObj [("data", tweets)]))
    (record_call (CacheGet "tweets") w).
Proof.
  intros Hm Hr. unfold cache_miss in Hm.
  unfold get_sentiment at 1, mbind at 1, M_bind at 1, client_get.
  unfold cached_text in Hm. rewrite Hr. cbv beta iota zeta.
  destruct (ce_value <$> w_cache w !! "tweets") as [text|]; [|reflexivity].
  unfold truthy. destruct (String.eqb text ""); [reflexivity|].
  cbv beta iota zeta. simpl negb. cbv beta iota zeta.
  unfold mbind at 1, M_bind at 1, lift at 1.
  destruct (JSON.parse text) as [[| | | | |[|]|]|]; try discriminate.
  reflexivity.
Qed.

Lemma run_sentiment_query docs :
  run_query sentiment_query docs = List.map VObj (tweet_docs docs).
Proof. reflexivity. Qed.

Lemma outcome_map_Forall2 {A B} (f : A -> outcome B) xs ys :
  outcome_map f xs = Ok ys -> Forall2 (fun x y => f x = Ok y) xs ys.
Proof.
  revert ys. induction xs as [|x xs IH]; intros ys H; simpl in H.
  - injection H as <-. constructor.
  - destruct (f x) as [y|] eqn:Hx; simpl in H; [|discriminate].
    destruct (outcome_map f xs) as [ys'|]; simpl in H; [|discriminate].
    injection H as <-. constructor; [exact Hx | apply IH; reflexivity].
Qed.

Lemma nonempty_length {A} (xs : list A) : xs <> [] -> (0 <? List.length xs)%nat = true.
Proof. destruct xs; [congruence | reflexivity]. Qed.

(** The request on a miss with tweets in the store, up to the cache write. *)
Lemma get_sentiment_populate w mapped :
  cache_miss w = true ->
  calls_succeed w 2 = true ->
  tweet_docs (w_store w) <> [] ->
  outcome_map normalize (List.map VObj (tweet_docs (w_store w))) = Ok mapped ->
  get_sentiment w =
    (_ ← client_set "tweets" (JSON.stringify (VArr mapped)) (60 * 60 * 24)%N;
     send 200 (VObj [("data", VArr mapped)]))
    (record_call (ItemsQuery sentiment_query) (record_call (CacheGet "tweets") w)).
Proof.
  intros Hm Hs Hne Hn.
  rewrite get_sentiment_miss by eauto using rejected_first.
  pose proof (calls_succeed_next w (CacheGet "tweets") 1 Hs) as Hs1.
  pose proof (rejected_first _ _ Hs1) as Hr1.
  unfold mbind at 1 2, M_bind at 1 2, items_query.
  rewrite Hr1. cbv beta iota zeta.
  rewrite run_sentiment_query.
  change (w_store (record_call (CacheGet "tweets") w)) with (w_store w).
  rewrite length_map, nonempty_length by exact Hne.
  unfold mbind at 1, M_bind at 1, lift at 1. rewrite Hn. cbv beta iota zeta.
  unfold mbind, M_bind, mret, M_ret, send.
  destruct (client_set _ _ _ _) as [[[]|e] w']; reflexivity.
Qed.

Lemma rejected_after_two w c1 c2 :
  rejected (record_call c2 (record_call c1 w)) = w_fails w (List.length (w_log w) + 2).
Proof.
  unfold rejected. simpl. rewrite !length_app. simpl.
  f_equal. lia.
Qed.

Lemma array_length_nonzero (vs : list value) :
  vs <> [] ->
  exists len, js_get (VArr vs) p_length = Ok len /\
              strict_equals_number len (number_of_Z 0) = false.
Proof.
  intros Hne. eexists. split; [reflexivity|].
  apply strict_equals_zero_false, number_of_Z_nonzero.
  destruct vs; [congruence | simpl; lia].
Qed.

(** ** [POST /sentiment] *)

Lemma post_sentiment_for_each data :
  post_sentiment data =
    (_ ← for_each data (fun tweet => items_upsert (tagged tweet));
     send 200 (VObj [("status", VStr "ok")])).
Proof. destruct data; reflexivity. Qed.

Lemma world_eta w : World (w_cache w) (w_store w) (w_log w) (w_fails w) = w.
Proof. destruct w; reflexivity. Qed.

(** A batch whose upserts are all served. *)
Lemma for_each_upsert_ok data w :
  calls_succeed w (List.length data) = true ->
  for_each data (fun tweet => items_upsert (tagged tweet)) w =
    (Ok tt, World (w_cache w) (upsert_all (List.map tagged data) (w_store w))
                  (w_log w ++ List.map ItemsUpsert (List.map tagged data))%list
                  (w_fails w)).
Proof.
  revert w. induction data as [|d data IH]; intros w Hs.
  - simpl. rewrite app_nil_r, world_eta. reflexivity.
  - simpl for_each. unfold mbind, M_bind, items_upsert at 1.
    rewrite (rejected_first w (List.length data)) by exact Hs.
    cbv beta iota zeta. rewrite IH.
    + simpl. rewrite <- app_assoc. reflexivity.
    + apply (calls_succeed_next w (ItemsUpsert (tagged d))) in Hs. exact Hs.
Qed.

Lemma calls_succeed_weaken w n m :
  calls_succeed w n = true -> m <= n -> calls_succeed w m = true.
Proof.
  unfold calls_succeed. rewrite !forallb_forall. intros H Hm i Hi.
  apply H. rewrite in_seq in *. lia.
Qed.


Lemma items_upsert_unfold doc w :
  items_upsert doc w =
    if rejected w then (Throw CosmosError, record_call (ItemsUpsert doc) w)
    else (Ok tt, set_store (upsert doc (w_store w)) (record_call (ItemsUpsert doc) w)).
Proof. reflexivity. Qed.

(** The write path never goes to the cache, whatever the collaborators do. *)
Lemma for_each_upsert_frame data w :
  exists calls,
    w_log (snd (for_each data (fun tweet => items_upsert (tagged tweet)) w)) =
      (w_log w ++ calls)%list /\
    forallb is_store_call calls = true /\
    w_cache (snd (for_each data (fun tweet => items_upsert (tagged tweet)) w)) = w_cache w.
Proof.
  revert w. induction data as [|d data IH]; intros w.
  - exists []. simpl. rewrite app_nil_r. auto.
  - simpl for_each. unfold mbind, M_bind.
    rewrite (items_upsert_unfold (tagged d) w).
    destruct (rejected w).
    + exists [ItemsUpsert (tagged d)]. simpl. auto.
    + destruct (IH (set_store (upsert (tagged d) (w_store w))
                      (record_call (ItemsUpsert (tagged d)) w))) as (calls & Hl & Hc & Hk).
      exists (ItemsUpsert (tagged d) :: calls).
      rewrite Hl, Hk. simpl. rewrite <- app_assoc. auto.
Qed.

(** Upserts and membership *)

Lemma upsert_in d store : In d (upsert d store).
Proof.
  induction store as [|x store IH]; simpl.
  - auto.
  - destruct (String.eqb (id_key x) (id_key d)); simpl; auto.
Qed.

Lemma upsert_keeps d d' store :
  In d store -> id_key d' <> id_key d -> In d (upsert d' store).
Proof.
  intros Hin Hne. induction store as [|x store IH]; simpl.
  - destruct Hin.
  - destruct (String.eqb_spec (id_key x) (id_key d')) as [E|E].
    + destruct Hin as [->|Hin]; [congruence|]. right. exact Hin.
    + destruct Hin as [->|Hin]; [left; reflexivity|]. right. apply IH, Hin.
Qed.

Lemma upsert_all_keeps docs d store :
  In d store -> Forall (fun d' => id_key d' <> id_key d) docs -> In d (upsert_all docs store).
Proof.
  revert store. induction docs as [|x docs IH]; intros store Hin Hall; simpl.
  - exact Hin.
  - inversion Hall; subst. apply IH; [|assumption].
    apply upsert_keeps; assumption.
Qed.

(** A document of the batch that no later document of the batch replaces
    is in the store afterwards. *)
Lemma upsert_all_persisted docs i d store :
  docs !! i = Some d ->
  (forall j d', i < j -> docs !! j = Some d' -> id_key d' <> id_key d) ->
  In d (upsert_all docs store).
Proof.
  revert i store. induction docs as [|x docs IH]; intros i store Hi Hlater.
  - discriminate.
  - destruct i as [|i]; simpl in Hi.
    + injection Hi as ->. simpl. apply upsert_all_keeps; [apply upsert_in|].
      apply Forall_forall. intros d' Hd'.
      apply list_elem_of_lookup in Hd' as [j Hj].
      apply (Hlater (S j)); [lia | exact Hj].
    + simpl. apply (IH i); [exact Hi|].
      intros j d' Hj Hd'. apply (Hlater (S j)); [lia | exact Hd'].
Qed.

(** ** Objects and the record model *)

Lemma obj_lookup_replace_ne k k' v o :
  k <> k' -> obj_lookup k (obj_replace k' v o) = obj_lookup k o.
Proof.
  intros Hne. induction o as [|[k0 v0] o IH]; simpl; [reflexivity|].
  destruct (String.eqb_spec k' k0) as [->|E]; simpl.
  - destruct (String.eqb_spec k k0); [congruence | reflexivity].
  - rewrite IH. reflexivity.
Qed.

Lemma obj_lookup_replace_eq k v o :
  obj_has k o = true -> obj_lookup k (obj_replace k v o) = Some v.
Proof.
  unfold obj_has. induction o as [|[k0 v0] o IH]; simpl; [discriminate|].
  destruct (String.eqb_spec k k0) as [->|E]; simpl.
  - rewrite String.eqb_refl. reflexivity.
  - intros H. destruct (String.eqb_spec k k0); [congruence|]. apply IH, H.
Qed.

Lemma obj_lookup_app k o o' :
  obj_lookup k (o ++ o')%list =
    match obj_lookup k o with Some v => Some v | None => obj_lookup k o' end.
Proof.
  induction o as [|[k0 v0] o IH]; simpl; [reflexivity|].
  destruct (String.eqb k k0); [reflexivity | exact IH].
Qed.

Lemma tagged_unfold o :
  tagged o = if obj_has "type" o then obj_replace "type" tweet_type o
             else (o ++ [("type", tweet_type)])%list.
Proof. reflexivity. Qed.

Lemma lookup_tagged_type o : obj_lookup "type" (tagged o) = Some tweet_type.
Proof.
  rewrite tagged_unfold. destruct (obj_has "type" o) eqn:E.
  - apply obj_lookup_replace_eq, E.
  - rewrite obj_lookup_app. unfold obj_has in E.
    destruct (obj_lookup "type" o); [discriminate | reflexivity].
Qed.

Lemma lookup_tagged_other k o :
  k <> "type" -> obj_lookup k (tagged o) = obj_lookup k o.
Proof.
  intros Hne. rewrite tagged_unfold. destruct (obj_has "type" o).
  - apply obj_lookup_replace_ne, Hne.
  - rewrite obj_lookup_app. destruct (obj_lookup k o); [reflexivity|].
    simpl. destruct (String.eqb_spec k "type"); [contradiction | reflexivity].
Qed.

Lemma decode_tweet_tagged o : decode_tweet (VObj (tagged o)) = decode_tweet (VObj o).
Proof.
  unfold decode_tweet. simpl.
  rewrite !lookup_tagged_other by discriminate. reflexivity.
Qed.

Lemma id_key_tagged o : id_key (tagged o) = id_key o.
Proof. unfold id_key. rewrite lookup_tagged_other by discriminate. reflexivity. Qed.

Lemma matches_type_tagged o : matches_type tweet_type (tagged o) = true.
Proof. unfold matches_type. rewrite lookup_tagged_type. reflexivity. Qed.

Lemma decode_tweet_id o t : decode_tweet (VObj o) = Some t -> id_key o = tw_id t.
Proof.
  unfold decode_tweet, id_key. simpl. intros H.
  destruct (obj_lookup "id" o) as [[]|]; simpl in H; try discriminate.
  destruct (as_string (obj_lookup "text" o)); simpl in H; [|discriminate].
  destruct (as_object (obj_lookup "sentiment" o) ≫= decode_sentiment); simpl in H; [|discriminate].
  injection H as <-. reflexivity.
Qed.

Ltac case_lookups H :=
  repeat match type of H with
         | context [obj_lookup ?k ?o] =>
             let E := fresh "E" in
             destruct (obj_lookup k o) as [[]|] eqn:E; simpl in H; try discriminate H
         end.

Lemma decode_scores_lookups o c :
  decode_scores o = Some c ->
  obj_lookup "positive" o = Some (VNum (cs_positive c)) /\
  obj_lookup "neutral" o = Some (VNum (cs_neutral c)) /\
  obj_lookup "negative" o = Some (VNum (cs_negative c)).
Proof.
  unfold decode_scores. intros H. case_lookups H.
  injection H as <-. auto.
Qed.

Lemma normalize_sentence_decode v s :
  decode_sentence v = Some s -> normalize_sentence v = Ok (sentence_value s).
Proof.
  unfold decode_sentence. intros H. destruct v; simpl in H; try discriminate.
  destruct (obj_lookup "sentiment" fields) as [[]|] eqn:E1; simpl in H; try discriminate.
  destruct (obj_lookup "confidenceScores" fields) as [[]|] eqn:E2; simpl in H; try discriminate.
  destruct (decode_scores fields0) as [c|] eqn:Ec; simpl in H; [|discriminate].
  destruct (obj_lookup "offset" fields) as [[]|] eqn:E3; simpl in H; try discriminate.
  destruct (obj_lookup "length" fields) as [[]|] eqn:E4; simpl in H; try discriminate.
  destruct (obj_lookup "text" fields) as [[]|] eqn:E5; simpl in H; try discriminate.
  injection H as <-.
  destruct (decode_scores_lookups _ _ Ec) as (P1 & P2 & P3).
  unfold normalize_sentence, sentence_value, scores_value. simpl.
  rewrite E1, E2, E3, E4, E5. simpl. rewrite P1, P2, P3. reflexivity.
Qed.

Lemma normalize_sentences_decode xs ss :
  mapM decode_sentence xs = Some ss ->
  outcome_map normalize_sentence xs = Ok (List.map sentence_value ss).
Proof.
  revert ss. induction xs as [|x xs IH]; intros ss H; simpl in H.
  - injection H as <-. reflexivity.
  - destruct (decode_sentence x) as [s|] eqn:Ex; simpl in H; [|discriminate].
    destruct (mapM decode_sentence xs) as [ss'|]; simpl in H; [|discriminate].
    injection H as <-. simpl.
    rewrite (normalize_sentence_decode x s Ex). simpl.
    rewrite (IH ss' eq_refl). reflexivity.
Qed.

(** A value of the shape of the record model is normalized to the object
    of its record. *)
Lemma normalize_decode v t :
  decode_tweet v = Some t -> normalize v = Ok (tweet_value t).
Proof.
  unfold decode_tweet. intros H. destruct v; simpl in H; try discriminate.
  destruct (obj_lookup "id" fields) as [[]|] eqn:E1; simpl in H; try discriminate.
  destruct (obj_lookup "text" fields) as [[]|] eqn:E2; simpl in H; try discriminate.
  destruct (obj_lookup "sentiment" fields) as [[]|] eqn:E3; simpl in H; try discriminate.
  unfold decode_sentiment in H.
  destruct (obj_lookup "sentiment" fields0) as [[]|] eqn:E4; simpl in H; try discriminate.
  destruct (obj_lookup "confidenceScores" fields0) as [[]|] eqn:E5; simpl in H; try discriminate.
  destruct (decode_scores fields1) as [c|] eqn:Ec; simpl in H; [|discriminate].
  destruct (obj_lookup "sentences" fields0) as [[]|] eqn:E6; simpl in H; try discriminate.
  destruct (mapM decode_sentence items) as [ss|] eqn:Es; simpl in H; [|discriminate].
  injection H as <-.
  destruct (decode_scores_lookups _ _ Ec) as (P1 & P2 & P3).
  unfold normalize, tweet_value, tweet_fields, sentiment_value, scores_value. simpl.
  rewrite E1, E2, E3. simpl. rewrite E4, E5, E6. simpl. rewrite P1, P2, P3. simpl.
  rewrite (normalize_sentences_decode _ _ Es). reflexivity.
Qed.

Lemma decode_tweet_value t : decode_tweet (tweet_value t) = Some t.
Proof.
  destruct t as [i txt [s [p n g] ss]]. unfold decode_tweet. simpl.
  unfold decode_sentiment. simpl.
  assert (Hs : mapM decode_sentence (List.map sentence_value ss) = Some ss).
  { induction ss as [|[a [p' n' g'] b c d] ss IH]; [reflexivity|].
    simpl. rewrite IH. reflexivity. }
  rewrite Hs. reflexivity.
Qed.

Lemma tweet_value_no_type t : obj_lookup "type" (tweet_fields t) = None.
Proof. reflexivity. Qed.

(** ** The store after a batch *)

Lemma lookup_map {A B} (f : A -> B) (l : list A) i :
  List.map f l !! i = f <$> (l !! i).
Proof. revert i. induction l as [|x l IH]; intros [|i]; simpl; auto. Qed.

Lemma filter_upsert_Forall (P : obj -> Prop) f d store :
  Forall P (List.filter f store) -> (f d = true -> P d) ->
  Forall P (List.filter f (upsert d store)).
Proof.
  intros Hs Hd. induction store as [|x store IH]; simpl in *.
  - destruct (f d) eqn:E; constructor; auto.
  - destruct (String.eqb (id_key x) (id_key d)); simpl.
    + destruct (f x); [inversion Hs; subst|];
        (destruct (f d) eqn:E; [constructor; auto|]; assumption).
    + destruct (f x); [inversion Hs; subst; constructor; auto | auto].
Qed.

(** ** Ordering of ids *)

Lemma ascii_compare_N a b : Ascii.compare a b = N.compare (N_of_ascii a) (N_of_ascii b).
Proof. reflexivity. Qed.

Lemma string_compare_refl s : String.compare s s = Eq.
Proof.
  induction s as [|c s IH]; simpl; [reflexivity|].
  rewrite ascii_compare_N, N.compare_refl. exact IH.
Qed.

Lemma string_leb_refl s : String.leb s s = true.
Proof. unfold String.leb. rewrite string_compare_refl. reflexivity. Qed.

Lemma string_leb_trans a b c :
  String.leb a b = true -> String.leb b c = true -> String.leb a c = true.
Proof.
  unfold String.leb. revert b c.
  induction a as [|x a IH]; intros [|y b] [|z c]; simpl; try congruence.
  rewrite !ascii_compare_N.
  destruct (N.compare_spec (N_of_ascii x) (N_of_ascii y)) as [Exy|Exy|Exy];
    destruct (N.compare_spec (N_of_ascii y) (N_of_ascii z)) as [Eyz|Eyz|Eyz];
    try congruence.
  - rewrite Exy, Eyz, N.compare_refl. apply IH.
  - rewrite Exy. intros _ _. apply N.compare_lt_iff in Eyz. rewrite Eyz. reflexivity.
  - rewrite <- Eyz. intros _ _. apply N.compare_lt_iff in Exy. rewrite Exy. reflexivity.
  - intros _ _. assert (H : (N_of_ascii x < N_of_ascii z)%N) by lia.
    apply N.compare_lt_iff in H. rewrite H. reflexivity.
Qed.

Lemma insert_desc_In d x sorted : In d (insert_desc x sorted) <-> d = x \/ In d sorted.
Proof.
  induction sorted as [|h rest IH]; simpl.
  - intuition.
  - destruct (String.leb (id_key h) (id_key x)); simpl; [intuition|].
    rewrite IH. intuition.
Qed.

Lemma order_by_id_desc_In d docs : In d (order_by_id_desc docs) <-> In d docs.
Proof.
  induction docs as [|x docs IH]; simpl; [reflexivity|].
  rewrite insert_desc_In, IH. intuition.
Qed.

(** The first document in descending order of id is a greatest one. *)
Lemma order_by_id_desc_head docs d rest :
  order_by_id_desc docs = d :: rest ->
  In d docs /\ forall d', In d' docs -> String.leb (id_key d') (id_key d) = true.
Proof.
  revert d rest. induction docs as [|x docs IH]; intros d rest H; [discriminate|].
  simpl in H. destruct (order_by_id_desc docs) as [|h tl] eqn:E.
  - simpl in H. injection H as <- <-.
    assert (docs = []) as ->.
    { destruct docs as [|y docs']; [reflexivity|].
      assert (Hy : In y (order_by_id_desc (y :: docs'))) by (apply order_by_id_desc_In; left; reflexivity).
      rewrite E in Hy. destruct Hy. }
    split; [left; reflexivity|]. intros d' [<-|[]]. apply string_leb_refl.
  - destruct (IH h tl eq_refl) as [Hin Hmax]. simpl in H.
    destruct (String.leb (id_key h) (id_key x)) eqn:Hle; injection H as <- <-.
    + split; [left; reflexivity|]. intros d' [<-|Hd'].
      * apply string_leb_refl.
      * apply (string_leb_trans _ (id_key h)); [apply Hmax, Hd' | exact Hle].
    + split; [right; exact Hin|]. intros d' [<-|Hd'].
      * destruct (String.leb_total (id_key x) (id_key h)) as [H|H]; [exact H | congruence].
      * apply Hmax, Hd'.
Qed.

Lemma run_last_known_query docs :
  run_query last_known_query docs =
    List.map (project SelectId) (take 1 (order_by_id_desc (tweet_docs docs))).
Proof. reflexivity. Qed.

Lemma calls_succeed_all w n : (forall k, w_fails w k = false) -> calls_succeed w n = true.
Proof.
  intros H. unfold calls_succeed. apply forallb_forall. intros i _.
  rewrite H. reflexivity.
Qed.

(** The request on a miss with tweets in the store, when the cache write
    is served. *)
Lemma get_sentiment_populated w mapped :
  cache_miss w = true ->
  calls_succeed w 3 = true ->
  tweet_docs (w_store w) <> [] ->
  outcome_map normalize (List.map VObj (tweet_docs (w_store w))) = Ok mapped ->
  get_sentiment w =
    (Ok (Reply 200 (VObj [("data", VArr mapped)])),
     World (<["tweets" := CacheEntry (JSON.stringify (VArr mapped)) (Some 86400%N)]>
              (w_cache w))
           (w_store w)
           (w_log w ++ [CacheGet "tweets"; ItemsQuery sentiment_query;
                        CacheSet "tweets" (JSON.stringify (VArr mapped)) 86400])%list
           (w_fails w)).
Proof.
  intros Hm Hs Hne Hn.
  rewrite (get_sentiment_populate w mapped)
    by eauto using calls_succeed_weaken.
  pose proof (calls_succeed_at w 3 2 Hs ltac:(lia)) as H3.
  unfold mbind, M_bind, client_set.
  rewrite rejected_after_two, H3. cbv beta iota zeta.
  unfold send, mret, M_ret, set_cache. simpl. rewrite <- !app_assoc. reflexivity.
Qed.

(** ** JSON text: [JSON.parse] reads back what [JSON.stringify] wrote *)

Module JSON_facts.
Import JSON.

(** *** Strings *)

Lemma string_app_cons (x : ascii) (a b : string) : String x a ++ b = String x (a ++ b).
Proof. reflexivity. Qed.

Lemma string_app_nil_l (b : string) : "" ++ b = b.
Proof. reflexivity. Qed.

Lemma string_app_assoc (a b c : string) : (a ++ b) ++ c = a ++ (b ++ c).
Proof.
  induction a as [|x a IH]; [reflexivity|].
  rewrite !string_app_cons, IH. reflexivity.
Qed.

Lemma string_app_nil_r (a : string) : a ++ "" = a.
Proof.
  induction a as [|x a IH]; [reflexivity|].
  rewrite string_app_cons, IH. reflexivity.
Qed.

Lemma string_app_length (a b : string) :
  String.length (a ++ b) = (String.length a + String.length b)%nat.
Proof.
  induction a as [|x a IH]; [reflexivity|].
  rewrite string_app_cons. simpl. rewrite IH. reflexivity.
Qed.

Lemma substring_whole (s : string) : String.substring 0 (String.length s) s = s.
Proof. induction s as [|c s IH]; simpl; [reflexivity | rewrite IH; reflexivity]. Qed.

(** One step of [parse_chars] reads back what [quote_char] wrote. *)
Lemma parse_chars_quote_char c text acc f :
  parse_chars (S f) (quote_char c ++ text) acc = parse_chars f text (acc ++ String c "").
Proof.
  destruct c as [[] [] [] [] [] [] [] []]; reflexivity.
Qed.

Lemma quote_char_length c : (1 <= String.length (quote_char c))%nat.
Proof. destruct c as [[] [] [] [] [] [] [] []]; vm_compute; lia. Qed.

Lemma quote_chars_eq s :
  quote_chars s =
    match s with
    | EmptyString => ""
    | String c1 rest1 =>
        match rest1 with
        | String c2 (String c3 rest3) =>
            match surrogate_unit c1 c2 c3 with
            | Some u =>
                match rest3 with
                | String c4 (String c5 (String c6 rest6)) =>
                    match surrogate_unit c4 c5 c6 with
                    | Some u' =>
                        if is_high u && is_low u' then
                          String c1 (String c2 (String c3
                            (String c4 (String c5 (String c6 (quote_chars rest6))))))
                        else escape_unit u ++ quote_chars rest3
                    | None => escape_unit u ++ quote_chars rest3
                    end
                | _ => escape_unit u ++ quote_chars rest3
                end
            | None => quote_char c1 ++ quote_chars rest1
            end
        | _ => quote_char c1 ++ quote_chars rest1
        end
    end.
Proof. destruct s; reflexivity. Qed.

(** The cases of [quote_chars] on a non-empty string. *)
Lemma quote_chars_cases c1 rest1 :
  quote_chars (String c1 rest1) = quote_char c1 ++ quote_chars rest1 \/
  (exists c2 c3 rest3 u,
     rest1 = String c2 (String c3 rest3) /\
     surrogate_unit c1 c2 c3 = Some u /\
     (is_high u = true -> next_low rest3 = false) /\
     quote_chars (String c1 rest1) = escape_unit u ++ quote_chars rest3) \/
  (exists c2 c3 c4 c5 c6 rest6 u u',
     rest1 = String c2 (String c3 (String c4 (String c5 (String c6 rest6)))) /\
     surrogate_unit c1 c2 c3 = Some u /\
     surrogate_unit c4 c5 c6 = Some u' /\
     quote_chars (String c1 rest1) =
       String c1 (String c2 (String c3
         (String c4 (String c5 (String c6 (quote_chars rest6))))))).
Proof.
  rewrite (quote_chars_eq (String c1 rest1)).
  destruct rest1 as [|c2 [|c3 rest3]]; [left; reflexivity ..|].
  destruct (surrogate_unit c1 c2 c3) as [u|] eqn:Eu; [|left; reflexivity].
  right.
  destruct rest3 as [|c4 [|c5 [|c6 rest6]]].
  1-3: left; exists c2, c3; eexists; exists u;
    (split; [reflexivity|]); (split; [exact Eu|]);
    (split; [intros _; reflexivity | reflexivity]).
  destruct (surrogate_unit c4 c5 c6) as [u'|] eqn:Eu'.
  - destruct (is_high u && is_low u') eqn:Ep.
    + right. exists c2, c3, c4, c5, c6, rest6, u, u'.
      split; [reflexivity|]. split; [exact Eu|]. split; [exact Eu'|]. reflexivity.
    + left. exists c2, c3. eexists. exists u.
      split; [reflexivity|]. split; [exact Eu|]. split; [|reflexivity].
      intros Hh. simpl. rewrite Eu'. rewrite Hh in Ep. exact Ep.
  - left. exists c2, c3. eexists. exists u.
    split; [reflexivity|]. split; [exact Eu|]. split; [|reflexivity].
    intros _. simpl. rewrite Eu'. reflexivity.
Qed.

Lemma surrogate_unit_inv c1 c2 c3 u :
  surrogate_unit c1 c2 c3 = Some u ->
  (Z.of_nat (nat_of_ascii c1) = 237 /\
   160 <= Z.of_nat (nat_of_ascii c2) <= 191 /\
   128 <= Z.of_nat (nat_of_ascii c3) <= 191 /\
   u = 53248 + (Z.of_nat (nat_of_ascii c2) - 128) * 64
       + (Z.of_nat (nat_of_ascii c3) - 128))%Z.
Proof.
  unfold surrogate_unit.
  destruct (_ && _)%bool eqn:E; [|discriminate].
  intros H. injection H as <-.
  rewrite !andb_true_iff in E. destruct E as ((((E1 & E2) & E3) & E4) & E5).
  lia.
Qed.

Lemma byte_of_ascii c : byte (Z.of_nat (nat_of_ascii c)) = c.
Proof. unfold byte. rewrite Nat2Z.id. apply ascii_nat_embedding. Qed.

Lemma utf8_encode_surrogate c1 c2 c3 u :
  surrogate_unit c1 c2 c3 = Some u ->
  utf8_encode u = String c1 (String c2 (String c3 "")).
Proof.
  intros H. apply surrogate_unit_inv in H as (H1 & H2 & H3 & Hu).
  unfold utf8_encode.
  destruct (Z.ltb_spec u 128); [lia|].
  destruct (Z.ltb_spec u 2048); [lia|].
  destruct (Z.ltb_spec u 65536); [|lia].
  assert (E1 : (224 + u / 4096 = Z.of_nat (nat_of_ascii c1))%Z)
    by (Z.div_mod_to_equations; lia).
  assert (E2 : (128 + (u / 64) mod 64 = Z.of_nat (nat_of_ascii c2))%Z)
    by (Z.div_mod_to_equations; lia).
  assert (E3 : (128 + u mod 64 = Z.of_nat (nat_of_ascii c3))%Z)
    by (Z.div_mod_to_equations; lia).
  rewrite E1, E2, E3, !byte_of_ascii. reflexivity.
Qed.

Lemma hex_val_digit d : (0 <= d < 16)%Z -> hex_val (hex_digit d) = Some d.
Proof.
  intros H.
  assert (d = 0 \/ d = 1 \/ d = 2 \/ d = 3 \/ d = 4 \/ d = 5 \/ d = 6 \/ d = 7 \/
          d = 8 \/ d = 9 \/ d = 10 \/ d = 11 \/ d = 12 \/ d = 13 \/ d = 14 \/ d = 15)%Z
    as Hd by lia.
  repeat (destruct Hd as [-> | Hd]; [reflexivity|]). subst d. reflexivity.
Qed.

Lemma hex4_escape u text :
  (0 <= u < 65536)%Z ->
  escape_unit u ++ text =
    String "\" (String "u"
      (String (hex_digit (u / 4096))
         (String (hex_digit ((u / 256) mod 16))
            (String (hex_digit ((u / 16) mod 16))
               (String (hex_digit (u mod 16)) text))))) /\
  hex4 (String (hex_digit (u / 4096))
          (String (hex_digit ((u / 256) mod 16))
             (String (hex_digit ((u / 16) mod 16))
                (String (hex_digit (u mod 16)) text)))) = Some (u, text).
Proof.
  intros H. split; [reflexivity|].
  unfold hex4. rewrite !hex_val_digit by (Z.div_mod_to_equations; lia).
  f_equal. f_equal. Z.div_mod_to_equations. lia.
Qed.

(** After the escape of a surrogate that stands alone, [unicode_escape]
    gives back its three bytes. *)
Lemma unicode_escape_unit u text :
  (0 <= u < 65536)%Z ->
  (is_high u = true -> low_escape_ahead text = false) ->
  unicode_escape
    (String (hex_digit (u / 4096))
       (String (hex_digit ((u / 256) mod 16))
          (String (hex_digit ((u / 16) mod 16))
             (String (hex_digit (u mod 16)) text)))) = Some (utf8_encode u, text).
Proof.
  intros Hu Hlow. unfold unicode_escape.
  destruct (hex4_escape u text Hu) as [_ ->].
  fold (is_high u). destruct (is_high u); [|reflexivity].
  specialize (Hlow eq_refl). unfold low_escape_ahead in Hlow.
  destruct text as [|a text]; [reflexivity|].
  destruct (Ascii.eqb_spec a "\") as [->|Ha].
  - destruct text as [|b r]; [reflexivity|].
    destruct (Ascii.eqb_spec b "u") as [->|Hb].
    + destruct (hex4 r) as [[lo r'']|]; [|reflexivity].
      fold (is_low lo). rewrite Hlow. reflexivity.
    + destruct b as [[] [] [] [] [] [] [] []]; try reflexivity. congruence.
  - destruct a as [[] [] [] [] [] [] [] []]; try reflexivity. congruence.
Qed.

Lemma low_escape_ahead_quote_char c text :
  low_escape_ahead (quote_char c ++ text) = false.
Proof. destruct c as [[] [] [] [] [] [] [] []]; reflexivity. Qed.

Lemma low_escape_ahead_raw c text :
  Z.of_nat (nat_of_ascii c) = 237%Z -> low_escape_ahead (String c text) = false.
Proof.
  intros H. destruct c as [[] [] [] [] [] [] [] []]; try reflexivity; discriminate H.
Qed.

Lemma surrogate_unit_range c1 c2 c3 u :
  surrogate_unit c1 c2 c3 = Some u -> (55296 <= u < 57344)%Z.
Proof. intros H. apply surrogate_unit_inv in H. lia. Qed.

(** What [quote_chars] writes does not start with the escape of a low
    surrogate unless the string starts with one. *)
Lemma no_low_escape_ahead s rest :
  next_low s = false ->
  low_escape_ahead (quote_chars s ++ String dquote rest) = false.
Proof.
  intros H. destruct s as [|c1 rest1]; [reflexivity|].
  destruct (quote_chars_cases c1 rest1)
    as [->|[(c2 & c3 & rest3 & u & -> & Eu & _ & ->)
           |(c2 & c3 & c4 & c5 & c6 & rest6 & u & u' & -> & Eu & _ & ->)]].
  - rewrite string_app_assoc. apply low_escape_ahead_quote_char.
  - pose proof (surrogate_unit_range _ _ _ _ Eu) as Hr.
    rewrite string_app_assoc.
    destruct (hex4_escape u (quote_chars rest3 ++ String dquote rest)) as [-> Hh];
      [lia|].
    unfold low_escape_ahead. rewrite Hh.
    simpl in H. rewrite Eu in H. exact H.
  - apply low_escape_ahead_raw. apply surrogate_unit_inv in Eu. tauto.
Qed.

Lemma parse_chars_raw c text acc f :
  (128 <= Z.of_nat (nat_of_ascii c))%Z ->
  parse_chars (S f) (String c text) acc = parse_chars f text (acc ++ String c "").
Proof.
  intros H. rewrite <- parse_chars_quote_char.
  destruct c as [[] [] [] [] [] [] [] []]; try reflexivity;
    exfalso; vm_compute in H; apply H; reflexivity.
Qed.

Lemma escape_unit_length u : String.length (escape_unit u) = 6%nat.
Proof. reflexivity. Qed.

(** [parse_chars] reads back what [quote_chars] wrote, up to the closing
    quote. *)
Lemma parse_chars_quote_chars n :
  forall s, (String.length s <= n)%nat ->
  forall acc f rest,
    (String.length (quote_chars s) < f)%nat ->
    parse_chars f (quote_chars s ++ String dquote rest) acc = Some (acc ++ s, rest).
Proof.
  induction n as [n IH] using lt_wf_ind. intros s Hn acc f rest Hf.
  destruct s as [|c1 rest1].
  - destruct f as [|f]; [simpl in Hf; lia|].
    rewrite string_app_nil_r. reflexivity.
  - destruct (quote_chars_cases c1 rest1)
      as [E|[(c2 & c3 & rest3 & u & -> & Eu & Hlow & E)
            |(c2 & c3 & c4 & c5 & c6 & rest6 & u & u' & -> & Eu & Eu' & E)]];
      rewrite E in *; clear E.
    + pose proof (quote_char_length c1) as Hc.
      rewrite string_app_length in Hf.
      destruct f as [|f]; [lia|].
      rewrite string_app_assoc, parse_chars_quote_char.
      simpl in Hn.
      rewrite (IH (String.length rest1)) by lia.
      rewrite string_app_assoc. reflexivity.
    + pose proof (surrogate_unit_range _ _ _ _ Eu) as Hr.
      rewrite string_app_length, escape_unit_length in Hf.
      destruct f as [|f]; [lia|].
      rewrite string_app_assoc.
      destruct (hex4_escape u (quote_chars rest3 ++ String dquote rest)) as [-> _];
        [lia|].
      change (parse_chars (S f) (String "\" (String "u" ?t)) acc)
        with (match unicode_escape t with
              | Some (bytes, rest'') => parse_chars f rest'' (acc ++ bytes)
              | None => None
              end).
      rewrite unicode_escape_unit;
        [|lia|intros Hh; apply no_low_escape_ahead, Hlow, Hh].
      simpl in Hn.
      rewrite (IH (String.length rest3)) by lia.
      rewrite (utf8_encode_surrogate _ _ _ _ Eu), string_app_assoc. reflexivity.
    + apply surrogate_unit_inv in Eu as (E1 & E2 & E3 & _).
      apply surrogate_unit_inv in Eu' as (E4 & E5 & E6 & _).
      simpl in Hf, Hn.
      do 6 (destruct f as [|f]; [lia|]).
      rewrite !string_app_cons.
      rewrite !parse_chars_raw by lia.
      rewrite (IH (String.length rest6)) by lia.
      rewrite !string_app_assoc. reflexivity.
Qed.

Lemma parse_string_quote s rest :
  parse_string (quote_chars s ++ String dquote rest) = Some (s, rest).
Proof.
  unfold parse_string.
  rewrite (parse_chars_quote_chars (String.length s)); [reflexivity | lia |].
  rewrite string_app_length. simpl. lia.
Qed.

(** *** Numbers *)

Lemma delimiter_cases rest :
  delimiter rest = true ->
  rest = "" \/ exists r, rest = String "," r \/ rest = String "]" r \/ rest = String "}" r.
Proof.
  destruct rest as [|c r]; [auto|]. simpl. intros H. right. exists r.
  destruct (Ascii.eqb_spec c ",") as [->|_]; [auto|].
  destruct (Ascii.eqb_spec c "]") as [->|_]; [auto|].
  destruct (Ascii.eqb_spec c "}") as [->|_]; [auto|]. discriminate.
Qed.

Ltac delimiter_split H :=
  apply delimiter_cases in H as [->|[? [->|[->| ->]]]].

Lemma take_digits_app s rest d r :
  take_digits s = (d, r) ->
  delimiter rest = true ->
  take_digits (s ++ rest) = (d, r ++ rest).
Proof.
  intros H Hd. revert d r H. induction s as [|c s IH]; intros d r H.
  - simpl in H. injection H as <- <-. rewrite !string_app_nil_l.
    delimiter_split Hd; reflexivity.
  - rewrite string_app_cons. simpl in *.
    destruct (is_digit c).
    + destruct (take_digits s) as [d' r']. injection H as <- <-.
      rewrite (IH d' r' eq_refl). reflexivity.
    + injection H as <- <-. reflexivity.
Qed.

Lemma parse_fraction_app s rest fp s3 :
  parse_fraction s = Some (fp, s3) ->
  delimiter rest = true ->
  parse_fraction (s ++ rest) = Some (fp, s3 ++ rest).
Proof.
  intros H Hd. destruct s as [|c s].
  - simpl in H. injection H as <- <-. rewrite !string_app_nil_l.
    delimiter_split Hd; reflexivity.
  - rewrite string_app_cons.
    destruct (Ascii.eqb_spec c ".") as [->|Hc].
    + simpl in *. destruct (take_digits s) as [d r] eqn:E.
      rewrite (take_digits_app s rest d r E Hd).
      destruct (String.eqb d ""); [discriminate|].
      injection H as <- <-. reflexivity.
    + destruct c as [[] [] [] [] [] [] [] []];
        try (exfalso; apply Hc; reflexivity);
        simpl in *; injection H as <- <-; reflexivity.
Qed.

Lemma parse_exponent_app s rest e s4 :
  parse_exponent s = Some (e, s4) ->
  delimiter rest = true ->
  parse_exponent (s ++ rest) = Some (e, s4 ++ rest).
Proof.
  intros H Hd. destruct s as [|c s].
  - simpl in H. injection H as <- <-. rewrite !string_app_nil_l.
    delimiter_split Hd; reflexivity.
  - rewrite string_app_cons. unfold parse_exponent in *.
    destruct (Ascii.eqb c "e" || Ascii.eqb c "E").
    + assert (Hsign :
        (match s ++ rest with
         | String "-" r1 => (true, r1)
         | String "+" r1 => (false, r1)
         | _ => (false, s ++ rest)
         end) =
        (let (eneg, r') :=
           match s with
           | String "-" r1 => (true, r1)
           | String "+" r1 => (false, r1)
           | _ => (false, s)
           end in (eneg, r' ++ rest)) \/ s = "").
      { destruct s as [|x s]; [right; reflexivity|]. left.
        rewrite string_app_cons.
        destruct x as [[] [] [] [] [] [] [] []]; reflexivity. }
      destruct Hsign as [Hsign| ->].
      * rewrite Hsign.
        destruct (match s with
                  | String "-" r1 => (true, r1)
                  | String "+" r1 => (false, r1)
                  | _ => (false, s)
                  end) as [eneg r'].
        destruct (take_digits r') as [ep r4] eqn:E.
        rewrite (take_digits_app r' rest ep r4 E Hd).
        destruct (String.eqb ep ""); [discriminate|].
        injection H as <- <-. reflexivity.
      * simpl in H. discriminate.
    + injection H as <- <-. reflexivity.
Qed.

Lemma parse_unsigned_app neg s rest n r :
  parse_unsigned neg s = Some (n, r) ->
  delimiter rest = true ->
  parse_unsigned neg (s ++ rest) = Some (n, r ++ rest).
Proof.
  unfold parse_unsigned. intros H Hd.
  destruct (take_digits s) as [ip s2] eqn:E.
  rewrite (take_digits_app s rest ip s2 E Hd).
  destruct ip as [|c0 more]; [discriminate|].
  destruct (Ascii.eqb c0 "0" && negb (String.eqb more "")); [discriminate|].
  destruct (parse_fraction s2) as [[fp s3]|] eqn:Ef; [|discriminate].
  rewrite (parse_fraction_app s2 rest fp s3 Ef Hd).
  destruct (parse_exponent s3) as [[e s4]|] eqn:Ee; [|discriminate].
  rewrite (parse_exponent_app s3 rest e s4 Ee Hd).
  injection H as <- <-. reflexivity.
Qed.

Lemma minus_sign_app s rest :
  s <> "" ->
  minus_sign (s ++ rest) = (fst (minus_sign s), snd (minus_sign s) ++ rest).
Proof.
  destruct s as [|c s]; [congruence|]. intros _. rewrite string_app_cons.
  destruct c as [[] [] [] [] [] [] [] []]; reflexivity.
Qed.

Lemma parse_number_app s rest n r :
  parse_number s = Some (n, r) ->
  delimiter rest = true ->
  parse_number (s ++ rest) = Some (n, r ++ rest).
Proof.
  unfold parse_number. intros H Hd.
  assert (Hs : s <> "") by (intros ->; discriminate H).
  rewrite (minus_sign_app s rest Hs).
  destruct (minus_sign s) as [neg s1]. simpl.
  apply parse_unsigned_app; assumption.
Qed.

(** A number literal starts with a minus sign or a digit. *)
Lemma parse_number_first c s r :
  parse_number (String c s) = Some r -> c = "-"%char \/ is_digit c = true.
Proof.
  unfold parse_number. intros H.
  destruct (Ascii.eqb_spec c "-") as [->|Hc]; [auto|]. right.
  assert (Hm : minus_sign (String c s) = (false, String c s)).
  { destruct c as [[] [] [] [] [] [] [] []]; try reflexivity.
    exfalso. apply Hc. reflexivity. }
  rewrite Hm in H. unfold parse_unsigned in H. simpl in H.
  destruct (is_digit c); [reflexivity|]. discriminate.
Qed.

Lemma number_same_eq a b : number_same a b = true -> a = b.
Proof.
  destruct a as [s|s| |s m e], b as [s'|s'| |s' m' e']; simpl; try discriminate.
  - intros H. apply Bool.eqb_prop in H. congruence.
  - intros H. apply Bool.eqb_prop in H. congruence.
  - reflexivity.
  - rewrite !andb_true_iff. intros [[H1 H2] H3].
    apply Bool.eqb_prop in H1. apply Pos.eqb_eq in H2. apply Z.eqb_eq in H3.
    congruence.
Qed.

Lemma reads_back_parse n :
  reads_back n = true ->
  stringify (VNum n) = number_to_string n /\
  parse_number (number_to_string n) = Some (n, "").
Proof.
  unfold reads_back. intros H.
  destruct (parse_number (number_to_string n)) as [[m [|c r]]|] eqn:E;
    try discriminate.
  apply number_same_eq in H. subst m. split; [|reflexivity].
  destruct n as [s|s| |s m e]; try reflexivity.
  - destruct s; vm_compute in E; discriminate.
  - vm_compute in E. discriminate.
Qed.

(** *** Values *)

Lemma join_comma_cons a b l : join_comma (a :: b :: l) = a ++ "," ++ join_comma (b :: l).
Proof. reflexivity. Qed.

Lemma stringify_array xs :
  stringify (VArr xs) = "[" ++ join_comma (List.map stringify xs) ++ "]".
Proof. reflexivity. Qed.

Lemma json_exact_defined v : json_exact v = true -> v <> VUndefined.
Proof. intros H ->. discriminate. Qed.

Lemma stringify_object fs :
  forallb (fun kv => json_exact (snd kv)) fs = true ->
  stringify (VObj fs) = "{" ++ join_comma (member_texts fs) ++ "}".
Proof.
  intros H.
  change (stringify (VObj fs)) with
    ("{" ++ join_comma
       ((fix members (fs : list (string * value)) : list string :=
           match fs with
           | [] => []
           | (k, v') :: fs' =>
               match v' with
               | VUndefined => members fs'
               | _ => (quote k ++ ":" ++ stringify v') :: members fs'
               end
           end) fs) ++ "}").
  f_equal. f_equal. f_equal.
  induction fs as [|[k x] fs IH]; [reflexivity|].
  simpl in H. apply andb_true_iff in H as [Hx Hfs].
  rewrite (IH Hfs). destruct x; try reflexivity. discriminate.
Qed.

Lemma prefix_app lit rest : String.prefix lit (lit ++ rest) = true.
Proof.
  induction lit as [|c lit IH]; [destruct rest; reflexivity|].
  rewrite string_app_cons. simpl. destruct (ascii_dec c c); [exact IH | congruence].
Qed.

Lemma substring_app lit rest n :
  String.substring (String.length lit) n (lit ++ rest) = String.substring 0 n rest.
Proof.
  induction lit as [|c lit IH]; [reflexivity|].
  rewrite string_app_cons. simpl. exact IH.
Qed.

Lemma expect_app lit v rest : expect lit v (lit ++ rest) = Some (v, rest).
Proof.
  unfold expect. rewrite prefix_app, substring_app, string_app_length.
  replace (String.length lit + String.length rest - String.length lit)%nat
    with (String.length rest) by lia.
  rewrite substring_whole. reflexivity.
Qed.

Lemma parse_value_null f rest : parse_value (S f) ("null" ++ rest) = Some (VNull, rest).
Proof. rewrite <- (expect_app "null" VNull rest). reflexivity. Qed.

Lemma parse_value_bool f (b : bool) rest :
  parse_value (S f) ((if b then "true" else "false") ++ rest) = Some (VBool b, rest).
Proof.
  destruct b.
  - rewrite <- (expect_app "true" (VBool true) rest). reflexivity.
  - rewrite <- (expect_app "false" (VBool false) rest). reflexivity.
Qed.

Lemma parse_value_string f s rest :
  parse_value (S f) (quote s ++ rest) = Some (VStr s, rest).
Proof.
  unfold quote. rewrite string_app_cons, string_app_assoc, string_app_cons, string_app_nil_l.
  match goal with
  | |- parse_value (S f) (String dquote ?t) = _ =>
      change (parse_value (S f) (String dquote t))
        with (match parse_string t with
              | Some (str, r) => Some (VStr str, r)
              | None => None
              end)
  end.
  rewrite parse_string_quote. reflexivity.
Qed.

Lemma parse_value_number f c s :
  c = "-"%char \/ is_digit c = true ->
  parse_value (S f) (String c s) =
    match parse_number (String c s) with
    | Some (n, r) => Some (VNum n, r)
    | None => None
    end.
Proof.
  intros H.
  destruct c as [[] [] [] [] [] [] [] []];
    try reflexivity;
    exfalso; destruct H as [H|H]; discriminate H.
Qed.

Lemma parse_value_exact_number f n rest :
  reads_back n = true ->
  delimiter rest = true ->
  parse_value (S f) (stringify (VNum n) ++ rest) = Some (VNum n, rest).
Proof.
  intros H Hd. apply reads_back_parse in H as [-> H].
  destruct (number_to_string n) as [|c s] eqn:E; [discriminate H|].
  rewrite string_app_cons, parse_value_number
    by (eapply parse_number_first, H).
  rewrite <- string_app_cons.
  rewrite (parse_number_app _ rest n "" H Hd). reflexivity.
Qed.

(** The text of a value starts with a character that is not white space
    and closes nothing. *)
Lemma stringify_lead v rest :
  json_exact v = true ->
  exists c t,
    stringify v ++ rest = String c t /\ is_ws c = false /\
    c <> "]"%char /\ c <> "}"%char.
Proof.
  intros H. destruct v as [| |b|n|s|xs|fs]; try discriminate H.
  - exists "n"%char. eexists. split; [reflexivity|]. repeat split; discriminate.
  - destruct b; [exists "t"%char | exists "f"%char]; eexists;
      (split; [reflexivity|]); repeat split; discriminate.
  - simpl in H. apply reads_back_parse in H as [-> H].
    destruct (number_to_string n) as [|c s] eqn:E; [discriminate H|].
    exists c. eexists. split; [reflexivity|].
    apply parse_number_first in H.
    destruct c as [[] [] [] [] [] [] [] []];
      first [ split; [reflexivity | split; discriminate]
            | exfalso; destruct H as [H|H]; discriminate H ].
  - exists dquote. eexists. split; [reflexivity|]. repeat split; discriminate.
  - exists "["%char. eexists. split; [reflexivity|]. repeat split; discriminate.
  - exists "{"%char. eexists. split; [reflexivity|]. repeat split; discriminate.
Qed.

Lemma parse_value_array_empty f rest :
  parse_value (S f) (String "[" (String "]" rest)) = Some (VArr [], rest).
Proof. reflexivity. Qed.

Lemma parse_value_array_open f c t :
  is_ws c = false -> c <> "]"%char ->
  parse_value (S f) (String "[" (String c t)) = parse_elements f (String c t) [].
Proof.
  intros Hw Hc.
  destruct c as [[] [] [] [] [] [] [] []];
    try reflexivity; first [discriminate Hw | exfalso; apply Hc; reflexivity].
Qed.

Lemma parse_value_object_empty f rest :
  parse_value (S f) (String "{" (String "}" rest)) = Some (VObj [], rest).
Proof. reflexivity. Qed.

Lemma parse_value_object_open f t :
  parse_value (S f) (String "{" (String dquote t)) = parse_members f (String dquote t) [].
Proof. reflexivity. Qed.

Lemma parse_elements_eq g s acc :
  parse_elements (S g) s acc =
    match parse_value g s with
    | Some (v, rest) =>
        match skip_ws rest with
        | String "," r => parse_elements g r (acc ++ [v])%list
        | String "]" r => Some (VArr (acc ++ [v])%list, r)
        | _ => None
        end
    | None => None
    end.
Proof. reflexivity. Qed.

Lemma parse_members_eq g k t acc :
  parse_members (S g) (String dquote (quote_chars k ++ String dquote (String ":" t))) acc =
    match parse_value g t with
    | Some (v, r3) =>
        match skip_ws r3 with
        | String "," r4 => parse_members g r4 (obj_set k v acc)
        | String "}" r4 => Some (VObj (obj_set k v acc), r4)
        | _ => None
        end
    | None => None
    end.
Proof.
  change (parse_members (S g)
            (String dquote (quote_chars k ++ String dquote (String ":" t))) acc)
    with (match parse_string (quote_chars k ++ String dquote (String ":" t)) with
          | Some (k, r1) =>
              match skip_ws r1 with
              | String ":" r2 =>
                  match parse_value g r2 with
                  | Some (v, r3) =>
                      match skip_ws r3 with
                      | String "," r4 => parse_members g r4 (obj_set k v acc)
                      | String "}" r4 => Some (VObj (obj_set k v acc), r4)
                      | _ => None
                      end
                  | None => None
                  end
              | _ => None
              end
          | None => None
          end).
  rewrite parse_string_quote. reflexivity.
Qed.

Lemma obj_set_fresh k v acc :
  array_index k = None -> obj_has k acc = false ->
  obj_set k v acc = (acc ++ [(k, v)])%list.
Proof. intros Hi Hh. unfold obj_set. rewrite Hh, Hi. reflexivity. Qed.

Lemma obj_has_snoc k k' v acc :
  obj_has k' acc = false -> String.eqb k k' = false ->
  obj_has k' (acc ++ [(k, v)])%list = false.
Proof.
  unfold obj_has. intros Ha Hk. rewrite obj_lookup_app.
  destruct (obj_lookup k' acc); [discriminate|]. simpl.
  rewrite String.eqb_sym, Hk. reflexivity.
Qed.

Lemma parse_elements_exact bound :
  round_trip_below bound ->
  forall xs acc g rest,
    (g < bound)%nat -> xs <> [] ->
    (list_sum (List.map (fun x => S (value_size x)) xs) <= g)%nat ->
    forallb json_exact xs = true ->
    parse_elements g (join_comma (List.map stringify xs) ++ String "]" rest) acc =
      Some (VArr (acc ++ xs)%list, rest).
Proof.
  intros IH xs. induction xs as [|x xs IHxs]; intros acc g rest Hg Hne Hs He;
    [congruence|].
  simpl in Hs, He. apply andb_true_iff in He as [Hx He].
  destruct g as [|g]; [lia|]. rewrite parse_elements_eq.
  destruct xs as [|y xs].
  - change (join_comma (List.map stringify [x])) with (stringify x).
    rewrite (IH g x) by (try reflexivity; try assumption; lia).
    reflexivity.
  - change (List.map stringify (x :: y :: xs))
      with (stringify x :: stringify y :: List.map stringify xs).
    rewrite join_comma_cons, !string_app_assoc.
    rewrite (IH g x) by (try reflexivity; try assumption; lia).
    change (skip_ws ("," ++ ?t)) with ("," ++ t).
    rewrite string_app_cons, string_app_nil_l.
    change (List.map stringify (y :: xs)) with (stringify y :: List.map stringify xs) in IHxs.
    simpl skip_ws. cbv iota beta.
    rewrite (IHxs (acc ++ [x])%list g rest); [| lia | congruence | lia | exact He].
    rewrite <- app_assoc. reflexivity.
Qed.

Lemma member_texts_cons k x fs :
  member_texts ((k, x) :: fs) = (quote k ++ ":" ++ stringify x) :: member_texts fs.
Proof. reflexivity. Qed.

Lemma member_text_app k x rest :
  (quote k ++ ":" ++ stringify x) ++ rest =
    String dquote (quote_chars k ++ String dquote (String ":" (stringify x ++ rest))).
Proof.
  unfold quote. rewrite !string_app_cons, !string_app_assoc.
  rewrite !string_app_cons, !string_app_nil_l. reflexivity.
Qed.

Lemma existsb_eqb_false k ks k' :
  existsb (String.eqb k) ks = false -> In k' ks -> String.eqb k k' = false.
Proof.
  induction ks as [|k0 ks IH]; intros H Hin; [destruct Hin|].
  simpl in H. apply orb_false_iff in H as [H0 H].
  destruct Hin as [->|Hin]; [exact H0 | exact (IH H Hin)].
Qed.

Lemma skip_ws_lead c t : is_ws c = false -> skip_ws (String c t) = String c t.
Proof. intros H. simpl. rewrite H. reflexivity. Qed.

Lemma parse_members_exact bound :
  round_trip_below bound ->
  forall fs acc g rest,
    (g < bound)%nat -> fs <> [] ->
    (list_sum (List.map (fun kv => S (value_size (snd kv))) fs) <= g)%nat ->
    plain_keys (List.map fst fs) = true ->
    forallb (fun kv => json_exact (snd kv)) fs = true ->
    (forall k, In k (List.map fst fs) -> obj_has k acc = false) ->
    parse_members g (join_comma (member_texts fs) ++ String "}" rest) acc =
      Some (VObj (acc ++ fs)%list, rest).
Proof.
  intros IH fs. induction fs as [|[k x] fs IHfs];
    intros acc g rest Hg Hne Hs Hk He Hacc; [congruence|].
  simpl in Hs, He, Hk. apply andb_true_iff in He as [Hx He].
  destruct (array_index k) eqn:Ei; [discriminate|].
  apply andb_true_iff in Hk as [Hfresh Hk]. apply negb_true_iff in Hfresh.
  destruct g as [|g]; [lia|].
  assert (Hset : obj_set k x acc = (acc ++ [(k, x)])%list).
  { apply obj_set_fresh; [exact Ei|]. apply Hacc. left. reflexivity. }
  rewrite member_texts_cons.
  destruct fs as [|[k' y] fs].
  - change (join_comma ((quote k ++ ":" ++ stringify x) :: member_texts []))
      with (quote k ++ ":" ++ stringify x).
    rewrite member_text_app, parse_members_eq.
    rewrite (IH g x) by (try reflexivity; try assumption; lia).
    rewrite skip_ws_lead by reflexivity. cbv iota beta. rewrite Hset. reflexivity.
  - rewrite member_texts_cons, join_comma_cons, <- member_texts_cons.
    rewrite string_app_assoc, member_text_app, parse_members_eq.
    rewrite string_app_assoc.
    rewrite (IH g x) by (try reflexivity; try assumption; lia).
    rewrite string_app_cons, string_app_nil_l.
    rewrite skip_ws_lead by reflexivity. cbv iota beta. rewrite Hset.
    rewrite (IHfs (acc ++ [(k, x)])%list g rest);
      [| lia | congruence | lia | exact Hk | exact He |].
    + rewrite <- app_assoc. reflexivity.
    + intros k0 Hk0. apply obj_has_snoc.
      * apply Hacc. right. exact Hk0.
      * eapply existsb_eqb_false; [exact Hfresh | exact Hk0].
Qed.

Lemma join_comma_head a l rest : exists tail, join_comma (a :: l) ++ rest = a ++ tail.
Proof.
  destruct l as [|b l]; [exists rest; reflexivity|].
  eexists. rewrite join_comma_cons, string_app_assoc. reflexivity.
Qed.

(** [parse_value] reads back what [stringify] wrote, given fuel for the
    values in it. *)
Lemma parse_value_stringify f :
  forall v rest,
    (value_size v <= f)%nat -> json_exact v = true -> delimiter rest = true ->
    parse_value f (stringify v ++ rest) = Some (v, rest).
Proof.
  induction f as [f IH] using lt_wf_ind. intros v rest Hs He Hd.
  assert (Hbelow : round_trip_below f).
  { intros g v' rest' Hg Hs' He' Hd'. apply (IH g Hg); assumption. }
  destruct f as [|f]; [destruct v; simpl in Hs; lia|].
  destruct v as [| |b|n|s|xs|fs].
  - discriminate He.
  - apply parse_value_null.
  - apply parse_value_bool.
  - apply parse_value_exact_number; assumption.
  - apply parse_value_string.
  - rewrite stringify_array, !string_app_assoc, !string_app_cons, !string_app_nil_l.
    destruct xs as [|x xs]; [apply parse_value_array_empty|].
    simpl in Hs. pose proof He as Hex. simpl in Hex.
    apply andb_true_iff in Hex as [Hx _].
    destruct (join_comma_head (stringify x) (List.map stringify xs) (String "]" rest))
      as [tail Et].
    destruct (stringify_lead x tail Hx) as (c & t & Ec & Hw & Hc & _).
    assert (E : join_comma (List.map stringify (x :: xs)) ++ String "]" rest = String c t).
    { change (List.map stringify (x :: xs)) with (stringify x :: List.map stringify xs).
      rewrite Et. exact Ec. }
    rewrite E, parse_value_array_open by assumption. rewrite <- E.
    apply (parse_elements_exact (S f) Hbelow (x :: xs) [] f rest);
      [lia | congruence | simpl; lia | exact He].
  - simpl in He. apply andb_true_iff in He as [Hk He].
    rewrite (stringify_object fs He).
    rewrite !string_app_assoc, !string_app_cons, !string_app_nil_l.
    destruct fs as [|[k x] fs]; [apply parse_value_object_empty|].
    simpl in Hs.
    destruct (join_comma_head (quote k ++ ":" ++ stringify x) (member_texts fs)
                (String "}" rest)) as [tail Et].
    assert (E : exists t,
               join_comma (member_texts ((k, x) :: fs)) ++ String "}" rest
               = String dquote t).
    { rewrite member_texts_cons, Et, member_text_app. eexists. reflexivity. }
    destruct E as [t E].
    rewrite E, parse_value_object_open. rewrite <- E.
    apply (parse_members_exact (S f) Hbelow ((k, x) :: fs) [] f rest);
      [lia | congruence | simpl; lia | exact Hk | exact He | reflexivity].
Qed.

(** *** Fuel *)

Lemma list_sum_member {A} (w : A -> nat) x xs :
  In x xs -> (w x <= list_sum (List.map w xs))%nat.
Proof.
  induction xs as [|y xs IH]; intros H; [destruct H|].
  simpl. destruct H as [->|H]; [lia | specialize (IH H); lia].
Qed.

Lemma join_comma_length {A} (w : A -> nat) (t : A -> string) xs :
  (forall x, In x xs -> (w x <= String.length (t x))%nat) ->
  (list_sum (List.map (fun x => S (w x)) xs)
   <= String.length (join_comma (List.map t xs)) + 1)%nat.
Proof.
  induction xs as [|x xs IH]; intros H; [simpl; lia|].
  pose proof (H x (or_introl eq_refl)) as Hx.
  specialize (IH (fun y Hy => H y (or_intror Hy))).
  destruct xs as [|y xs].
  - simpl. lia.
  - change (List.map t (x :: y :: xs)) with (t x :: t y :: List.map t xs).
    rewrite join_comma_cons, !string_app_length.
    change (List.map t (y :: xs)) with (t y :: List.map t xs) in IH.
    change (list_sum (List.map (fun x => S (w x)) (x :: y :: xs)))
      with (S (w x) + list_sum (List.map (fun x => S (w x)) (y :: xs)))%nat.
    change (String.length ",") with 1%nat. lia.
Qed.

(** The text of a value has at least one character for each value in
    it. *)
Lemma size_le_length n :
  forall v, (value_size v <= n)%nat -> json_exact v = true ->
            (value_size v <= String.length (stringify v))%nat.
Proof.
  induction n as [n IH] using lt_wf_ind. intros v Hn He.
  destruct v as [| |b|m|s|xs|fs].
  - discriminate He.
  - simpl. lia.
  - destruct b; simpl; lia.
  - simpl in He. apply reads_back_parse in He as [-> He].
    destruct (number_to_string m); [discriminate He | simpl; lia].
  - simpl. rewrite string_app_length. simpl. lia.
  - rewrite stringify_array, !string_app_length. simpl in *.
    pose proof (join_comma_length value_size stringify xs) as Hj.
    enough (forall x, In x xs -> (value_size x <= String.length (stringify x))%nat)
      by (specialize (Hj H); lia).
    intros x Hx. rewrite forallb_forall in He.
    pose proof (list_sum_member (fun x => S (value_size x)) x xs Hx) as Hm. simpl in Hm.
    apply (IH (value_size x)); [lia | lia | apply He, Hx].
  - simpl in He. apply andb_true_iff in He as [_ He].
    rewrite (stringify_object fs He), !string_app_length. simpl in *.
    pose proof (join_comma_length (fun kv => value_size (snd kv))
                  (fun kv => quote (fst kv) ++ ":" ++ stringify (snd kv)) fs) as Hj.
    fold (member_texts fs) in Hj.
    enough (forall kv, In kv fs ->
              (value_size (snd kv)
               <= String.length (quote (fst kv) ++ ":" ++ stringify (snd kv)))%nat)
      by (specialize (Hj H); lia).
    intros kv Hkv. rewrite forallb_forall in He.
    pose proof (list_sum_member (fun kv => S (value_size (snd kv))) kv fs Hkv) as Hm.
    simpl in Hm. rewrite !string_app_length.
    specialize (IH (value_size (snd kv)) ltac:(lia) (snd kv) ltac:(lia) (He kv Hkv)). lia.
Qed.

(** An exact value reads back from its JSON text. *)
Lemma parse_stringify v : json_exact v = true -> parse (stringify v) = Ok v.
Proof.
  intros He. unfold parse.
  pose proof (size_le_length (value_size v) v (le_n _) He) as Hs.
  pose proof (parse_value_stringify (2 * String.length (stringify v) + 2) v ""
                ltac:(lia) He eq_refl) as H.
  rewrite string_app_nil_r in H. rewrite H. reflexivity.
Qed.

End JSON_facts.

(** ** The normalization callbacks, by cases *)

Lemma js_get_field v p :
  js_get v p = if nullish v then Throw TypeError else Ok (field v p).
Proof. unfold field. destruct v; try reflexivity; destruct p; reflexivity. Qed.

Lemma normalize_sentence_cases s :
  normalize_sentence s =
    if normalizable_sentence s then Ok (picked_sentence s) else Throw TypeError.
Proof.
  unfold normalize_sentence, normalizable_sentence, picked_sentence, picked_scores.
  unfold js_path, mbind, outcome_mbind, outcome_bind.
  rewrite !js_get_field.
  destruct (nullish s); [reflexivity|]. simpl.
  rewrite !js_get_field.
  destruct (nullish (field s p_confidenceScores)); reflexivity.
Qed.

Lemma normalize_sentences_cases xs :
  outcome_map normalize_sentence xs =
    if forallb normalizable_sentence xs then Ok (List.map picked_sentence xs)
    else Throw TypeError.
Proof.
  induction xs as [|x xs IH]; [reflexivity|].
  simpl. rewrite normalize_sentence_cases, IH.
  destruct (normalizable_sentence x); [|reflexivity].
  destruct (forallb normalizable_sentence xs); reflexivity.
Qed.

Lemma normalize_cases v :
  normalize v = if normalizable v then Ok (picked_tweet v) else Throw TypeError.
Proof.
  unfold normalize, normalizable, sentences_readable, picked_tweet, picked_scores.
  unfold js_path, mbind, outcome_mbind, outcome_bind.
  rewrite !js_get_field.
  destruct (nullish v); [reflexivity|]. simpl.
  rewrite !js_get_field.
  destruct (nullish (field v p_sentiment)); [reflexivity|]. simpl.
  rewrite !js_get_field.
  destruct (nullish (field (field v p_sentiment) p_confidenceScores)); [reflexivity|]. simpl.
  destruct (field (field v p_sentiment) p_sentences) as [| | | | |xs|]; try reflexivity.
  unfold js_map, outcome_bind. rewrite normalize_sentences_cases.
  destruct (forallb normalizable_sentence xs); reflexivity.
Qed.

(** ** A document the read path cannot normalize *)

Lemma normalize_all_throw_type_error xs e :
  outcome_map normalize xs = Throw e -> e = TypeError.
Proof.
  induction xs as [|x xs IH]; simpl; [discriminate|].
  rewrite normalize_cases. destruct (normalizable x); simpl.
  - destruct (outcome_map normalize xs); simpl; [discriminate|].
    intros H. injection H as <-. apply IH. reflexivity.
  - intros H. injection H as <-. reflexivity.
Qed.

Lemma outcome_map_throws {A B} (f : A -> outcome B) xs x e :
  In x xs -> f x = Throw e -> exists e', outcome_map f xs = Throw e'.
Proof.
  intros Hin Hx. induction xs as [|y xs IH]; [destruct Hin|].
  simpl. destruct Hin as [->|Hin].
  - rewrite Hx. simpl. eauto.
  - destruct (f y); simpl; [|eauto].
    destruct (IH Hin) as [e' ->]. simpl. eauto.
Qed.

(** One tweet document that does not normalize fails the whole read. *)
Lemma get_sentiment_unreadable w d :
  cache_miss w = true ->
  calls_succeed w 2 = true ->
  In d (tweet_docs (w_store w)) ->
  normalizable (VObj d) = false ->
  get_sentiment w =
    (Throw TypeError,
     record_call (ItemsQuery sentiment_query) (record_call (CacheGet "tweets") w)).
Proof.
  intros Hm Hs Hin Hd.
  rewrite get_sentiment_miss by eauto using rejected_first.
  pose proof (calls_succeed_next w (CacheGet "tweets") 1 Hs) as Hs1.
  pose proof (rejected_first _ _ Hs1) as Hr1.
  unfold mbind, M_bind, items_query. rewrite Hr1. cbv beta iota zeta.
  rewrite run_sentiment_query.
  change (w_store (record_call (CacheGet "tweets") w)) with (w_store w).
  rewrite length_map, nonempty_length
    by (intros E; rewrite E in Hin; destruct Hin).
  assert (Hthrow : outcome_map normalize (List.map VObj (tweet_docs (w_store w)))
                   = Throw TypeError).
  { destruct (outcome_map_throws normalize (List.map VObj (tweet_docs (w_store w)))
                (VObj d) TypeError) as [e' He'].
    - apply in_map, Hin.
    - rewrite normalize_cases, Hd. reflexivity.
    - rewrite He'. f_equal. eapply normalize_all_throw_type_error, He'. }
  unfold lift. rewrite Hthrow. reflexivity.
Qed.

(** ** Readable documents *)

Lemma readable_docs_Forall docs :
  readable_docs docs = true <-> Forall (fun d => normalizable (VObj d) = true) docs.
Proof.
  unfold readable_docs. induction docs as [|d docs IH]; simpl.
  - split; [constructor | reflexivity].
  - rewrite andb_true_iff, IH. split.
    + intros [Hd Hr]. constructor; assumption.
    + intros H. inversion H; subst. split; assumption.
Qed.

Lemma normalize_readable docs :
  readable_docs docs = true ->
  outcome_map normalize (List.map VObj docs) = Ok (normalized_docs docs).
Proof.
  unfold readable_docs, normalized_docs.
  induction docs as [|d docs IH]; intros H; [reflexivity|].
  simpl in H. apply andb_true_iff in H as [Hd Hr].
  simpl. rewrite normalize_cases, Hd. simpl. rewrite (IH Hr). reflexivity.
Qed.

Lemma unreadable_member docs :
  readable_docs docs = false ->
  exists d, In d docs /\ normalizable (VObj d) = false.
Proof.
  unfold readable_docs. induction docs as [|d docs IH]; intros H; [discriminate|].
  simpl in H. destruct (normalizable (VObj d)) eqn:E.
  - destruct (IH H) as (d' & Hin & Hd'). exists d'. split; [right; exact Hin | exact Hd'].
  - exists d. split; [left; reflexivity | exact E].
Qed.

Lemma decoded_doc d t :
  decode_tweet (VObj d) = Some t ->
  normalizable (VObj d) = true /\ picked_tweet (VObj d) = tweet_value t.
Proof.
  intros H. apply normalize_decode in H. rewrite normalize_cases in H.
  destruct (normalizable (VObj d)); [|discriminate].
  split; [reflexivity | congruence].
Qed.

Lemma decoded_docs docs ts :
  Forall2 (fun d t => decode_tweet (VObj d) = Some t) docs ts ->
  readable_docs docs = true /\ normalized_docs docs = List.map tweet_value ts.
Proof.
  unfold readable_docs, normalized_docs.
  induction 1 as [|d t docs ts Hd _ [IHr IHn]]; [split; reflexivity|].
  destruct (decoded_doc d t Hd) as [Hn Hp].
  simpl. rewrite Hn, Hp, IHr, IHn. split; reflexivity.
Qed.

Lemma picked_tweet_no_type v :
  exists fields, picked_tweet v = VObj fields /\ obj_lookup "type" fields = None.
Proof. eexists. split; reflexivity. Qed.

Lemma tweet_docs_upsert_all (P : obj -> Prop) docs store :
  Forall P (tweet_docs store) -> Forall P docs ->
  Forall P (tweet_docs (upsert_all docs store)).
Proof.
  revert store. induction docs as [|d docs IH]; intros store Hs Hd; simpl.
  - exact Hs.
  - inversion Hd; subst. apply IH; [|assumption].
    apply filter_upsert_Forall; [exact Hs | auto].
Qed.

(** ** Properties of [GET /sentiment] *)

(** C1 (cache-hit short-circuit).  When the cache holds under the key
    ["tweets"] a text that parses to a non-empty array of values of the
    Tweet shape, the handler replies 200 with exactly the parsed array as
    [data]; its only call is the cache read, so the store is not queried
    and the cache is not written. *)
Theorem cache_hit_short_circuit
    (w : world) (text : string) (vs : list value) (ts : list TweetWithSentiment) :
  cached_text w = Some text ->
  JSON.parse text = Ok (VArr vs) ->
  Forall2 (fun v t => decode_tweet v = Some t) vs ts ->
  ts <> [] ->
  rejected w = false ->
  exists w',
    get_sentiment w = (Ok (Reply 200 (VObj [("data", VArr vs)])), w') /\
    w_log w' = (w_log w ++ [CacheGet "tweets"])%list /\
    w_cache w' = w_cache w /\
    w_store w' = w_store w.
Proof.
  intros Hc Hp Hshape Hne Hr.
  assert (Hvs : vs <> []).
  { intros ->. apply Forall2_nil_inv_l in Hshape. contradiction. }
  destruct (array_length_nonzero vs Hvs) as (len & Hl & Hz).
  exists (record_call (CacheGet "tweets") w).
  rewrite (get_sentiment_hit w text (VArr vs) len) by assumption.
  repeat split.
Qed.

Lemma cache_hit_short_circuit_witness :
  JSON.parse sample_text = Ok (VArr [tweet_value sample_tweet]) /\
  exists w',
    get_sentiment cached_world =
      (Ok (Reply 200 (VObj [("data", VArr [tweet_value sample_tweet])])), w') /\
    w_log w' = (w_log cached_world ++ [CacheGet "tweets"])%list /\
    w_cache w' = w_cache cached_world /\
    w_store w' = w_store cached_world.
Proof.
  split; [vm_compute; reflexivity|].
  apply (cache_hit_short_circuit cached_world sample_text
           [tweet_value sample_tweet] [sample_tweet]).
  - vm_compute. reflexivity.
  - vm_compute. reflexivity.
  - repeat constructor.
  - discriminate.
  - reflexivity.
Defined.

(** C2, as amended.  When the cache holds under the key ["tweets"] a
    non-empty text that [JSON.parse] rejects, the handler does not fall
    back to the store: the parse error is the outcome of the request, the
    only call made is the cache read, and cache and store are unchanged. *)
Theorem malformed_cache_propagates (w : world) (text : string) (e : exn) :
  cached_text w = Some text ->
  text <> "" ->
  JSON.parse text = Throw e ->
  rejected w = false ->
  exists w',
    get_sentiment w = (Throw e, w') /\
    w_log w' = (w_log w ++ [CacheGet "tweets"])%list /\
    w_cache w' = w_cache w /\
    w_store w' = w_store w.
Proof.
  intros Hc Hne Hp Hr.
  exists (record_call (CacheGet "tweets") w).
  unfold get_sentiment, mbind, M_bind, client_get.
  unfold cached_text in Hc. rewrite Hr, Hc. cbv beta iota zeta.
  unfold truthy. destruct (String.eqb_spec text ""); [contradiction|].
  simpl negb. cbv beta iota zeta. unfold lift. rewrite Hp.
  repeat split.
Qed.

Lemma malformed_cache_propagates_witness :
  exists w',
    get_sentiment malformed_world = (Throw SyntaxError, w') /\
    w_log w' = (w_log malformed_world ++ [CacheGet "tweets"])%list /\
    w_cache w' = w_cache malformed_world /\
    w_store w' = w_store malformed_world.
Proof.
  apply (malformed_cache_propagates malformed_world "{oops" SyntaxError).
  - vm_compute. reflexivity.
  - discriminate.
  - vm_compute. reflexivity.
  - reflexivity.
Defined.

(** C2 as stated fails: with the unparseable text ["{oops"] in the cache
    and two tweets in the store, the request ends in a SyntaxError without
    a call to the store, whereas the same request on a miss (the same
    store, nothing cached) replies 200 after querying the store. *)
Lemma malformed_cache_counterexample :
  cached_text malformed_world = Some "{oops" /\
  JSON.parse "{oops" = Throw SyntaxError /\
  fst (get_sentiment malformed_world) = Throw SyntaxError /\
  existsb is_store_call (w_log (snd (get_sentiment malformed_world))) = false /\
  w_store stored_world = w_store malformed_world /\
  cache_miss stored_world = true /\
  status <$> (match fst (get_sentiment stored_world) with
              | Ok r => Some r
              | Throw _ => None
              end) = Some 200 /\
  existsb is_store_call (w_log (snd (get_sentiment stored_world))) = true.
Proof. vm_compute. repeat split; reflexivity. Qed.

(** C3 (cache-miss population), as amended.  On a miss, the three calls
    being served, with at least one document of discriminator ["tweet"]
    in the store:
    - when every such document is readable, the handler replies 200 with
      the normalized documents in the order the store returned them, and
      writes [JSON.stringify] of exactly that list under ["tweets"] with
      an expiry of 86400 seconds; when the list is exact JSON, the text
      written parses back to it;
    - documents of the Tweet shape are readable, and normalized to the
      objects of their records;
    - when some document is not readable, the request ends in a TypeError
      after the query and nothing is written. *)
Theorem cache_miss_population (w : world) :
  cache_miss w = true ->
  calls_succeed w 3 = true ->
  tweet_docs (w_store w) <> [] ->
  (readable_docs (tweet_docs (w_store w)) = true ->
   exists w',
     get_sentiment w =
       (Ok (Reply 200 (VObj [("data", VArr (normalized_docs (tweet_docs (w_store w))))])),
        w') /\
     w_log w' =
       (w_log w ++
          [CacheGet "tweets"; ItemsQuery sentiment_query;
           CacheSet "tweets"
             (JSON.stringify (VArr (normalized_docs (tweet_docs (w_store w))))) 86400])%list /\
     w_cache w' =
       <["tweets" :=
           CacheEntry (JSON.stringify (VArr (normalized_docs (tweet_docs (w_store w)))))
             (Some 86400%N)]> (w_cache w) /\
     w_store w' = w_store w /\
     (json_exact (VArr (normalized_docs (tweet_docs (w_store w)))) = true ->
      JSON.parse (JSON.stringify (VArr (normalized_docs (tweet_docs (w_store w))))) =
        Ok (VArr (normalized_docs (tweet_docs (w_store w)))))) /\
  (forall ts,
     Forall2 (fun d t => decode_tweet (VObj d) = Some t) (tweet_docs (w_store w)) ts ->
     readable_docs (tweet_docs (w_store w)) = true /\
     normalized_docs (tweet_docs (w_store w)) = List.map tweet_value ts) /\
  (readable_docs (tweet_docs (w_store w)) = false ->
   exists w',
     get_sentiment w = (Throw TypeError, w') /\
     w_log w' = (w_log w ++ [CacheGet "tweets"; ItemsQuery sentiment_query])%list /\
     w_cache w' = w_cache w /\
     w_store w' = w_store w).
Proof.
  intros Hm Hs Hne. split; [|split].
  - intros Hr. eexists. split.
    + apply get_sentiment_populated; try assumption. apply normalize_readable, Hr.
    + repeat split. apply JSON_facts.parse_stringify.
  - apply decoded_docs.
  - intros Hr. destruct (unreadable_member _ Hr) as (d & Hin & Hd).
    eexists. split.
    + apply (get_sentiment_unreadable w d); try assumption.
      apply (calls_succeed_weaken w 3 2); [exact Hs | lia].
    + simpl. rewrite <- app_assoc. repeat split.
Qed.

Lemma cache_miss_population_witness :
  exists w',
    get_sentiment quoting_world =
      (Ok (Reply 200 (VObj [("data", VArr [tweet_value quoting_tweet;
                                           tweet_value older_tweet])])), w') /\
    w_cache w' !! "tweets" =
      Some (CacheEntry
              (JSON.stringify (VArr [tweet_value quoting_tweet; tweet_value older_tweet]))
              (Some 86400%N)) /\
    JSON.parse (JSON.stringify (VArr [tweet_value quoting_tweet; tweet_value older_tweet])) =
      Ok (VArr [tweet_value quoting_tweet; tweet_value older_tweet]) /\
    w_store w' = w_store quoting_world.
Proof.
  destruct (cache_miss_population quoting_world) as (Hpop & Hrec & _).
  - reflexivity.
  - reflexivity.
  - discriminate.
  - destruct (Hrec [quoting_tweet; older_tweet]) as [Hr Hn].
    { repeat constructor; rewrite decode_tweet_tagged; apply decode_tweet_value. }
    destruct (Hpop Hr) as (w' & Hget & _ & Hcache & Hstore & Hparse).
    rewrite Hn in *. exists w'.
    split; [exact Hget|]. split; [rewrite Hcache; apply lookup_insert_eq|].
    split; [apply Hparse; vm_compute; reflexivity | exact Hstore].
Defined.

(** C3 as stated fails: on a miss with one tweet document in the store,
    one that has no [sentences], the query returns a non-empty result and
    the request ends in a TypeError after the query; nothing is replied
    and nothing is written under ["tweets"]. *)
Lemma cache_miss_population_counterexample :
  cache_miss bare_world = true /\
  tweet_docs (w_store bare_world) = [tagged bare_tweet] /\
  fst (get_sentiment bare_world) = Throw TypeError /\
  w_log (snd (get_sentiment bare_world)) = [CacheGet "tweets"; ItemsQuery sentiment_query] /\
  w_cache (snd (get_sentiment bare_world)) !! "tweets" = None.
Proof. vm_compute. repeat split; reflexivity. Qed.

(** C4 (empty-store non-caching).  On a miss, when the store holds no
    document with discriminator ["tweet"], the handler replies 200 with
    the empty array and makes no cache write: the cache is as before. *)
Theorem empty_store_not_cached (w : world) :
  cache_miss w = true ->
  calls_succeed w 2 = true ->
  tweet_docs (w_store w) = [] ->
  exists w',
    get_sentiment w = (Ok (Reply 200 (VObj [("data", VArr [])])), w') /\
    w_log w' = (w_log w ++ [CacheGet "tweets"; ItemsQuery sentiment_query])%list /\
    w_cache w' = w_cache w /\
    w_store w' = w_store w.
Proof.
  intros Hm Hs He.
  rewrite get_sentiment_miss by eauto using rejected_first.
  pose proof (calls_succeed_next w (CacheGet "tweets") 1 Hs) as Hs1.
  pose proof (rejected_first _ _ Hs1) as Hr1.
  eexists. unfold mbind, M_bind, items_query.
  rewrite Hr1. cbv beta iota zeta. rewrite run_sentiment_query.
  change (w_store (record_call (CacheGet "tweets") w)) with (w_store w).
  rewrite He. simpl. split; [reflexivity|].
  simpl. rewrite <- !app_assoc. repeat split.
Qed.

Lemma empty_store_not_cached_witness :
  exists w',
    get_sentiment empty_world = (Ok (Reply 200 (VObj [("data", VArr [])])), w') /\
    w_log w' = (w_log empty_world ++ [CacheGet "tweets"; ItemsQuery sentiment_query])%list /\
    w_cache w' = w_cache empty_world /\
    w_store w' = w_store empty_world.
Proof.
  apply (empty_store_not_cached empty_world); reflexivity.
Defined.

(** C5, as amended.  When the request reaches the cache-populate step and
    the cache write is rejected, the rejection is the outcome of the
    request: the fetched and normalized data is not returned.  The cache
    and the store are unchanged. *)
Theorem cache_write_failure_propagates (w : world) (mapped : list value) :
  cache_miss w = true ->
  calls_succeed w 2 = true ->
  w_fails w (List.length (w_log w) + 2) = true ->
  tweet_docs (w_store w) <> [] ->
  outcome_map normalize (List.map VObj (tweet_docs (w_store w))) = Ok mapped ->
  exists w',
    get_sentiment w = (Throw RedisError, w') /\
    w_log w' = (w_log w ++ [CacheGet "tweets"; ItemsQuery sentiment_query;
                            CacheSet "tweets" (JSON.stringify (VArr mapped)) 86400])%list /\
    w_cache w' = w_cache w /\
    w_store w' = w_store w.
Proof.
  intros Hm Hs Hf Hne Hn.
  rewrite (get_sentiment_populate w mapped) by assumption.
  eexists. unfold mbind, M_bind, client_set.
  rewrite rejected_after_two, Hf. cbv beta iota zeta. split; [reflexivity|].
  simpl. rewrite <- !app_assoc. repeat split.
Qed.

Lemma cache_write_failure_propagates_witness :
  exists w',
    get_sentiment write_back_world = (Throw RedisError, w') /\
    w_log w' =
      (w_log write_back_world ++
         [CacheGet "tweets"; ItemsQuery sentiment_query;
          CacheSet "tweets"
            (JSON.stringify (VArr [tweet_value sample_tweet; tweet_value older_tweet]))
            86400])%list /\
    w_cache w' = w_cache write_back_world /\
    w_store w' = w_store write_back_world.
Proof.
  apply (cache_write_failure_propagates write_back_world
           [tweet_value sample_tweet; tweet_value older_tweet]).
  - reflexivity.
  - reflexivity.
  - reflexivity.
  - vm_compute. discriminate.
  - vm_compute. reflexivity.
Defined.

(** C5 as stated fails: on a miss with two tweets in the store that
    normalize, and the cache write rejected, the request ends in the
    RedisError instead of replying with the normalized data. *)
Lemma cache_write_failure_counterexample :
  cache_miss write_back_world = true /\
  outcome_map normalize (List.map VObj (tweet_docs (w_store write_back_world))) =
    Ok [tweet_value sample_tweet; tweet_value older_tweet] /\
  w_fails write_back_world 2 = true /\
  fst (get_sentiment write_back_world) = Throw RedisError.
Proof. vm_compute. repeat split; reflexivity. Qed.

(** C10 (no shape validation on a hit).  When the cached text parses to
    any value whose [length] reads as something other than the number 0
    (a non-empty array of anything, or a value whose [length] is
    [undefined] or not a number), the handler replies 200 with that value
    as [data], whatever its shape; its only call is the cache read. *)
Theorem cache_hit_unvalidated (w : world) (text : string) (v len : value) :
  cached_text w = Some text ->
  JSON.parse text = Ok v ->
  js_get v p_length = Ok len ->
  strict_equals_number len (number_of_Z 0) = false ->
  rejected w = false ->
  exists w',
    get_sentiment w = (Ok (Reply 200 (VObj [("data", v)])), w') /\
    w_log w' = (w_log w ++ [CacheGet "tweets"])%list /\
    w_cache w' = w_cache w /\
    w_store w' = w_store w.
Proof.
  intros Hc Hp Hl Hz Hr.
  exists (record_call (CacheGet "tweets") w).
  rewrite (get_sentiment_hit w text v len) by assumption.
  repeat split.
Qed.

Lemma cache_hit_unvalidated_witness :
  decode_tweet (VNum (number_of_Z 7)) = None /\
  exists w',
    get_sentiment number_world =
      (Ok (Reply 200 (VObj [("data", VNum (number_of_Z 7))])), w') /\
    w_log w' = (w_log number_world ++ [CacheGet "tweets"])%list /\
    w_cache w' = w_cache number_world /\
    w_store w' = w_store number_world.
Proof.
  split; [reflexivity|].
  apply (cache_hit_unvalidated number_world "7" (VNum (number_of_Z 7)) VUndefined).
  - vm_compute. reflexivity.
  - vm_compute. reflexivity.
  - reflexivity.
  - reflexivity.
  - reflexivity.
Defined.

(** ** Properties of [POST /sentiment] *)



(** C9 (write-path cache frame).  Whatever the batch and whatever the
    collaborators do, every call [POST /sentiment] makes goes to the
    store, none to the cache, and the cache afterwards is the cache
    before. *)
Theorem write_path_cache_frame (data : list obj) (w : world) :
  exists calls,
    w_log (snd (post_sentiment data w)) = (w_log w ++ calls)%list /\
    forallb is_store_call calls = true /\
    w_cache (snd (post_sentiment data w)) = w_cache w.
Proof.
  destruct (for_each_upsert_frame data w) as (calls & Hl & Hc & Hk).
  exists calls. rewrite post_sentiment_for_each. unfold mbind, M_bind.
  destruct (for_each data _ w) as [[[]|e] w']; simpl in *; auto.
Qed.

(** C6 (round-trip normalization), as amended.  Post a batch to a store
    of which every tweet document is readable, the tweets of the batch
    being readable too once stored, all calls being served; then read with
    no usable cache entry.  Both requests reply 200, and every tweet of
    the batch that has the Tweet shape and that no later tweet of the
    batch replaces (same id) comes back as the object of its record, field
    for field, nested sentences included; no object of the reply carries
    the ["type"] discriminator. *)
Theorem round_trip_normalization
    (w : world) (data : list obj) (i : nat) (o : obj) (t : TweetWithSentiment) :
  readable_docs (tweet_docs (w_store w)) = true ->
  readable_docs (List.map tagged data) = true ->
  data !! i = Some o ->
  decode_tweet (VObj o) = Some t ->
  (forall j o', i < j -> data !! j = Some o' -> id_key o' <> tw_id t) ->
  cache_miss w = true ->
  (forall k, w_fails w k = false) ->
  exists w1 w2 mapped,
    post_sentiment data w = (Ok (Reply 200 (VObj [("status", VStr "ok")])), w1) /\
    get_sentiment w1 = (Ok (Reply 200 (VObj [("data", VArr mapped)])), w2) /\
    In (tweet_value t) mapped /\
    Forall (fun v => exists fields, v = VObj fields /\ obj_lookup "type" fields = None)
           mapped.
Proof.
  intros Hstore Hdata Hi Ht Hlater Hmiss Hcalm.
  set (w1 := World (w_cache w) (upsert_all (List.map tagged data) (w_store w))
                   (w_log w ++ List.map ItemsUpsert (List.map tagged data))%list
                   (w_fails w)).
  assert (Hpost : post_sentiment data w =
                    (Ok (Reply 200 (VObj [("status", VStr "ok")])), w1)).
  { rewrite post_sentiment_for_each. unfold mbind, M_bind.
    rewrite for_each_upsert_ok by (apply calls_succeed_all, Hcalm). reflexivity. }
  assert (Hread : readable_docs (tweet_docs (w_store w1)) = true).
  { apply readable_docs_Forall. apply tweet_docs_upsert_all.
    - apply readable_docs_Forall, Hstore.
    - apply readable_docs_Forall, Hdata. }
  assert (Hin : In (tagged o) (tweet_docs (w_store w1))).
  { apply filter_In. split; [|apply matches_type_tagged].
    apply (upsert_all_persisted _ i).
    - rewrite lookup_map, Hi. reflexivity.
    - intros j d' Hj Hd'. rewrite lookup_map in Hd'.
      destruct (data !! j) as [o'|] eqn:E; [|discriminate].
      injection Hd' as <-. rewrite !id_key_tagged.
      rewrite (decode_tweet_id o t Ht). apply (Hlater j); [exact Hj | exact E]. }
  exists w1. eexists. exists (normalized_docs (tweet_docs (w_store w1))).
  split; [exact Hpost|]. split.
  - apply get_sentiment_populated.
    + exact Hmiss.
    + apply calls_succeed_all. exact Hcalm.
    + intros E. rewrite E in Hin. destruct Hin.
    + apply normalize_readable, Hread.
  - split.
    + assert (Hdec : decode_tweet (VObj (tagged o)) = Some t)
        by (rewrite decode_tweet_tagged; exact Ht).
      destruct (decoded_doc _ _ Hdec) as [_ <-].
      unfold normalized_docs.
      apply (in_map (fun d => picked_tweet (VObj d))), Hin.
    + apply Forall_forall. intros v Hv.
      apply list_elem_of_In, in_map_iff in Hv as (d & <- & _).
      apply picked_tweet_no_type.
Qed.

Lemma round_trip_normalization_witness :
  exists w1 w2 mapped,
    post_sentiment sample_batch empty_world =
      (Ok (Reply 200 (VObj [("status", VStr "ok")])), w1) /\
    get_sentiment w1 = (Ok (Reply 200 (VObj [("data", VArr mapped)])), w2) /\
    In (tweet_value sample_tweet) mapped /\
    Forall (fun v => exists fields, v = VObj fields /\ obj_lookup "type" fields = None)
           mapped.
Proof.
  apply (round_trip_normalization empty_world sample_batch 0
           (tweet_fields sample_tweet) sample_tweet).
  - reflexivity.
  - reflexivity.
  - reflexivity.
  - apply decode_tweet_value.
  - intros [|[|[|j]]] o' Hj Ho'; simpl in Ho'; try lia; try discriminate.
    injection Ho' as <-. vm_compute. discriminate.
  - reflexivity.
  - intros k. reflexivity.
Defined.

(** C6 as stated fails on accepted requests.  A batch of a Tweet and of a
    tweet without [sentences] is answered 200, and the read that follows
    ends in a TypeError: the Tweet does not come back.  A batch of two
    Tweets with the same id is answered 200, and the read that follows
    replies with the second alone.  A batch of two Tweets posted to a
    store that holds a tweet without [sentences] is answered 200, and the
    read that follows ends in a TypeError. *)
Lemma round_trip_counterexample :
  (validate body_schema (request_body (List.map VObj mixed_batch)) = true /\
   decode_tweet (VObj (tweet_fields sample_tweet)) = Some sample_tweet /\
   fst (post_sentiment mixed_batch empty_world) =
     Ok (Reply 200 (VObj [("status", VStr "ok")])) /\
   fst (get_sentiment (snd (post_sentiment mixed_batch empty_world))) = Throw TypeError) /\
  (validate body_schema (request_body (List.map VObj duplicate_batch)) = true /\
   decode_tweet (VObj (tweet_fields rewritten_tweet)) = Some rewritten_tweet /\
   fst (post_sentiment duplicate_batch empty_world) =
     Ok (Reply 200 (VObj [("status", VStr "ok")])) /\
   fst (get_sentiment (snd (post_sentiment duplicate_batch empty_world))) =
     Ok (Reply 200 (VObj [("data", VArr [tweet_value rewritten_tweet])]))) /\
  (tweet_docs (w_store bare_world) = [tagged bare_tweet] /\
   validate body_schema (request_body (List.map VObj sample_batch)) = true /\
   fst (post_sentiment sample_batch bare_world) =
     Ok (Reply 200 (VObj [("status", VStr "ok")])) /\
   fst (get_sentiment (snd (post_sentiment sample_batch bare_world))) = Throw TypeError).
Proof. vm_compute. repeat split; reflexivity. Qed.

(** ** Properties of [GET /last-known-tweet] *)

(** C8 (latest-tweet contract).  For every store, the handler makes one
    call: the query for documents with discriminator ["tweet"], ordered
    by id descending, limited to one.  When no such document exists it
    replies 404 with [{data: {id: ""}}]; otherwise it replies 200 with the
    id of a document whose id is greatest among them. *)
Theorem latest_tweet_contract (w : world) :
  rejected w = false ->
  exists w',
    w_log w' = (w_log w ++ [ItemsQuery last_known_query])%list /\
    w_cache w' = w_cache w /\
    w_store w' = w_store w /\
    match tweet_docs (w_store w) with
    | [] =>
        get_last_known_tweet w =
          (Ok (Reply 404 (VObj [("data", VObj [("id", VStr "")])])), w')
    | _ :: _ =>
        exists d,
          In d (tweet_docs (w_store w)) /\
          (forall d', In d' (tweet_docs (w_store w)) ->
                      String.leb (id_key d') (id_key d) = true) /\
          get_last_known_tweet w =
            (Ok (Reply 200
                   (VObj [("data",
                           VObj [("id", default VUndefined (obj_lookup "id" d))])])), w')
    end.
Proof.
  intros Hr. exists (record_call (ItemsQuery last_known_query) w).
  repeat (split; [reflexivity|]).
  unfold get_last_known_tweet, mbind, M_bind, items_query. rewrite Hr.
  cbv beta iota zeta. rewrite run_last_known_query.
  destruct (tweet_docs (w_store w)) as [|d0 docs] eqn:Ed; [reflexivity|].
  destruct (order_by_id_desc (d0 :: docs)) as [|d rest] eqn:Eo.
  - assert (Hin : In d0 (order_by_id_desc (d0 :: docs)))
      by (apply order_by_id_desc_In; left; reflexivity).
    rewrite Eo in Hin. destruct Hin.
  - destruct (order_by_id_desc_head _ _ _ Eo) as [Hin Hmax].
    exists d. split; [exact Hin|]. split; [exact Hmax|].
    simpl. unfold project. destruct (obj_lookup "id" d); reflexivity.
Qed.

Lemma latest_tweet_contract_witness :
  exists w',
    w_log w' = (w_log stored_world ++ [ItemsQuery last_known_query])%list /\
    w_cache w' = w_cache stored_world /\
    w_store w' = w_store stored_world /\
    match tweet_docs (w_store stored_world) with
    | [] =>
        get_last_known_tweet stored_world =
          (Ok (Reply 404 (VObj [("data", VObj [("id", VStr "")])])), w')
    | _ :: _ =>
        exists d,
          In d (tweet_docs (w_store stored_world)) /\
          (forall d', In d' (tweet_docs (w_store stored_world)) ->
                      String.leb (id_key d') (id_key d) = true) /\
          get_last_known_tweet stored_world =
            (Ok (Reply 200
                   (VObj [("data",
                           VObj [("id", default VUndefined (obj_lookup "id" d))])])), w')
    end.
Proof.
  apply (latest_tweet_contract stored_world). reflexivity.
Defined.

(** ** The handlers on the sample data *)

(** Ids are compared as strings: of ["100"] and ["099"] the latest is
    ["100"]. *)
Example latest_of_sample :
  fst (get_last_known_tweet stored_world) =
    Ok (Reply 200 (VObj [("data", VObj [("id", VStr "100")])])).
Proof. vm_compute. reflexivity. Qed.

Example latest_of_empty :
  fst (get_last_known_tweet empty_world) =
    Ok (Reply 404 (VObj [("data", VObj [("id", VStr "")])])).
Proof. vm_compute. reflexivity. Qed.

(** The text written on a miss is read back on the next request, which is
    then served from the cache. *)
Example second_read_is_a_hit :
  JSON.parse (JSON.stringify (VArr [tweet_value sample_tweet; tweet_value older_tweet])) =
    Ok (VArr [tweet_value sample_tweet; tweet_value older_tweet]) /\
  fst (get_sentiment (snd (get_sentiment stored_world))) =
    fst (get_sentiment stored_world) /\
  w_log (snd (get_sentiment (snd (get_sentiment stored_world)))) =
    [CacheGet "tweets"; ItemsQuery sentiment_query;
     CacheSet "tweets"
       (JSON.stringify (VArr [tweet_value sample_tweet; tweet_value older_tweet])) 86400;
     CacheGet "tweets"].
Proof. vm_compute. repeat split; reflexivity. Qed.

(** A cached [null] parses, but reading its [length] throws. *)
Example cached_null_throws :
  JSON.parse "null" = Ok VNull /\
  fst (get_sentiment null_world) = Throw TypeError.
Proof. vm_compute. split; reflexivity. Qed.

(** A stored tweet without [sentences] (the body schema of the POST route
    does not require them) makes the read fail. *)
Example missing_sentences_throw :
  normalize (VObj [("id", VStr "1"); ("text", VStr "x");
                   ("sentiment",
                    VObj [("sentiment", VStr "neutral");
                          ("confidenceScores", scores_value sample_scores)])])
  = Throw TypeError.
Proof. reflexivity. Qed.

(** The escapes of [JSON.stringify]: quote, backslash, line feed, and a
    surrogate that stands alone; a two-byte character is copied. *)
Example stringify_escapes :
  JSON.stringify (VStr quoting_text) =
    String JSON.dquote
      ("a\" ++ String JSON.dquote
                 ("b\\c\n" ++ JSON.utf8_encode 233 ++ "\ud83d" ++ String JSON.dquote "")).
Proof. vm_compute. reflexivity. Qed.

(** * Further properties *)

(** ** Every run of [GET /sentiment] *)

Lemma outcome_map_length {A B} (f : A -> outcome B) xs ys :
  outcome_map f xs = Ok ys -> List.length ys = List.length xs.
Proof.
  revert ys. induction xs as [|x xs IH]; intros ys H; simpl in H.
  - injection H as <-. reflexivity.
  - destruct (f x); simpl in H; [|discriminate].
    destruct (outcome_map f xs) as [ys'|]; simpl in H; [|discriminate].
    injection H as <-. simpl. rewrite (IH ys' eq_refl). reflexivity.
Qed.

Ltac protocol_one_call :=
  simpl; split; [reflexivity|]; split; [reflexivity|]; left; split; reflexivity.

Ltac protocol_two_calls :=
  simpl; rewrite <- app_assoc; split; [reflexivity|]; split; [reflexivity|];
  right; left; split; reflexivity.

Ltac protocol_tail w :=
  unfold lift;
  match goal with
  | |- context [js_get ?tweets p_length] =>
      destruct (js_get tweets p_length); [|protocol_one_call]
  end;
  match goal with
  | |- context [strict_equals_number ?l ?z] =>
      destruct (strict_equals_number l z); [|protocol_one_call]
  end;
  unfold items_query;
  destruct (rejected (record_call (CacheGet "tweets") w)); [protocol_two_calls|];
  cbv beta iota zeta; rewrite run_sentiment_query;
  change (w_store (record_call (CacheGet "tweets") w)) with (w_store w);
  destruct (tweet_docs (w_store w)); [protocol_two_calls|];
  rewrite length_map;
  match goal with
  | |- context [(0 <? List.length (?x :: ?xs))%nat] =>
      change (0 <? List.length (x :: xs))%nat with true
  end;
  cbv beta iota zeta;
  match goal with
  | |- context [outcome_map normalize ?docs] =>
      let mapped := fresh "mapped" in
      let En := fresh "En" in
      destruct (outcome_map normalize docs) as [mapped|] eqn:En;
        [|protocol_two_calls];
      assert (mapped <> [])
        by (apply outcome_map_length in En; rewrite length_map in En;
            destruct mapped; [discriminate | congruence]);
      unfold client_set; cbv beta iota zeta;
      destruct (rejected (record_call (ItemsQuery sentiment_query)
                            (record_call (CacheGet "tweets") w)));
        unfold send, mret, M_ret, set_cache, record_call;
        cbn [fst snd w_store w_fails w_log w_cache];
        rewrite <- !app_assoc;
        (split; [reflexivity|]); (split; [reflexivity|]);
        right; right; exists mapped; auto 6
  end.

(** Every run of [GET /sentiment], whatever the world. *)
Lemma get_sentiment_protocol w :
  w_store (snd (get_sentiment w)) = w_store w /\
  w_fails (snd (get_sentiment w)) = w_fails w /\
  ((w_log (snd (get_sentiment w)) = (w_log w ++ [CacheGet "tweets"])%list /\
    w_cache (snd (get_sentiment w)) = w_cache w) \/
   (w_log (snd (get_sentiment w)) =
      (w_log w ++ [CacheGet "tweets"; ItemsQuery sentiment_query])%list /\
    w_cache (snd (get_sentiment w)) = w_cache w) \/
   (exists mapped,
      mapped <> [] /\
      outcome_map normalize (List.map VObj (tweet_docs (w_store w))) = Ok mapped /\
      w_log (snd (get_sentiment w)) =
        (w_log w ++ [CacheGet "tweets"; ItemsQuery sentiment_query;
                     CacheSet "tweets" (JSON.stringify (VArr mapped)) 86400])%list /\
      ((fst (get_sentiment w) = Throw RedisError /\
        w_cache (snd (get_sentiment w)) = w_cache w) \/
       (fst (get_sentiment w) = Ok (Reply 200 (VObj [("data", VArr mapped)])) /\
        w_cache (snd (get_sentiment w)) =
          <["tweets" := CacheEntry (JSON.stringify (VArr mapped)) (Some 86400%N)]>
            (w_cache w))))).
Proof.
  unfold get_sentiment, mbind, M_bind, client_get.
  destruct (rejected w); [protocol_one_call|].
  cbv beta iota zeta.
  destruct (ce_value <$> w_cache w !! "tweets") as [text|].
  - destruct (truthy (Some text)).
    + unfold lift at 1. destruct (JSON.parse text) as [tweets|e]; [|protocol_one_call].
      protocol_tail w.
    + change (@mret M _ value (VArr [])) with (@lift value (Ok (VArr []))).
      unfold lift at 1. cbv beta iota zeta. protocol_tail w.
  - change (@mret M _ value (VArr [])) with (@lift value (Ok (VArr []))).
    unfold lift at 1. cbv beta iota zeta. protocol_tail w.
Qed.

(** X1 (read-path frame).  Whatever the cache holds and whatever the
    collaborators do, [GET /sentiment] leaves the store as it was and
    leaves every cache key other than ["tweets"] as it was. *)
Theorem read_path_frame (w : world) (k : string) :
  k <> "tweets" ->
  w_store (snd (get_sentiment w)) = w_store w /\
  w_cache (snd (get_sentiment w)) !! k = w_cache w !! k.
Proof.
  intros Hk. destruct (get_sentiment_protocol w) as (Hs & _ & H).
  split; [exact Hs|].
  destruct H as [[_ Hc]|[[_ Hc]|(mapped & _ & _ & _ & [[_ Hc]|[_ Hc]])]];
    rewrite Hc; try reflexivity.
  apply lookup_insert_ne. congruence.
Qed.

Lemma read_path_frame_witness :
  w_store (snd (get_sentiment stored_world)) = w_store stored_world /\
  w_cache (snd (get_sentiment stored_world)) !! "users" = w_cache stored_world !! "users".
Proof.
  apply (read_path_frame stored_world "users"). discriminate.
Defined.

(** X2 (read-path calls).  Every run of [GET /sentiment] makes one, two
    or three calls, always in this order: the read of ["tweets"], the
    tweet query, a write of ["tweets"] with expiry 86400.  It never
    upserts, never queries twice, never touches another key. *)
Theorem read_path_calls (w : world) :
  exists calls,
    w_log (snd (get_sentiment w)) = (w_log w ++ calls)%list /\
    (calls = [CacheGet "tweets"] \/
     calls = [CacheGet "tweets"; ItemsQuery sentiment_query] \/
     exists text,
       calls = [CacheGet "tweets"; ItemsQuery sentiment_query;
                CacheSet "tweets" text 86400]).
Proof.
  destruct (get_sentiment_protocol w) as (_ & _ & H).
  destruct H as [[Hl _]|[[Hl _]|(mapped & _ & _ & Hl & _)]];
    eexists; (split; [exact Hl|]); eauto.
Qed.

(** X3 (what gets cached).  When a run of [GET /sentiment] changes the
    cache, it replied 200 with a non-empty list, the normalized result of
    the tweet query, and the new entry under ["tweets"] is the
    serialization of exactly that list with expiry 86400: an empty list
    or a failed read is never cached. *)
Theorem cache_written_only_with_reply (w : world) :
  w_cache (snd (get_sentiment w)) <> w_cache w ->
  exists mapped,
    mapped <> [] /\
    outcome_map normalize (List.map VObj (tweet_docs (w_store w))) = Ok mapped /\
    fst (get_sentiment w) = Ok (Reply 200 (VObj [("data", VArr mapped)])) /\
    w_cache (snd (get_sentiment w)) =
      <["tweets" := CacheEntry (JSON.stringify (VArr mapped)) (Some 86400%N)]>
        (w_cache w).
Proof.
  intros Hchg. destruct (get_sentiment_protocol w) as (_ & _ & H).
  destruct H as [[_ Hc]|[[_ Hc]|(mapped & Hne & Hn & _ & [[_ Hc]|[Hr Hc]])]];
    try contradiction.
  exists mapped. auto.
Qed.

Lemma cache_written_only_with_reply_witness :
  exists mapped,
    mapped <> [] /\
    outcome_map normalize (List.map VObj (tweet_docs (w_store stored_world))) = Ok mapped /\
    fst (get_sentiment stored_world) = Ok (Reply 200 (VObj [("data", VArr mapped)])) /\
    w_cache (snd (get_sentiment stored_world)) =
      <["tweets" := CacheEntry (JSON.stringify (VArr mapped)) (Some 86400%N)]>
        (w_cache stored_world).
Proof.
  apply (cache_written_only_with_reply stored_world).
  intros E. apply (f_equal (fun c => c !! "tweets")) in E.
  vm_compute in E. discriminate.
Defined.

(** X4 (store failure on a miss).  On a miss, a rejected store query is
    the outcome of the request; the calls are the cache read and the
    query, and nothing is written to the cache. *)
Theorem store_failure_propagates (w : world) :
  cache_miss w = true ->
  rejected w = false ->
  w_fails w (List.length (w_log w) + 1) = true ->
  exists w',
    get_sentiment w = (Throw CosmosError, w') /\
    w_log w' = (w_log w ++ [CacheGet "tweets"; ItemsQuery sentiment_query])%list /\
    w_cache w' = w_cache w /\
    w_store w' = w_store w.
Proof.
  intros Hm Hr Hf. rewrite get_sentiment_miss by assumption.
  eexists. unfold mbind, M_bind, items_query.
  assert (Hr1 : rejected (record_call (CacheGet "tweets") w) = true).
  { unfold rejected. simpl. rewrite length_app. exact Hf. }
  rewrite Hr1. split; [reflexivity|]. simpl. rewrite <- app_assoc. auto.
Qed.

Lemma store_failure_propagates_witness :
  exists w',
    get_sentiment store_down_world = (Throw CosmosError, w') /\
    w_log w' =
      (w_log store_down_world ++ [CacheGet "tweets"; ItemsQuery sentiment_query])%list /\
    w_cache w' = w_cache store_down_world /\
    w_store w' = w_store store_down_world.
Proof.
  apply (store_failure_propagates store_down_world); reflexivity.
Defined.

(** X5 (one bad document fails the read).  On a miss, when some tweet
    document of the store does not normalize, the request ends in a
    TypeError whatever the other documents are; nothing is cached. *)
Theorem unreadable_document_fails_read (w : world) (d : obj) :
  cache_miss w = true ->
  calls_succeed w 2 = true ->
  In d (tweet_docs (w_store w)) ->
  normalizable (VObj d) = false ->
  exists w',
    get_sentiment w = (Throw TypeError, w') /\
    w_log w' = (w_log w ++ [CacheGet "tweets"; ItemsQuery sentiment_query])%list /\
    w_cache w' = w_cache w /\
    w_store w' = w_store w.
Proof.
  intros Hm Hs Hin Hd. eexists.
  rewrite (get_sentiment_unreadable w d) by assumption.
  split; [reflexivity|]. simpl. rewrite <- app_assoc. auto.
Qed.

Lemma unreadable_document_fails_read_witness :
  exists w',
    get_sentiment bare_world = (Throw TypeError, w') /\
    w_log w' = (w_log bare_world ++ [CacheGet "tweets"; ItemsQuery sentiment_query])%list /\
    w_cache w' = w_cache bare_world /\
    w_store w' = w_store bare_world.
Proof.
  apply (unreadable_document_fails_read bare_world (tagged bare_tweet)).
  - reflexivity.
  - reflexivity.
  - left. reflexivity.
  - reflexivity.
Defined.

(** A cached text whose value has length 0 sends the request to the store;
    the parsed value stays in [tweets]. *)
Lemma get_sentiment_zero_length w text v len :
  cached_text w = Some text ->
  JSON.parse text = Ok v ->
  js_get v p_length = Ok len ->
  strict_equals_number len (number_of_Z 0) = true ->
  rejected w = false ->
  get_sentiment w =
    (tweets ←
       (resources ← items_query sentiment_query;
        if (0 <? List.length resources)%nat then
          mapped ← lift (outcome_map normalize resources);
          _ ← client_set "tweets" (JSON.stringify (VArr mapped)) (60 * 60 * 24)%N;
          mret (VArr mapped)
        else mret v);
     send 200 (VObj [("data", tweets)]))
    (record_call (CacheGet "tweets") w).
Proof.
  intros Hc Hp Hl Hz Hr.
  pose proof (cached_text_nonempty w text v Hc Hp) as Ht.
  unfold get_sentiment at 1, mbind at 1, M_bind at 1, client_get.
  unfold cached_text in Hc. rewrite Hr, Hc. cbv beta iota zeta.
  rewrite Ht. unfold mbind at 1, M_bind at 1, lift at 1. rewrite Hp.
  cbv beta iota zeta. unfold mbind at 1, M_bind at 1, lift at 1. rewrite Hl.
  cbv beta iota zeta. rewrite Hz. reflexivity.
Qed.

(** X6 (a cached value of length 0).  When the cached text parses to a
    value whose [length] is 0 and the store holds no tweet, the handler
    queries the store and then replies 200 with the parsed value itself
    as [data], which need not be an array; the cache is not written. *)
Theorem zero_length_value_replied (w : world) (text : string) (v len : value) :
  cached_text w = Some text ->
  JSON.parse text = Ok v ->
  js_get v p_length = Ok len ->
  strict_equals_number len (number_of_Z 0) = true ->
  calls_succeed w 2 = true ->
  tweet_docs (w_store w) = [] ->
  exists w',
    get_sentiment w = (Ok (Reply 200 (VObj [("data", v)])), w') /\
    w_log w' = (w_log w ++ [CacheGet "tweets"; ItemsQuery sentiment_query])%list /\
    w_cache w' = w_cache w /\
    w_store w' = w_store w.
Proof.
  intros Hc Hp Hl Hz Hs He.
  rewrite (get_sentiment_zero_length w text v len) by eauto using rejected_first.
  pose proof (calls_succeed_next w (CacheGet "tweets") 1 Hs) as Hs1.
  pose proof (rejected_first _ _ Hs1) as Hr1.
  eexists. unfold mbind, M_bind, items_query.
  rewrite Hr1. cbv beta iota zeta. rewrite run_sentiment_query.
  change (w_store (record_call (CacheGet "tweets") w)) with (w_store w).
  rewrite He. simpl. split; [reflexivity|].
  simpl. rewrite <- !app_assoc. repeat split.
Qed.

Lemma zero_length_value_replied_witness :
  exists w',
    get_sentiment quoted_empty_world = (Ok (Reply 200 (VObj [("data", VStr "")])), w') /\
    w_log w' =
      (w_log quoted_empty_world ++ [CacheGet "tweets"; ItemsQuery sentiment_query])%list /\
    w_cache w' = w_cache quoted_empty_world /\
    w_store w' = w_store quoted_empty_world.
Proof.
  apply (zero_length_value_replied quoted_empty_world quoted_empty (VStr "")
           (VNum (number_of_nat 0))).
  - vm_compute. reflexivity.
  - vm_compute. reflexivity.
  - reflexivity.
  - reflexivity.
  - reflexivity.
  - reflexivity.
Defined.

(** X7 (populate, then hit).  After a read that populated the cache, the
    next read replies with the same list from the cache alone (one call,
    no store query), provided the text written parses back to the list. *)
Theorem populated_cache_serves_next_read (w : world) (mapped : list value) :
  cache_miss w = true ->
  calls_succeed w 4 = true ->
  tweet_docs (w_store w) <> [] ->
  outcome_map normalize (List.map VObj (tweet_docs (w_store w))) = Ok mapped ->
  JSON.parse (JSON.stringify (VArr mapped)) = Ok (VArr mapped) ->
  exists w1 w2,
    get_sentiment w = (Ok (Reply 200 (VObj [("data", VArr mapped)])), w1) /\
    get_sentiment w1 = (Ok (Reply 200 (VObj [("data", VArr mapped)])), w2) /\
    w_log w2 = (w_log w1 ++ [CacheGet "tweets"])%list /\
    w_cache w2 = w_cache w1 /\
    w_store w2 = w_store w.
Proof.
  intros Hm Hs Hne Hn Hrt.
  assert (Hmapped : mapped <> []).
  { apply outcome_map_length in Hn. rewrite length_map in Hn.
    destruct mapped; [|discriminate].
    destruct (tweet_docs (w_store w)); [congruence | discriminate]. }
  destruct (array_length_nonzero mapped Hmapped) as (len & Hl & Hz).
  eexists. eexists.
  split; [apply get_sentiment_populated; eauto using calls_succeed_weaken|].
  split.
  - apply (get_sentiment_hit _ (JSON.stringify (VArr mapped)) (VArr mapped) len).
    + unfold cached_text. simpl. rewrite lookup_insert_eq. reflexivity.
    + exact Hrt.
    + exact Hl.
    + exact Hz.
    + unfold rejected. simpl. rewrite length_app. simpl.
      apply (calls_succeed_at w 4 3 Hs). lia.
  - simpl. repeat split.
Qed.

Lemma populated_cache_serves_next_read_witness :
  exists w1 w2,
    get_sentiment stored_world =
      (Ok (Reply 200 (VObj [("data", VArr [tweet_value sample_tweet;
                                           tweet_value older_tweet])])), w1) /\
    get_sentiment w1 =
      (Ok (Reply 200 (VObj [("data", VArr [tweet_value sample_tweet;
                                           tweet_value older_tweet])])), w2) /\
    w_log w2 = (w_log w1 ++ [CacheGet "tweets"])%list /\
    w_cache w2 = w_cache w1 /\
    w_store w2 = w_store stored_world.
Proof.
  apply (populated_cache_serves_next_read stored_world
           [tweet_value sample_tweet; tweet_value older_tweet]).
  - reflexivity.
  - reflexivity.
  - vm_compute. discriminate.
  - vm_compute. reflexivity.
  - vm_compute. reflexivity.
Defined.

Lemma post_sentiment_cache data w : w_cache (snd (post_sentiment data w)) = w_cache w.
Proof.
  destruct (for_each_upsert_frame data w) as (calls & _ & _ & Hk).
  rewrite post_sentiment_for_each. unfold mbind, M_bind.
  destruct (for_each data _ w) as [[[]|e] w']; simpl in *; exact Hk.
Qed.

(** X8 (writes are not seen through the cache).  While the cache holds a
    usable entry, a read that follows a [POST /sentiment] replies with
    the cached value whatever the batch was and however its upserts
    went: the write path does not invalidate the entry. *)
Theorem cached_read_ignores_writes
    (w : world) (data : list obj) (text : string) (v len : value) :
  cached_text w = Some text ->
  JSON.parse text = Ok v ->
  js_get v p_length = Ok len ->
  strict_equals_number len (number_of_Z 0) = false ->
  rejected (snd (post_sentiment data w)) = false ->
  fst (get_sentiment (snd (post_sentiment data w))) =
    Ok (Reply 200 (VObj [("data", v)])).
Proof.
  intros Hc Hp Hl Hz Hr.
  rewrite (get_sentiment_hit _ text v len); try assumption; [reflexivity|].
  unfold cached_text. rewrite post_sentiment_cache. exact Hc.
Qed.

Lemma cached_read_ignores_writes_witness :
  fst (get_sentiment (snd (post_sentiment [tweet_fields older_tweet] cached_world))) =
    Ok (Reply 200 (VObj [("data", VArr [tweet_value sample_tweet])])).
Proof.
  apply (cached_read_ignores_writes cached_world [tweet_fields older_tweet] sample_text
           (VArr [tweet_value sample_tweet]) (VNum (number_of_nat 1))).
  - vm_compute. reflexivity.
  - vm_compute. reflexivity.
  - reflexivity.
  - reflexivity.
  - reflexivity.
Defined.

(** ** Every run of [POST /sentiment] *)

(** Every run of the upsert loop, whatever the world: the calls are the
    upserts of a prefix of the batch. *)
Lemma for_each_upsert_protocol data w :
  exists n,
    n <= List.length data /\
    w_log (snd (for_each data (fun tweet => items_upsert (tagged tweet)) w)) =
      (w_log w ++ List.map ItemsUpsert (List.map tagged (take n data)))%list /\
    ((fst (for_each data (fun tweet => items_upsert (tagged tweet)) w) = Ok tt /\
      n = List.length data /\
      w_store (snd (for_each data (fun tweet => items_upsert (tagged tweet)) w)) =
        upsert_all (List.map tagged data) (w_store w)) \/
     (fst (for_each data (fun tweet => items_upsert (tagged tweet)) w) = Throw CosmosError /\
      0 < n /\
      w_store (snd (for_each data (fun tweet => items_upsert (tagged tweet)) w)) =
        upsert_all (List.map tagged (take (n - 1) data)) (w_store w))).
Proof.
  revert w. induction data as [|d data IH]; intros w.
  - exists 0. simpl. rewrite app_nil_r. auto 7.
  - simpl for_each. unfold mbind, M_bind.
    rewrite (items_upsert_unfold (tagged d) w).
    destruct (rejected w).
    + exists 1. simpl. split; [lia|]. split; [reflexivity|].
      right. auto.
    + destruct (IH (set_store (upsert (tagged d) (w_store w))
                      (record_call (ItemsUpsert (tagged d)) w)))
        as (n & Hn & Hl & H).
      exists (S n). simpl. split; [lia|]. rewrite Hl. simpl.
      split; [rewrite <- app_assoc; reflexivity|].
      destruct H as [(Ho & -> & Hs)|(Ho & Hpos & Hs)].
      * left. auto.
      * right. rewrite Ho, Hs. split; [reflexivity|]. split; [lia|].
        destruct n as [|n]; [lia|]. simpl. rewrite Nat.sub_0_r. reflexivity.
Qed.

(** X9 (write-path protocol).  Whatever the collaborators do, the calls
    of [POST /sentiment] are the upserts of a prefix of the batch, in
    input order.  Either all were served, the reply is 200 with
    [{status: "ok"}] and the store has the whole batch upserted (for an
    empty batch: no call, store unchanged); or the last call was rejected,
    the request ends in that CosmosError and the store has exactly the
    tweets before it upserted. *)
Theorem write_path_protocol (data : list obj) (w : world) :
  exists n,
    n <= List.length data /\
    w_log (snd (post_sentiment data w)) =
      (w_log w ++ List.map ItemsUpsert (List.map tagged (take n data)))%list /\
    ((fst (post_sentiment data w) = Ok (Reply 200 (VObj [("status", VStr "ok")])) /\
      n = List.length data /\
      w_store (snd (post_sentiment data w)) =
        upsert_all (List.map tagged data) (w_store w)) \/
     (fst (post_sentiment data w) = Throw CosmosError /\
      0 < n /\
      w_store (snd (post_sentiment data w)) =
        upsert_all (List.map tagged (take (n - 1) data)) (w_store w))).
Proof.
  destruct (for_each_upsert_protocol data w) as (n & Hn & Hl & H).
  exists n. rewrite post_sentiment_for_each. unfold mbind, M_bind.
  destruct (for_each data _ w) as [[[]|e] w']; simpl in *.
  - split; [exact Hn|]. split; [exact Hl|].
    destruct H as [(_ & Hlen & Hs)|(Ho & _)]; [left | discriminate].
    split; [reflexivity | split; assumption].
  - split; [exact Hn|]. split; [exact Hl|].
    destruct H as [(Ho & _)|(Ho & Hpos & Hs)]; [discriminate|].
    right. injection Ho as ->. split; [reflexivity | split; assumption].
Qed.

Lemma write_path_protocol_aux data w :
  exists n,
    w_log (snd (post_sentiment data w)) =
      (w_log w ++ List.map ItemsUpsert (List.map tagged (take n data)))%list.
Proof.
  destruct (for_each_upsert_protocol data w) as (n & _ & Hl & _).
  exists n. rewrite post_sentiment_for_each. unfold mbind, M_bind.
  destruct (for_each data _ w) as [[[]|e] w']; simpl in *; exact Hl.
Qed.

(** X10 (discriminator of written documents).  Every document
    [POST /sentiment] sends to the store carries [type] equal to
    ["tweet"], overriding a [type] of the posted tweet, and has every
    other property exactly as in a tweet of the batch. *)
Theorem written_documents_are_tweets (data : list obj) (w : world) (doc : obj) :
  In (ItemsUpsert doc) (w_log (snd (post_sentiment data w))) ->
  In (ItemsUpsert doc) (w_log w) \/
  (obj_lookup "type" doc = Some (VStr "tweet") /\
   exists tweet,
     In tweet data /\
     forall k, k <> "type" -> obj_lookup k doc = obj_lookup k tweet).
Proof.
  intros Hin. destruct (write_path_protocol_aux data w) as (n & Hl).
  rewrite Hl in Hin. apply in_app_or in Hin as [Hin|Hin]; [left; exact Hin|].
  right. apply in_map_iff in Hin as (d & Hd & Hin). injection Hd as <-.
  apply in_map_iff in Hin as (tweet & <- & Hin).
  split; [apply lookup_tagged_type|].
  exists tweet. split.
  - apply list_elem_of_In. apply list_elem_of_In in Hin.
    exact (subseteq_take n data tweet Hin).
  - intros k Hk. apply lookup_tagged_other, Hk.
Qed.

Lemma written_documents_are_tweets_witness :
  In (ItemsUpsert (tagged (tweet_fields sample_tweet))) (w_log empty_world) \/
  (obj_lookup "type" (tagged (tweet_fields sample_tweet)) = Some (VStr "tweet") /\
   exists tweet,
     In tweet sample_batch /\
     forall k, k <> "type" ->
       obj_lookup k (tagged (tweet_fields sample_tweet)) = obj_lookup k tweet).
Proof.
  apply (written_documents_are_tweets sample_batch empty_world).
  left. reflexivity.
Defined.

Lemma upsert_id_kept x d store :
  In x store ->
  exists d', In d' (upsert d store) /\ id_key d' = id_key x /\ (d' = x \/ d' = d).
Proof.
  induction store as [|y store IH]; intros Hin; [destruct Hin|].
  simpl. destruct (String.eqb_spec (id_key y) (id_key d)) as [E|E].
  - destruct Hin as [->|Hin].
    + exists d. simpl. auto.
    + exists x. simpl. auto.
  - destruct Hin as [->|Hin].
    + exists x. simpl. auto.
    + destruct (IH Hin) as (d' & Hd' & Hid & Hor). exists d'. simpl. auto.
Qed.

Lemma upsert_all_id_kept x docs store :
  In x store ->
  exists d',
    In d' (upsert_all docs store) /\ id_key d' = id_key x /\ (d' = x \/ In d' docs).
Proof.
  revert x store. induction docs as [|d docs IH]; intros x store Hin; simpl.
  - exists x. auto.
  - destruct (upsert_id_kept x d store Hin) as (d1 & Hd1 & Hid1 & Hor1).
    destruct (IH d1 (upsert d store) Hd1) as (d2 & Hd2 & Hid2 & Hor2).
    exists d2. split; [exact Hd2|]. split; [congruence|].
    destruct Hor2 as [->|Hin2]; [|auto].
    destruct Hor1 as [->| ->]; auto.
Qed.

Lemma upsert_all_id_new x docs store :
  In x docs ->
  exists d', In d' (upsert_all docs store) /\ id_key d' = id_key x /\ In d' docs.
Proof.
  revert store. induction docs as [|d docs IH]; intros store Hin; [destruct Hin|].
  simpl. destruct Hin as [->|Hin].
  - destruct (upsert_all_id_kept x docs (upsert x store) (upsert_in x store))
      as (d' & Hd' & Hid & Hor).
    exists d'. split; [exact Hd'|]. split; [exact Hid|].
    destruct Hor as [->|H]; simpl; auto.
  - destruct (IH (upsert d store) Hin) as (d' & Hd' & Hid & Hin').
    exists d'. simpl. auto.
Qed.

Lemma tagged_docs_are_tweets d docs :
  In d (List.map tagged docs) -> matches_type tweet_type d = true.
Proof. intros H. apply in_map_iff in H as (o & <- & _). apply matches_type_tagged. Qed.

Lemma write_path_protocol_store data w :
  exists n,
    w_store (snd (post_sentiment data w)) =
      upsert_all (List.map tagged (take n data)) (w_store w).
Proof.
  destruct (for_each_upsert_protocol data w) as (n & _ & _ & H).
  rewrite post_sentiment_for_each. unfold mbind, M_bind.
  destruct (for_each data _ w) as [[[]|e] w']; simpl in *;
    destruct H as [(_ & -> & Hs)|(_ & _ & Hs)]; rewrite Hs;
    first [exists (List.length data); rewrite firstn_all; reflexivity | eauto].
Qed.

Lemma write_path_keeps_tweets_aux data w d :
  In d (tweet_docs (w_store w)) ->
  exists d',
    In d' (tweet_docs (w_store (snd (post_sentiment data w)))) /\
    id_key d' = id_key d.
Proof.
  intros Hd. apply filter_In in Hd as [Hin Ht].
  destruct (write_path_protocol_store data w) as [n ->].
  destruct (upsert_all_id_kept d (List.map tagged (take n data)) (w_store w) Hin)
    as (d' & Hd' & Hid & Hor).
  exists d'. split; [|exact Hid].
  apply filter_In. split; [exact Hd'|].
  destruct Hor as [->|H]; [exact Ht | eapply tagged_docs_are_tweets, H].
Qed.

(** X11 (the write path removes no tweet).  Whatever the batch and
    whatever the collaborators do, every tweet document in the store
    before [POST /sentiment] has a tweet document of the same id in the
    store afterwards. *)
Theorem write_path_keeps_tweets (data : list obj) (w : world) (d : obj) :
  In d (tweet_docs (w_store w)) ->
  exists d',
    In d' (tweet_docs (w_store (snd (post_sentiment data w)))) /\
    id_key d' = id_key d.
Proof. apply write_path_keeps_tweets_aux. Qed.

Lemma write_path_keeps_tweets_witness :
  exists d',
    In d' (tweet_docs (w_store (snd (post_sentiment [tweet_fields older_tweet]
                                       stored_world)))) /\
    id_key d' = id_key (tagged (tweet_fields sample_tweet)).
Proof.
  apply (write_path_keeps_tweets [tweet_fields older_tweet] stored_world).
  left. reflexivity.
Defined.

(** ** Writing, then asking for the latest id *)

(** The latest tweet, when there is one. *)
Lemma get_last_known_tweet_found w :
  rejected w = false ->
  tweet_docs (w_store w) <> [] ->
  exists d,
    In d (tweet_docs (w_store w)) /\
    (forall d', In d' (tweet_docs (w_store w)) ->
                String.leb (id_key d') (id_key d) = true) /\
    get_last_known_tweet w =
      (Ok (Reply 200
             (VObj [("data", VObj [("id", default VUndefined (obj_lookup "id" d))])])),
       record_call (ItemsQuery last_known_query) w).
Proof.
  intros Hr Hne.
  unfold get_last_known_tweet, mbind, M_bind, items_query. rewrite Hr.
  cbv beta iota zeta. rewrite run_last_known_query.
  destruct (order_by_id_desc (tweet_docs (w_store w))) as [|d rest] eqn:Eo.
  - destruct (tweet_docs (w_store w)) as [|d0 docs]; [congruence|].
    assert (Hin : In d0 (order_by_id_desc (d0 :: docs)))
      by (apply order_by_id_desc_In; left; reflexivity).
    rewrite Eo in Hin. destruct Hin.
  - destruct (order_by_id_desc_head _ _ _ Eo) as [Hin Hmax].
    exists d. split; [exact Hin|]. split; [exact Hmax|].
    simpl. unfold project. destruct (obj_lookup "id" d); reflexivity.
Qed.

(** X12 (write, then latest id).  After a [POST /sentiment] of a
    non-empty batch whose upserts were all served, [GET /last-known-tweet]
    replies 200 with the id of a stored tweet that is at least the id of
    every tweet of the batch and of every tweet stored before, in string
    order. *)
Theorem latest_after_write (w : world) (data : list obj) :
  data <> [] ->
  (forall k, w_fails w k = false) ->
  exists d w1 w2,
    post_sentiment data w = (Ok (Reply 200 (VObj [("status", VStr "ok")])), w1) /\
    get_last_known_tweet w1 =
      (Ok (Reply 200
             (VObj [("data", VObj [("id", default VUndefined (obj_lookup "id" d))])])),
       w2) /\
    In d (tweet_docs (w_store w1)) /\
    (forall tweet, In tweet data -> String.leb (id_key tweet) (id_key d) = true) /\
    (forall d0, In d0 (tweet_docs (w_store w)) ->
                String.leb (id_key d0) (id_key d) = true).
Proof.
  intros Hne Hcalm.
  set (w1 := World (w_cache w) (upsert_all (List.map tagged data) (w_store w))
                   (w_log w ++ List.map ItemsUpsert (List.map tagged data))%list
                   (w_fails w)).
  assert (Hpost : post_sentiment data w =
                    (Ok (Reply 200 (VObj [("status", VStr "ok")])), w1)).
  { rewrite post_sentiment_for_each. unfold mbind, M_bind.
    rewrite for_each_upsert_ok by (apply calls_succeed_all, Hcalm). reflexivity. }
  assert (Hnew : forall tweet, In tweet data ->
            exists d', In d' (tweet_docs (w_store w1)) /\ id_key d' = id_key tweet).
  { intros tweet Hin.
    destruct (upsert_all_id_new (tagged tweet) (List.map tagged data) (w_store w))
      as (d' & Hd' & Hid & Hin'); [apply in_map, Hin|].
    exists d'. split; [|rewrite Hid; apply id_key_tagged].
    apply filter_In. split; [exact Hd' | eapply tagged_docs_are_tweets, Hin']. }
  assert (Hne1 : tweet_docs (w_store w1) <> []).
  { destruct data as [|tweet data']; [congruence|].
    destruct (Hnew tweet (or_introl eq_refl)) as (d' & Hd' & _).
    intros E. rewrite E in Hd'. destruct Hd'. }
  destruct (get_last_known_tweet_found w1 (Hcalm _) Hne1) as (d & Hin & Hmax & Hget).
  exists d, w1. eexists. split; [exact Hpost|]. split; [exact Hget|].
  split; [exact Hin|]. split.
  - intros tweet Ht. destruct (Hnew tweet Ht) as (d' & Hd' & <-). apply Hmax, Hd'.
  - intros d0 Hd0.
    destruct (write_path_keeps_tweets_aux data w d0 Hd0) as (d' & Hd' & <-).
    rewrite Hpost in Hd'. apply Hmax, Hd'.
Qed.

Lemma latest_after_write_witness :
  exists d w1 w2,
    post_sentiment sample_batch empty_world =
      (Ok (Reply 200 (VObj [("status", VStr "ok")])), w1) /\
    get_last_known_tweet w1 =
      (Ok (Reply 200
             (VObj [("data", VObj [("id", default VUndefined (obj_lookup "id" d))])])),
       w2) /\
    In d (tweet_docs (w_store w1)) /\
    (forall tweet, In tweet sample_batch -> String.leb (id_key tweet) (id_key d) = true) /\
    (forall d0, In d0 (tweet_docs (w_store empty_world)) ->
                String.leb (id_key d0) (id_key d) = true).
Proof.
  apply (latest_after_write empty_world sample_batch).
  - discriminate.
  - intros k. reflexivity.
Defined.

(** ** Documents of other kinds *)

Lemma respects_ret {A} (a : A) : respects_tweets (mret a).
Proof. intros w1 w2 H. split; [reflexivity | exact H]. Qed.

Lemma respects_lift {A} (r : outcome A) : respects_tweets (lift r).
Proof. intros w1 w2 H. split; [reflexivity | exact H]. Qed.

Lemma respects_bind {A B} (m : M A) (k : A -> M B) :
  respects_tweets m -> (forall a, respects_tweets (k a)) -> respects_tweets (m ≫= k).
Proof.
  intros Hm Hk w1 w2 H. unfold mbind, M_bind.
  destruct (Hm w1 w2 H) as [Hf Hs].
  destruct (m w1) as [o1 w1'], (m w2) as [o2 w2']. simpl in Hf, Hs. subst o2.
  destruct o1 as [a|e]; [apply Hk, Hs | split; [reflexivity | exact Hs]].
Qed.

Lemma same_tweets_rejected w1 w2 : same_tweets w1 w2 -> rejected w1 = rejected w2.
Proof. intros (_ & Hl & Hf & _). unfold rejected. rewrite Hl, Hf. reflexivity. Qed.

Lemma same_tweets_record c w1 w2 :
  same_tweets w1 w2 -> same_tweets (record_call c w1) (record_call c w2).
Proof.
  intros (Hc & Hl & Hf & Ht). unfold same_tweets. simpl. rewrite Hl. auto.
Qed.

Lemma respects_client_get key : respects_tweets (client_get key).
Proof.
  intros w1 w2 H. unfold client_get.
  rewrite (same_tweets_rejected w1 w2 H).
  pose proof (same_tweets_record (CacheGet key) w1 w2 H) as Hrec.
  destruct H as (Hc & _). rewrite Hc.
  destruct (rejected w2); split; simpl; auto.
Qed.

Lemma respects_client_set key text ex : respects_tweets (client_set key text ex).
Proof.
  intros w1 w2 H. unfold client_set.
  rewrite (same_tweets_rejected w1 w2 H).
  pose proof (same_tweets_record (CacheSet key text ex) w1 w2 H) as Hrec.
  destruct (rejected w2); split; simpl; auto.
  destruct Hrec as (Hc & Hl & Hf & Ht). simpl in *.
  destruct H as (Hc0 & _). unfold same_tweets. simpl. rewrite Hc0. auto.
Qed.

Lemma respects_sentiment_query : respects_tweets (items_query sentiment_query).
Proof.
  intros w1 w2 H. unfold items_query.
  rewrite (same_tweets_rejected w1 w2 H).
  pose proof (same_tweets_record (ItemsQuery sentiment_query) w1 w2 H) as Hrec.
  destruct (rejected w2); split; simpl; auto.
  rewrite !run_sentiment_query. destruct H as (_ & _ & _ & ->). reflexivity.
Qed.

Lemma respects_last_known_query : respects_tweets (items_query last_known_query).
Proof.
  intros w1 w2 H. unfold items_query.
  rewrite (same_tweets_rejected w1 w2 H).
  pose proof (same_tweets_record (ItemsQuery last_known_query) w1 w2 H) as Hrec.
  destruct (rejected w2); split; simpl; auto.
  rewrite !run_last_known_query. destruct H as (_ & _ & _ & ->). reflexivity.
Qed.

Ltac respects_step :=
  first
    [ apply respects_bind; [|intros ?]
    | apply respects_client_get
    | apply respects_client_set
    | apply respects_sentiment_query
    | apply respects_last_known_query
    | apply respects_lift
    | apply respects_ret
    | match goal with
      | |- respects_tweets (if ?b then _ else _) => destruct b
      | |- respects_tweets (match ?x with _ => _ end) => destruct x
      end ].

Lemma get_sentiment_respects : respects_tweets get_sentiment.
Proof. unfold get_sentiment, send. repeat respects_step. Qed.

Lemma get_last_known_tweet_respects : respects_tweets get_last_known_tweet.
Proof. unfold get_last_known_tweet, send. repeat respects_step. Qed.

(** X13 (other documents are invisible).  The replies of
    [GET /sentiment] and [GET /last-known-tweet] depend on the store only
    through its documents of discriminator ["tweet"]: two stores with the
    same tweet documents give the same outcome. *)
Theorem other_documents_invisible (w : world) (docs : list obj) :
  tweet_docs docs = tweet_docs (w_store w) ->
  fst (get_sentiment (set_store docs w)) = fst (get_sentiment w) /\
  fst (get_last_known_tweet (set_store docs w)) = fst (get_last_known_tweet w).
Proof.
  intros H.
  assert (Hs : same_tweets (set_store docs w) w) by (repeat split; exact H).
  split.
  - apply get_sentiment_respects, Hs.
  - apply get_last_known_tweet_respects, Hs.
Qed.

Lemma other_documents_invisible_witness :
  fst (get_sentiment (set_store (other_document :: w_store stored_world) stored_world)) =
    fst (get_sentiment stored_world) /\
  fst (get_last_known_tweet
         (set_store (other_document :: w_store stored_world) stored_world)) =
    fst (get_last_known_tweet stored_world).
Proof.
  apply (other_documents_invisible stored_world (other_document :: w_store stored_world)).
  reflexivity.
Defined.

(** ** Normalization *)

(** X14 (when normalization throws).  The callback of
    [response.resources.map] returns an object exactly when the record,
    its [sentiment] and the [confidenceScores] of that are neither
    [undefined] nor [null], [sentences] is an array, and every element of
    it and its [confidenceScores] are neither [undefined] nor [null];
    otherwise it throws a TypeError.  A missing [id], [text], score or
    offset does not make it throw. *)
Theorem normalize_failure_condition (v : value) :
  (normalizable v = true -> exists r, normalize v = Ok r) /\
  (normalizable v = false -> normalize v = Throw TypeError).
Proof. rewrite normalize_cases. split; intros ->; eauto. Qed.

Lemma normalize_failure_condition_witness :
  (exists r, normalize (VObj (tagged (tweet_fields sample_tweet))) = Ok r) /\
  normalize (VObj (tagged bare_tweet)) = Throw TypeError.
Proof.
  split.
  - apply (proj1 (normalize_failure_condition (VObj (tagged (tweet_fields sample_tweet))))).
    reflexivity.
  - apply (proj2 (normalize_failure_condition (VObj (tagged bare_tweet)))).
    reflexivity.
Defined.

Lemma normalize_shape v r :
  normalize v = Ok r ->
  exists sentences,
    field (field v p_sentiment) p_sentences = VArr sentences /\
    r = VObj [("id", field v p_id);
              ("text", field v p_text);
              ("sentiment",
                VObj [("sentiment", field (field v p_sentiment) p_sentiment);
                      ("confidenceScores",
                        picked_scores (field (field v p_sentiment) p_confidenceScores));
                      ("sentences", VArr (List.map picked_sentence sentences))])].
Proof.
  rewrite normalize_cases. destruct (normalizable v) eqn:E; [|discriminate].
  intros H. injection H as <-. unfold normalizable, sentences_readable in E.
  unfold picked_tweet.
  destruct (field (field v p_sentiment) p_sentences) as [| | | | |xs|];
    try (rewrite andb_false_r in E; discriminate).
  exists xs. split; reflexivity.
Qed.

(** X15 (what normalization keeps).  The object the callback returns
    has exactly the properties [id], [text], [sentiment] (with
    [sentiment], [confidenceScores], [sentences]), each holding the value
    read from the record as it is, [undefined] when absent: no other
    property of the record survives and no value is converted. *)
Theorem normalize_keeps_declared_properties (v r : value) :
  normalize v = Ok r ->
  exists sentences,
    field (field v p_sentiment) p_sentences = VArr sentences /\
    r = VObj [("id", field v p_id);
              ("text", field v p_text);
              ("sentiment",
                VObj [("sentiment", field (field v p_sentiment) p_sentiment);
                      ("confidenceScores",
                        picked_scores (field (field v p_sentiment) p_confidenceScores));
                      ("sentences", VArr (List.map picked_sentence sentences))])].
Proof. apply normalize_shape. Qed.

Lemma normalize_keeps_declared_properties_witness :
  exists sentences,
    field (field (VObj (tagged (tweet_fields sample_tweet))) p_sentiment) p_sentences =
      VArr sentences /\
    tweet_value sample_tweet =
      VObj [("id", field (VObj (tagged (tweet_fields sample_tweet))) p_id);
            ("text", field (VObj (tagged (tweet_fields sample_tweet))) p_text);
            ("sentiment",
              VObj [("sentiment",
                      field (field (VObj (tagged (tweet_fields sample_tweet))) p_sentiment)
                        p_sentiment);
                    ("confidenceScores",
                      picked_scores
                        (field (field (VObj (tagged (tweet_fields sample_tweet)))
                                  p_sentiment) p_confidenceScores));
                    ("sentences", VArr (List.map picked_sentence sentences))])].
Proof.
  apply (normalize_keeps_declared_properties
           (VObj (tagged (tweet_fields sample_tweet))) (tweet_value sample_tweet)).
  reflexivity.
Defined.

Lemma picked_sentence_fixed s : picked_sentence (picked_sentence s) = picked_sentence s.
Proof. reflexivity. Qed.

Lemma picked_sentence_normalizable s : normalizable_sentence (picked_sentence s) = true.
Proof. reflexivity. Qed.

(** X16 (normalization is idempotent).  An object the callback returned
    is returned unchanged when normalized again. *)
Theorem normalize_idempotent (v r : value) :
  normalize v = Ok r -> normalize r = Ok r.
Proof.
  intros H. destruct (normalize_shape v r H) as (xs & _ & ->). clear H.
  rewrite normalize_cases.
  assert (Hn : forallb normalizable_sentence (List.map picked_sentence xs) = true).
  { induction xs as [|x xs IH]; [reflexivity | exact IH]. }
  assert (Hm : List.map picked_sentence (List.map picked_sentence xs)
               = List.map picked_sentence xs).
  { rewrite map_map. reflexivity. }
  unfold normalizable, sentences_readable, picked_tweet.
  cbn [field js_get prop_name obj_lookup String.eqb Ascii.eqb Bool.eqb default nullish
       negb andb].
  simpl. rewrite Hn. simpl. rewrite Hm. reflexivity.
Qed.

Lemma normalize_idempotent_witness :
  normalize (tweet_value sample_tweet) = Ok (tweet_value sample_tweet).
Proof.
  apply (normalize_idempotent (VObj (tagged (tweet_fields sample_tweet)))).
  reflexivity.
Defined.

(** ** The body schema and the read path *)

Lemma field_tagged o p : field (VObj (tagged o)) p = field (VObj o) p.
Proof.
  unfold field. simpl. rewrite lookup_tagged_other; [reflexivity|].
  destruct p; discriminate.
Qed.

Lemma normalizable_tagged o : normalizable (VObj (tagged o)) = normalizable (VObj o).
Proof.
  unfold normalizable, sentences_readable. rewrite !field_tagged. reflexivity.
Qed.

Lemma normalizable_sentences v :
  normalizable v =
    negb (nullish v)
    && negb (nullish (field v p_sentiment))
    && negb (nullish (field (field v p_sentiment) p_confidenceScores))
    && sentences_readable v.
Proof. reflexivity. Qed.

(** X17 (the body schema accepts the record model).  A request body
    whose [data] is the objects of any list of records with finite
    sentiment scores passes the body schema of [POST /sentiment]. *)
Theorem schema_accepts_record_model (ts : list TweetWithSentiment) :
  Forall (fun t => finite_scores (st_confidenceScores (tw_sentiment t)) = true) ts ->
  validate body_schema (request_body (List.map tweet_value ts)) = true.
Proof.
  intros H. unfold body_schema, request_body. simpl.
  rewrite andb_true_r. induction H as [|t ts Ht _ IH]; [reflexivity|].
  simpl. rewrite IH, andb_true_r.
  destruct t as [i txt [s [p n g] ss]]. unfold finite_scores in Ht. simpl in *.
  apply andb_true_iff in Ht as [Ht Hg]. apply andb_true_iff in Ht as [Hp Hn].
  rewrite Hp, Hn, Hg. reflexivity.
Qed.

Lemma schema_accepts_record_model_witness :
  validate body_schema
    (request_body (List.map tweet_value [sample_tweet; older_tweet])) = true.
Proof.
  apply (schema_accepts_record_model [sample_tweet; older_tweet]).
  repeat constructor.
Defined.

(** What the body schema guarantees of an accepted tweet: its [sentiment]
    and the [confidenceScores] of that are objects. *)
Lemma accepted_tweet_objects o :
  validate tweet_schema (VObj o) = true ->
  exists so sc,
    obj_lookup "sentiment" o = Some (VObj so) /\
    obj_lookup "confidenceScores" so = Some (VObj sc).
Proof.
  intros H. unfold tweet_schema in H. simpl in H.
  rewrite !andb_true_iff in H.
  destruct H as ((_ & _ & Hp & _) & _ & _ & Hv & _).
  rewrite Hp in Hv. unfold present in Hp.
  destruct (obj_lookup "sentiment" o) as [[| | | | | |so]|] eqn:Es; try discriminate.
  simpl in Hv. rewrite !andb_true_iff in Hv.
  destruct Hv as ((_ & Hp' & _) & _ & Hv' & _).
  rewrite Hp' in Hv'. unfold present in Hp'.
  destruct (obj_lookup "confidenceScores" so) as [[| | | | | |sc]|] eqn:Ec;
    try discriminate.
  exists so, sc. split; [reflexivity | exact Ec].
Qed.

Lemma accepted_tweet_normalizable o :
  validate tweet_schema (VObj o) = true ->
  normalizable (VObj (tagged o)) = sentences_readable (VObj o).
Proof.
  intros H. destruct (accepted_tweet_objects o H) as (so & sc & Es & Ec).
  rewrite normalizable_tagged, normalizable_sentences.
  unfold field at 1 2 3. simpl. rewrite Es. simpl. rewrite Ec. reflexivity.
Qed.

(** X18 (what the body schema leaves open).  For a tweet the body schema
    accepts, the document the write path stores normalizes exactly when
    its [sentiment.sentences], which the schema does not mention, is an
    array whose elements and their [confidenceScores] are neither
    [undefined] nor [null]. *)
Theorem accepted_tweet_readable_iff (o : obj) :
  validate tweet_schema (VObj o) = true ->
  normalizable (VObj (tagged o)) = sentences_readable (VObj o).
Proof. apply accepted_tweet_normalizable. Qed.

Lemma accepted_tweet_readable_iff_witness :
  validate tweet_schema (VObj bare_tweet) = true /\
  normalizable (VObj (tagged bare_tweet)) = sentences_readable (VObj bare_tweet) /\
  sentences_readable (VObj bare_tweet) = false.
Proof.
  split; [reflexivity|]. split; [|reflexivity].
  apply (accepted_tweet_readable_iff bare_tweet). reflexivity.
Defined.

Lemma accepted_body_tweets data o :
  validate body_schema (request_body (List.map VObj data)) = true ->
  In o data ->
  validate tweet_schema (VObj o) = true.
Proof.
  unfold body_schema, request_body. intros H Hin.
  change (validate (SchObject ["data"] [("data", SchArray tweet_schema)])
            (VObj [("data", VArr (List.map VObj data))]))
    with (true && (forallb (validate tweet_schema) (List.map VObj data) && true)) in H.
  rewrite andb_true_r, andb_true_l in H.
  rewrite forallb_forall in H. apply H, in_map, Hin.
Qed.

(** X19 (an accepted request can break reads).  A request the body
    schema accepts, holding a tweet whose [sentences] is not readable and
    that no later tweet of the batch replaces, is answered 200 by
    [POST /sentiment]; the read that follows on a miss ends in a
    TypeError, and the cache stays as it was. *)
Theorem accepted_request_can_break_reads
    (w : world) (data : list obj) (i : nat) (o : obj) :
  validate body_schema (request_body (List.map VObj data)) = true ->
  data !! i = Some o ->
  sentences_readable (VObj o) = false ->
  (forall j o', i < j -> data !! j = Some o' -> id_key o' <> id_key o) ->
  cache_miss w = true ->
  (forall k, w_fails w k = false) ->
  exists w1 w2,
    post_sentiment data w = (Ok (Reply 200 (VObj [("status", VStr "ok")])), w1) /\
    get_sentiment w1 = (Throw TypeError, w2) /\
    w_cache w2 = w_cache w.
Proof.
  intros Hacc Hi Hbad Hlater Hmiss Hcalm.
  set (w1 := World (w_cache w) (upsert_all (List.map tagged data) (w_store w))
                   (w_log w ++ List.map ItemsUpsert (List.map tagged data))%list
                   (w_fails w)).
  assert (Hpost : post_sentiment data w =
                    (Ok (Reply 200 (VObj [("status", VStr "ok")])), w1)).
  { rewrite post_sentiment_for_each. unfold mbind, M_bind.
    rewrite for_each_upsert_ok by (apply calls_succeed_all, Hcalm). reflexivity. }
  assert (Hin : In (tagged o) (tweet_docs (w_store w1))).
  { apply filter_In. split; [|apply matches_type_tagged].
    apply (upsert_all_persisted _ i).
    - rewrite lookup_map, Hi. reflexivity.
    - intros j d' Hj Hd'. rewrite lookup_map in Hd'.
      destruct (data !! j) as [o'|] eqn:E; [|discriminate].
      injection Hd' as <-. rewrite !id_key_tagged.
      apply (Hlater j); [exact Hj | exact E]. }
  assert (Hun : normalizable (VObj (tagged o)) = false).
  { rewrite accepted_tweet_normalizable; [exact Hbad|].
    apply (accepted_body_tweets data); [exact Hacc|].
    apply list_elem_of_In. eapply list_elem_of_lookup_2, Hi. }
  exists w1. eexists. split; [exact Hpost|].
  rewrite (get_sentiment_unreadable w1 (tagged o));
    [split; reflexivity | exact Hmiss | apply calls_succeed_all, Hcalm | exact Hin | exact Hun].
Qed.

Lemma accepted_request_can_break_reads_witness :
  exists w1 w2,
    post_sentiment [bare_tweet] empty_world =
      (Ok (Reply 200 (VObj [("status", VStr "ok")])), w1) /\
    get_sentiment w1 = (Throw TypeError, w2) /\
    w_cache w2 = w_cache empty_world.
Proof.
  apply (accepted_request_can_break_reads empty_world [bare_tweet] 0 bare_tweet).
  - reflexivity.
  - reflexivity.
  - reflexivity.
  - intros [|[|j]] o' Hj Ho'; simpl in Ho'; try lia; discriminate.
  - reflexivity.
  - intros k. reflexivity.
Defined.

(** ** Why a read fails *)

Lemma parse_throws_syntax_error text e : JSON.parse text = Throw e -> e = SyntaxError.
Proof.
  unfold JSON.parse.
  destruct (JSON.parse_value _ text) as [[v rest]|]; [|congruence].
  destruct (JSON.skip_ws rest); congruence.
Qed.

Lemma js_get_throws v p e : js_get v p = Throw e -> e = TypeError /\ nullish v = true.
Proof.
  rewrite js_get_field. destruct (nullish v); [|discriminate].
  intros H. injection H as <-. auto.
Qed.

Lemma outcome_map_throw_inv {A B} (f : A -> outcome B) xs e :
  outcome_map f xs = Throw e -> exists x, In x xs /\ f x = Throw e.
Proof.
  induction xs as [|x xs IH]; simpl; [discriminate|].
  destruct (f x) as [y|e'] eqn:Ex; simpl.
  - destruct (outcome_map f xs) as [ys|e'']; simpl; [discriminate|].
    intros H. injection H as <-. destruct (IH eq_refl) as (x' & Hin & Hx').
    exists x'. auto.
  - intros H. injection H as <-. exists x. auto.
Qed.

Lemma normalize_docs_throw docs e :
  outcome_map normalize (List.map VObj docs) = Throw e ->
  e = TypeError /\ exists d, In d docs /\ normalizable (VObj d) = false.
Proof.
  intros H. destruct (outcome_map_throw_inv _ _ _ H) as (x & Hin & Hx).
  apply in_map_iff in Hin as (d & <- & Hd).
  rewrite normalize_cases in Hx.
  destruct (normalizable (VObj d)) eqn:E; [discriminate|].
  injection Hx as <-. eauto.
Qed.

Lemma get_sentiment_after_cache :
  get_sentiment =
    (tweetsFromCache ← client_get "tweets";
     tweets ← match tweetsFromCache with
              | Some text =>
                  if truthy tweetsFromCache then lift (JSON.parse text)
                  else mret (VArr [])
              | None => mret (VArr [])
              end;
     after_cache tweets).
Proof. reflexivity. Qed.

Lemma after_cache_failure tweets w e :
  fst (after_cache tweets w) = Throw e ->
  (e = TypeError /\ nullish tweets = true) \/
  (e = CosmosError /\ rejected w = true) \/
  (e = TypeError /\
   exists d, In d (tweet_docs (w_store w)) /\ normalizable (VObj d) = false) \/
  (e = RedisError /\ rejected (record_call (ItemsQuery sentiment_query) w) = true).
Proof.
  unfold after_cache, mbind, M_bind, lift.
  destruct (js_get tweets p_length) as [len|e'] eqn:El.
  2:{ simpl. intros H. injection H as <-.
      destruct (js_get_throws _ _ _ El) as [-> Hn]. auto. }
  destruct (strict_equals_number len (number_of_Z 0)); [|discriminate].
  unfold items_query. destruct (rejected w) eqn:Er.
  { simpl. intros H. injection H as <-. auto. }
  cbv beta iota zeta. rewrite run_sentiment_query.
  destruct (tweet_docs (w_store w)) as [|d ds] eqn:Ed; [discriminate|].
  rewrite length_map.
  change (0 <? List.length (d :: ds))%nat with true. cbv beta iota zeta.
  destruct (outcome_map normalize (List.map VObj (d :: ds))) as [mapped|e'] eqn:En.
  2:{ simpl. intros H. injection H as <-.
      destruct (normalize_docs_throw _ _ En) as (-> & d' & Hd' & Hbad).
      right. right. left. eauto. }
  unfold client_set. cbv beta iota zeta.
  destruct (rejected (record_call (ItemsQuery sentiment_query) w)) eqn:Es;
    [|discriminate].
  simpl. intros H. injection H as <-. auto 6.
Qed.

(** X20 (why a read fails).  When [GET /sentiment] ends in an error, the
    error names its cause: a RedisError comes from a rejected cache read
    or cache write, a SyntaxError from a cached text that is not JSON, a
    CosmosError from a rejected store query, a TypeError from a cached
    [null] or from a tweet document that does not normalize. *)
Theorem read_failure_causes (w : world) (e : exn) :
  fst (get_sentiment w) = Throw e -> failure_cause w e.
Proof.
  rewrite get_sentiment_after_cache. unfold mbind at 1, M_bind at 1, client_get.
  destruct (rejected w) eqn:Er.
  { simpl. intros H. injection H as <-. left. exact Er. }
  cbv beta iota zeta.
  assert (Htail : forall t,
            fst (after_cache t (record_call (CacheGet "tweets") w)) = Throw e ->
            (nullish t = true -> exists text,
                cached_text w = Some text /\ JSON.parse text = Ok t) ->
            failure_cause w e).
  { intros t Ht Hnull.
    destruct (after_cache_failure _ _ _ Ht) as [[-> Hn]|[[-> Hc]|[[-> Hd]|[-> Hs]]]].
    - left. destruct (Hnull Hn) as (text & Hc & Hp). eauto.
    - unfold rejected in Hc. simpl in Hc. rewrite length_app in Hc. exact Hc.
    - right. exact Hd.
    - right. rewrite rejected_after_two in Hs. exact Hs. }
  destruct (ce_value <$> w_cache w !! "tweets") as [text|] eqn:Ec.
  - destruct (truthy (Some text)).
    + unfold mbind, M_bind, lift. destruct (JSON.parse text) as [v|e'] eqn:Ep.
      * intros H. apply (Htail v H). intros _. exists text. split; [exact Ec | exact Ep].
      * simpl. intros H. injection H as <-.
        pose proof (parse_throws_syntax_error _ _ Ep) as ->.
        exists text. split; [exact Ec | exact Ep].
    + intros H. apply (Htail (VArr []) H). discriminate.
  - intros H. apply (Htail (VArr []) H). discriminate.
Qed.

Lemma read_failure_causes_witness :
  failure_cause malformed_world SyntaxError.
Proof.
  apply (read_failure_causes malformed_world SyntaxError).
  vm_compute. reflexivity.
Defined.
